(** * Session and transport core of the storage REST client

    A shallow embedding of package [base] (rest client: [GetRequest],
    [BaseCall], [Call], [Login], [loginCall], [setDataFromRespData],
    [Logout], [ReLogin]) and of the oceanstor client ([SafeCall],
    [SafeBaseCall], [safeDoCall]), together with the properties the
    specification states about them.

    Conventions.
    - A Go [error] is [option string]: [None] is [nil], [Some m] an error
      whose [Error()] text is [m] (the code compares errors by that text).
    - A method with receiver [cli] is a computation in the monad [M]: it
      threads the client record, the process-wide permit registry, the
      outside world and a trace of what happened; a Go panic is the
      result [Panic].
    - Mutex and permit acquisition are recorded at the point where they
      are granted; waiting is not represented.
    - Log lines have no effect on the state and are left out. *)

From Stdlib Require Import ZArith QArith String Ascii List Lia.
From stdpp Require Import base option list gmap strings pretty.

Set Warnings "-register-all".
Open Scope string_scope.
Open Scope list_scope.
Open Scope nat_scope.

(** ** Values *)

(** What [encoding/json] puts in an [interface{}]: JSON numbers are
    [float64] (here exact rationals, which covers every finite decoded
    number), objects are [map[string]interface{}]. *)
Inductive any : Type :=
  | Nil
  | Bool (b : bool)
  | Float64 (q : Q)
  | Str (s : string)
  | Map (m : gmap string any)
  | Slice (l : list any).

(** The conversion [int64(f)] truncates towards zero. *)
Definition int64_of_float64 (q : Q) : Z := (Qnum q ÷ Zpos (Qden q))%Z.

Abbreviation error := (option string).

(** [Response]: the decoded envelope.  Only its uses are in the sources:
    [resp.Error] is indexed as a [map[string]interface{}] and [resp.Data]
    is type-asserted, so these are the two fields.  A nil map reads like
    an empty one. *)
Record Response : Type := mkResponse {
  Error : gmap string any;
  Data : any
}.

(** [Response{}] *)
Definition Response_zero : Response := {| Error := ∅; Data := Nil |}.

(** ** Requests and headers (net/http) *)

Definition Header : Type := gmap string (list string).

Definition is_lower (c : ascii) : bool :=
  (97 <=? nat_of_ascii c)%nat && (nat_of_ascii c <=? 122)%nat.
Definition is_upper (c : ascii) : bool :=
  (65 <=? nat_of_ascii c)%nat && (nat_of_ascii c <=? 90)%nat.
Definition is_digit (c : ascii) : bool :=
  (48 <=? nat_of_ascii c)%nat && (nat_of_ascii c <=? 57)%nat.
Definition to_upper (c : ascii) : ascii :=
  if is_lower c then ascii_of_nat (nat_of_ascii c - 32) else c.
Definition to_lower (c : ascii) : ascii :=
  if is_upper c then ascii_of_nat (nat_of_ascii c + 32) else c.

(** Bytes allowed in a header field name (RFC 7230 token). *)
Definition validHeaderFieldByte (c : ascii) : bool :=
  is_lower c || is_upper c || is_digit c ||
  bool_decide (c ∈ list_ascii_of_string "!#$%&'*+-.^_`|~").

Fixpoint canonicalize (upper : bool) (s : string) : string :=
  match s with
  | EmptyString => EmptyString
  | String c s' =>
      let c' := if upper then to_upper c else to_lower c in
      String c' (canonicalize (bool_decide (c' = "-"%char)) s')
  end.

(** [textproto.CanonicalMIMEHeaderKey]: first letter and letters after a
    dash in upper case, the rest in lower case; a key with a byte that
    is not allowed in a field name is returned as it is. *)
Definition CanonicalMIMEHeaderKey (s : string) : string :=
  if forallb validHeaderFieldByte (list_ascii_of_string s)
  then canonicalize true s else s.

Record Request : Type := mkRequest {
  Method : string;
  URL : string;
  Body : option string;
  Hdr : Header
}.

(** [req.Header.Set(key, value)] *)
Definition Header_Set (req : Request) (key value : string) : Request :=
  {| Method := Method req; URL := URL req; Body := Body req;
     Hdr := <[CanonicalMIMEHeaderKey key := [value]]> (Hdr req) |}.

(** [req.Header.Values(key)] *)
Definition Header_Values (req : Request) (key : string) : list string :=
  default [] (Hdr req !! CanonicalMIMEHeaderKey key).

(** ** The rest client *)

(** Transport objects ([HTTP] interface values) are handles. *)
Definition HTTP : Type := nat.

(** Addresses of permit objects ([*utils.Semaphore]). *)
Definition loc : Type := nat.

Record RestClient : Type := mkRestClient {
  Client : option HTTP;
  Url : string;
  Urls : list string;
  VStoreID : string;
  VStoreName : string;
  User : string;
  SecretNamespace : string;
  SecretName : string;
  StorageVersion : string;
  BackendID : string;
  Storage : string;
  DeviceId : string;
  Token : string;
  SystemInfoRefreshing : N;
  RequestSemaphore : option loc
}.

Definition set_Client (v : option HTTP) (c : RestClient) : RestClient :=
  mkRestClient v (Url c) (Urls c) (VStoreID c) (VStoreName c) (User c)
    (SecretNamespace c) (SecretName c) (StorageVersion c) (BackendID c)
    (Storage c) (DeviceId c) (Token c) (SystemInfoRefreshing c)
    (RequestSemaphore c).
Definition set_Url (v : string) (c : RestClient) : RestClient :=
  mkRestClient (Client c) v (Urls c) (VStoreID c) (VStoreName c) (User c)
    (SecretNamespace c) (SecretName c) (StorageVersion c) (BackendID c)
    (Storage c) (DeviceId c) (Token c) (SystemInfoRefreshing c)
    (RequestSemaphore c).
Definition set_Urls (v : list string) (c : RestClient) : RestClient :=
  mkRestClient (Client c) (Url c) v (VStoreID c) (VStoreName c) (User c)
    (SecretNamespace c) (SecretName c) (StorageVersion c) (BackendID c)
    (Storage c) (DeviceId c) (Token c) (SystemInfoRefreshing c)
    (RequestSemaphore c).
Definition set_VStoreID (v : string) (c : RestClient) : RestClient :=
  mkRestClient (Client c) (Url c) (Urls c) v (VStoreName c) (User c)
    (SecretNamespace c) (SecretName c) (StorageVersion c) (BackendID c)
    (Storage c) (DeviceId c) (Token c) (SystemInfoRefreshing c)
    (RequestSemaphore c).
Definition set_VStoreName (v : string) (c : RestClient) : RestClient :=
  mkRestClient (Client c) (Url c) (Urls c) (VStoreID c) v (User c)
    (SecretNamespace c) (SecretName c) (StorageVersion c) (BackendID c)
    (Storage c) (DeviceId c) (Token c) (SystemInfoRefreshing c)
    (RequestSemaphore c).
Definition set_User (v : string) (c : RestClient) : RestClient :=
  mkRestClient (Client c) (Url c) (Urls c) (VStoreID c) (VStoreName c) v
    (SecretNamespace c) (SecretName c) (StorageVersion c) (BackendID c)
    (Storage c) (DeviceId c) (Token c) (SystemInfoRefreshing c)
    (RequestSemaphore c).
Definition set_StorageVersion (v : string) (c : RestClient) : RestClient :=
  mkRestClient (Client c) (Url c) (Urls c) (VStoreID c) (VStoreName c)
    (User c) (SecretNamespace c) (SecretName c) v (BackendID c)
    (Storage c) (DeviceId c) (Token c) (SystemInfoRefreshing c)
    (RequestSemaphore c).
Definition set_DeviceId (v : string) (c : RestClient) : RestClient :=
  mkRestClient (Client c) (Url c) (Urls c) (VStoreID c) (VStoreName c)
    (User c) (SecretNamespace c) (SecretName c) (StorageVersion c)
    (BackendID c) (Storage c) v (Token c) (SystemInfoRefreshing c)
    (RequestSemaphore c).
Definition set_Token (v : string) (c : RestClient) : RestClient :=
  mkRestClient (Client c) (Url c) (Urls c) (VStoreID c) (VStoreName c)
    (User c) (SecretNamespace c) (SecretName c) (StorageVersion c)
    (BackendID c) (Storage c) (DeviceId c) v (SystemInfoRefreshing c)
    (RequestSemaphore c).
Definition set_SystemInfoRefreshing (v : N) (c : RestClient) : RestClient :=
  mkRestClient (Client c) (Url c) (Urls c) (VStoreID c) (VStoreName c)
    (User c) (SecretNamespace c) (SecretName c) (StorageVersion c)
    (BackendID c) (Storage c) (DeviceId c) (Token c) v
    (RequestSemaphore c).

(** [GetDeviceSN] *)
Definition GetDeviceSN (c : RestClient) : string := DeviceId c.

(** ** Declarations of the package that are not part of the sources

    Constants and helpers that the functions below use and whose
    definitions are elsewhere in the repository.  They are parameters of
    the development. *)
Record Params : Type := mkParams {
  Unconnected : string;
  UninitializedStorage : string;
  MaxStorageThreads : nat;
  DefaultVStore : string;
  DefaultVStoreID : string;
  WrongPasswordErrorCodes : list Z;
  AccountBeenLocked : list Z;
  IPLockErrorCode : Z;
  NeedReLogin : Response → error → bool;
  (** [utils.FormatRespErr]: code, message, error *)
  FormatRespErr : gmap string any → Z * string * error;
  (** [utils.GetValue[string]]: value and ok *)
  GetValue_string : gmap string any → string → string * bool;
  (** [json.Marshal] of a request body: bytes or the error text *)
  json_Marshal : gmap string any → string + string;
  (** [json.Unmarshal] of a response body into a [Response] *)
  json_Unmarshal : string → Response + string;
  (** the checks of [http.NewRequest] on method and URL *)
  http_NewRequest_err : string → string → error
}.

(** [http.NewRequest]: a request with an empty, non-nil header. *)
Definition http_NewRequest (P : Params) (method url : string)
    (body : option string) : Request + string :=
  match http_NewRequest_err P method url with
  | Some e => inr e
  | None => inl {| Method := method; URL := url; Body := body; Hdr := ∅ |}
  end.

(** What [Client.Do] followed by [ReadAll] on the body can give. *)
Inductive DoResult : Type :=
  | DoErr (e : string)
  | DoReadErr (e : string)
  | DoBody (body : string).

(** Credentials from the secret store. *)
Record AuthInfo : Type := mkAuthInfo {
  auUser : string;
  auPassword : string;
  auScope : string
}.

(** The outside world: the network behind [Client.Do], the transport
    factory, the secret store and the backend-status sink.  Each call
    may depend on and change the state of the world. *)
Record Env : Type := mkEnv {
  World : Type;
  http_Do : HTTP → Request → World → DoResult * World;
  NewHTTPClientByBackendID : string → World → (option HTTP * error) * World;
  GetAuthInfoFromBackendID : string → World → (AuthInfo + string) * World;
  SetStorageBackendContentOnlineStatus :
    string → bool → World → error * World
}.

(** Modelled from the spec: the counting permit [utils.Semaphore], whose
    source is not available.  A permit has a fixed capacity and a number
    of holders; [Acquire] adds a holder (the caller waits while all
    [permits] are taken, which is not represented), [Release] removes
    one. *)
Record Semaphore : Type := mkSemaphore {
  permits : nat;
  inflight : nat
}.

Definition NewSemaphore (n : nat) : Semaphore :=
  {| permits := n; inflight := 0 |}.
Definition sem_acquire (s : Semaphore) : Semaphore :=
  {| permits := permits s; inflight := S (inflight s) |}.
Definition sem_release (s : Semaphore) : Semaphore :=
  {| permits := permits s; inflight := pred (inflight s) |}.

(** How a call ends: it returns, or it panics. *)
Inductive Res (A : Type) : Type :=
  | Done (a : A)
  | Panic (msg : string).
Arguments Done {A} a.
Arguments Panic {A} msg.

(** ** Traces *)

Inductive Event : Type :=
  | EvLock                                 (* ReLoginMutex.Lock granted *)
  | EvUnlock
  | EvAcquire (l : loc)
  | EvRelease (l : loc)
  | EvDo (h : HTTP) (req : Request)        (* Client.Do(req) *)
  | EvNewSemaphore (key : string) (l : loc)
  | EvOffline (backend : string)           (* status sink notified *)
  | EvBaseCall (method url base : string) (out : Res error).
      (* BaseCall(method, url) with cli.Url = base is left with out *)

(** ** The monad of methods *)

(** State of the process that is shared by all clients: the permit
    objects, the registry [RequestSemaphoreMap] from device serial
    number to permit, the world, and the trace. *)
Record Proc (E : Env) : Type := mkProc {
  sems : gmap loc Semaphore;
  next_loc : loc;
  RequestSemaphoreMap : gmap string loc;
  world : World E;
  trace : list Event
}.
Arguments mkProc {E}.
Arguments sems {E}.
Arguments next_loc {E}.
Arguments RequestSemaphoreMap {E}.
Arguments world {E}.
Arguments trace {E}.

Record St (E : Env) (C : Type) : Type := mkSt {
  cli : C;
  proc : Proc E
}.
Arguments mkSt {E C}.
Arguments cli {E C}.
Arguments proc {E C}.

Definition M (E : Env) (C A : Type) : Type := St E C → Res A * St E C.

Section Monad.
Context {E : Env} {C : Type}.

Definition ret {A} (a : A) : M E C A := fun s => (Done a, s).

Definition bind {A B} (m : M E C A) (k : A → M E C B) : M E C B :=
  fun s =>
    match m s with
    | (Done a, s') => k a s'
    | (Panic msg, s') => (Panic msg, s')
    end.

Definition panic {A} (msg : string) : M E C A := fun s => (Panic msg, s).

(** [defer]: [deferred] runs when [body] is left, also by a panic. *)
Definition finally {A} (body : M E C A) (deferred : M E C unit) : M E C A :=
  fun s =>
    let '(r, s1) := body s in
    let '(_, s2) := deferred s1 in
    (r, s2).

Definition getCli : M E C C := fun s => (Done (cli s), s).

Definition modifyCli (f : C → C) : M E C unit :=
  fun s => (Done tt, {| cli := f (cli s); proc := proc s |}).

Definition getProc : M E C (Proc E) := fun s => (Done (proc s), s).

Definition modifyProc (f : Proc E → Proc E) : M E C unit :=
  fun s => (Done tt, {| cli := cli s; proc := f (proc s) |}).

Definition emit (e : Event) : M E C unit :=
  modifyProc (fun p =>
    mkProc (sems p) (next_loc p) (RequestSemaphoreMap p) (world p)
           (trace p ++ [e])).

(** A call to the outside world. *)
Definition external {A} (f : World E → A * World E) : M E C A :=
  fun s =>
    let p := proc s in
    let '(a, w) := f (world p) in
    (Done a,
     {| cli := cli s;
        proc := mkProc (sems p) (next_loc p) (RequestSemaphoreMap p) w
                       (trace p) |}).

Definition update_sems (f : gmap loc Semaphore → gmap loc Semaphore)
    : M E C unit :=
  modifyProc (fun p =>
    mkProc (f (sems p)) (next_loc p) (RequestSemaphoreMap p) (world p)
           (trace p)).
End Monad.

#[global] Instance M_ret {E C} : MRet (M E C) := @ret E C.
#[global] Instance M_bind {E C} : MBind (M E C) :=
  fun A B k m => @bind E C A B m k.

Section Permits.
Context {E : Env} {C : Type}.

(** [s.Acquire()] and [s.Release()] on the permit at address [l]. *)
Definition Acquire (l : loc) : M E C unit :=
  update_sems (alter sem_acquire l);; emit (EvAcquire l).

Definition Release (l : loc) : M E C unit :=
  update_sems (alter sem_release l);; emit (EvRelease l).

(** [RequestSemaphoreMap[key]]; a missing key reads as nil. *)
Definition registry_lookup (key : string) : M E C (option loc) :=
  p ← getProc; ret (RequestSemaphoreMap p !! key).

(** [RequestSemaphoreMap[key] = utils.NewSemaphore(n)] *)
Definition registry_new (key : string) (n : nat) : M E C unit :=
  p ← getProc;
  let l := next_loc p in
  modifyProc (fun p =>
    mkProc (<[l := NewSemaphore n]> (sems p)) (S l)
           (<[key := l]> (RequestSemaphoreMap p)) (world p) (trace p));;
  emit (EvNewSemaphore key l).
End Permits.

(** ** Package base: the rest client's methods *)

Section Base.
Variable P : Params.
Variable E : Env.

Abbreviation Meth := (M E RestClient).

(** [GetRequest] reads the client and has no effect on it. The branch
    [req == nil || req.Header == nil] after a successful
    [http.NewRequest] cannot be taken and is left out. *)
Definition GetRequest (c : RestClient) (method url : string)
    (data : option (gmap string any)) : Request + string :=
  let reqUrl := Url c in
  let reqUrl :=
    if bool_decide (DeviceId c ≠ "") then reqUrl +:+ "/" +:+ DeviceId c
    else reqUrl in
  let reqUrl := reqUrl +:+ url in
  let reqBody : option string + string :=
    match data with
    | Some d =>
        match json_Marshal P d with
        | inl reqBytes => inl (Some reqBytes)
        | inr e => inr e
        end
    | None => inl None
    end in
  match reqBody with
  | inr e => inr e
  | inl reqBody =>
      match http_NewRequest P method reqUrl reqBody with
      | inr e => inr e
      | inl req =>
          let req := Header_Set req "Connection" "keep-alive" in
          let req := Header_Set req "Content-Type" "application/json" in
          let req :=
            if bool_decide (Token c ≠ "")
            then Header_Set req "iBaseToken" (Token c) else req in
          inl req
      end
  end.

(** The login and logout paths. *)
Definition is_session_url (url : string) : bool :=
  negb (bool_decide (url ≠ "/xx/sessions") && bool_decide (url ≠ "/sessions")).

(** The end of [BaseCall], from [cli.Client.Do(req)] on: send, read the
    body, decode. *)
Definition send (h : HTTP) (req : Request) : Meth (Response * error) :=
  emit (EvDo h req);;
  d ← external (http_Do E h req);
  match d with
  | DoErr _ => ret (Response_zero, Some (Unconnected P))
  | DoReadErr e => ret (Response_zero, Some e)
  | DoBody body =>
      match json_Unmarshal P body with
      | inr e => ret (Response_zero, Some e)
      | inl r => ret (r, None)
      end
  end.

Definition BaseCall_body (method url : string)
    (data : option (gmap string any)) : Meth (Response * error) :=
  c ← getCli;
  match Client c with
  | None => ret (Response_zero, Some "http client is nil")
  | Some h =>
      r ← (if is_session_url url then ret (GetRequest c method url data)
           else
             emit EvLock;;
             let r := GetRequest c method url data in
             emit EvUnlock;;
             ret r);
      match r with
      | inr e => ret (Response_zero, Some e)
      | inl req =>
          match RequestSemaphore c with
          | None => ret (Response_zero, Some "request semaphore is nil")
          | Some cs =>
              Acquire cs;;
              finally
                (dev ← registry_lookup (GetDeviceSN c);
                 l ← match dev with
                     | Some l => ret l
                     | None =>
                         d ← registry_lookup (UninitializedStorage P);
                         match d with
                         | Some l => ret l
                         | None => panic "nil pointer dereference"
                         end
                     end;
                 Acquire l;;
                 finally (send h req) (Release l))
                (Release cs)
          end
      end
  end.

(** [BaseCall]; when it is left, the trace records the call, the base
    address [cli.Url] it was made with, and how it ended. *)
Definition BaseCall (method url : string)
    (data : option (gmap string any)) : Meth (Response * error) :=
  fun s =>
    let '(r, s') := BaseCall_body method url data s in
    let out := match r with
               | Done (_, err) => Done err
               | Panic msg => Panic msg
               end in
    let '(_, s'') := emit (EvBaseCall method url (Url (cli s)) out) s' in
    (r, s'').

(** [cli.Urls[i], cli.Urls[len(cli.Urls)-1] =
     cli.Urls[len(cli.Urls)-1], cli.Urls[i]] *)
Definition swap_Urls (i : nat) : Meth unit :=
  c ← getCli;
  let us := Urls c in
  let n := length us - 1 in
  match us !! n, us !! i with
  | Some a, Some b => modifyCli (set_Urls (<[n := b]> (<[i := a]> us)))
  | _, _ => panic "index out of range"
  end.

(** The [for i, url := range cli.Urls] loop of [loginCall], at index
    [i] with [urls] still to visit; [resp], [err] are the variables
    of the enclosing function. *)
Fixpoint loginCall_loop (data : gmap string any) (i : nat)
    (urls : list string) (resp : Response) (err : error)
    : Meth (Response * error) :=
  match urls with
  | [] => ret (resp, err)
  | url :: rest =>
      modifyCli (set_Url (url +:+ "/deviceManager/rest"));;
      '(resp, err) ← BaseCall "POST" "/xx/sessions" (Some data);
      match err with
      | None => swap_Urls i;; ret (resp, err)
      | Some e =>
          if bool_decide (e ≠ Unconnected P) then ret (resp, err)
          else loginCall_loop data (S i) rest resp err
      end
  end.

Definition loginCall (data : gmap string any) : Meth (Response * error) :=
  c ← getCli;
  '(resp, err) ← loginCall_loop data 0 (Urls c) Response_zero None;
  match err with
  | Some e => ret (Response_zero, Some e)
  | None => ret (resp, err)
  end.

Definition getRequestParams (backendID : string)
    : Meth (gmap string any + string) :=
  r ← external (GetAuthInfoFromBackendID E backendID);
  match r with
  | inr e => ret (inr e)
  | inl authInfo =>
      modifyCli (set_User (auUser authInfo));;
      c ← getCli;
      let data : gmap string any :=
        <["username" := Str (auUser authInfo)]>
        (<["password" := Str (auPassword authInfo)]>
        (<["scope" := Str (auScope authInfo)]> ∅)) in
      let data :=
        if (0 <? String.length (VStoreName c))%nat
           && bool_decide (VStoreName c ≠ DefaultVStore P)
        then <["vstorename" := Str (VStoreName c)]> data else data in
      ret (inl data)
  end.

Definition setDataFromRespData (resp : Response) : Meth error :=
  match Data resp with
  | Map respData =>
      let '(v, ok) := GetValue_string P respData "deviceid" in
      modifyCli (set_DeviceId v);;
      if negb ok then ret (Some "convert respData[deviceid] to string failed")
      else
        c ← getCli;
        r ← registry_lookup (DeviceId c);
        match r with
        | None => registry_new (DeviceId c) (MaxStorageThreads P)
        | Some _ => ret tt
        end;;
        let '(v, ok) := GetValue_string P respData "iBaseToken" in
        modifyCli (set_Token v);;
        if negb ok
        then ret (Some "convert respData[iBaseToken] to string failed")
        else
          let '(v, ok) := GetValue_string P respData "vstoreName" in
          modifyCli (set_VStoreName (if ok then v else DefaultVStore P));;
          let '(v, ok) := GetValue_string P respData "vstoreId" in
          modifyCli (set_VStoreID (if ok then v else DefaultVStoreID P));;
          ret None
  | _ => ret (Some "convert resp.Data to map[string]interface{} failed")
  end.

(** [Logout].  The type assertion [resp.Error["code"].(float64)] has no
    comma-ok form: it panics unless the entry is a number.  What
    follows it only logs. *)
Definition Logout : Meth unit :=
  '(resp, err) ← BaseCall "DELETE" "/sessions" None;
  match err with
  | Some _ => ret tt
  | None =>
      match Error resp !! "code" with
      | Some (Float64 f) =>
          let code := int64_of_float64 f in
          if bool_decide (code ≠ 0%Z) then ret tt else ret tt
      | _ => panic "interface conversion: interface {} is not float64"
      end
  end.

Definition is_lockout_code (code : Z) : bool :=
  bool_decide (code ∈ WrongPasswordErrorCodes P)
  || bool_decide (code ∈ AccountBeenLocked P)
  || bool_decide (code = IPLockErrorCode P).

(** [pkgUtils.SetStorageBackendContentOnlineStatus(ctx, id, false)] *)
Definition setOffline (backendID : string) : Meth error :=
  emit (EvOffline backendID);;
  external (SetStorageBackendContentOnlineStatus E backendID false).

Definition Login : Meth error :=
  c ← getCli;
  '(h, err) ← external (NewHTTPClientByBackendID E (BackendID c));
  modifyCli (set_Client h);;
  match err with
  | Some e =>
      ret (Some ("new http client by backend " +:+ BackendID c
                 +:+ " failed, err is " +:+ e))
  | None =>
      r ← getRequestParams (BackendID c);
      match r with
      | inr e =>
          ret (Some ("get reuqest failed while login, error : " +:+ e))
      | inl data =>
          modifyCli (fun c => set_Token "" (set_DeviceId "" c));;
          '(resp, err) ← loginCall data;
          match err with
          | Some e =>
              ret (Some ("request storage failed while login, error : "
                         +:+ e))
          | None =>
              let '(code, _, _) := FormatRespErr P (Error resp) in
              if bool_decide (code ≠ 0%Z) then
                c ← getCli;
                let msg := "login " +:+ Url c +:+ " error" in
                msg ← (if is_lockout_code code then
                         e ← setOffline (BackendID c);
                         match e with
                         | Some e =>
                             ret (msg +:+ " setStorageBackendContentOffline ["
                                  +:+ BackendID c +:+ "] failed, error: "
                                  +:+ e)
                         | None => ret msg
                         end
                       else ret msg);
                ret (Some msg)
              else
                err ← setDataFromRespData resp;
                match err with
                | Some e =>
                    Logout;;
                    c ← getCli;
                    setOffline (BackendID c);;
                    ret (Some e)
                | None => ret None
                end
          end
      end
  end.

(** [ReLogin] from the point where [ReLoginMutex.Lock()] is granted;
    [oldToken] is the token read on entry, before the lock (another
    caller may have changed the client in between). *)
Definition ReLogin_locked (oldToken : string) : Meth error :=
  emit EvLock;;
  finally
    (c ← getCli;
     if bool_decide (Token c ≠ "") && bool_decide (oldToken ≠ Token c)
     then ret None
     else
       (if bool_decide (Token c ≠ "") then Logout else ret tt);;
       err ← Login;
       match err with
       | Some e => ret (Some e)
       | None => ret None
       end)
    (emit EvUnlock).

(** [ReLogin] when no other caller runs between entry and lock. *)
Definition ReLogin : Meth error :=
  c ← getCli;
  ReLogin_locked (Token c).

End Base.

(** ** A sample instantiation

    Concrete parameters and a concrete world, used to run the methods on
    inputs.  The constants and helpers below are stand-ins of the right
    type for the declarations that are not in the sources; bodies of
    replies are symbolic names that the sample decoder maps to
    envelopes. *)
Module Sample.

Definition code_of (m : gmap string any) : Z * string * error :=
  match m !! "code" with
  | Some (Float64 f) =>
      (int64_of_float64 f,
       match m !! "description" with Some (Str d) => d | _ => "" end,
       None)
  | _ => (0%Z, "", Some "convert code to float64 failed")
  end.

Definition get_string (m : gmap string any) (key : string) : string * bool :=
  match m !! key with
  | Some (Str v) => (v, true)
  | _ => ("", false)
  end.

(** Envelope with business code [code] and payload [data]. *)
Definition envelope (code : Z) (data : any) : Response :=
  {| Error := <["code" := Float64 (inject_Z code)]>
              (<["description" := Str ""]> ∅);
     Data := data |}.

Definition session (sn token : string) : any :=
  Map (<["deviceid" := Str sn]> (<["iBaseToken" := Str token]> ∅)).

Definition decode (body : string) : Response + string :=
  if bool_decide (body = "login-ok") then inl (envelope 0 (session "SN1" "T1"))
  else if bool_decide (body = "login-ok-empty-token")
       then inl (envelope 0 (session "SN1" ""))
  else if bool_decide (body = "wrong-password")
       then inl (envelope 1077949061 Nil)
  else if bool_decide (body = "ok") then inl (envelope 0 (Map ∅))
  else if bool_decide (body = "expired") then inl (envelope (-401) Nil)
  else if bool_decide (body = "empty-object")
       then inl {| Error := ∅; Data := Nil |}
  else inr "invalid character".

Definition params : Params :=
  {| Unconnected := "unconnected";
     UninitializedStorage := "UninitializedStorage";
     MaxStorageThreads := 100;
     DefaultVStore := "System_vStore";
     DefaultVStoreID := "0";
     WrongPasswordErrorCodes := [1077987870; 1077949081; 1077949061]%Z;
     AccountBeenLocked := [1077949070; 1077987871]%Z;
     IPLockErrorCode := 1077949071%Z;
     NeedReLogin := fun r err =>
       bool_decide (err = Some "unconnected")
       || bool_decide ((code_of (Error r)).1.1 = (-401)%Z);
     FormatRespErr := code_of;
     GetValue_string := get_string;
     json_Marshal := fun _ => inl "{...}";
     json_Unmarshal := decode;
     http_NewRequest_err := fun _ _ => None |}.

(** The world is a routing table from request URL to what the exchange
    gives; a URL that is not in the table cannot be reached. *)
Definition route (table : list (string * DoResult)) (url : string)
    : DoResult :=
  default (DoErr "connection refused") (list_to_map (M := gmap string DoResult) table !! url).

Definition env : Env :=
  {| World := list (string * DoResult);
     http_Do := fun _ req w => (route w (URL req), w);
     NewHTTPClientByBackendID := fun _ w => ((Some 1, None), w);
     GetAuthInfoFromBackendID := fun _ w =>
       (inl {| auUser := "admin"; auPassword := "secret"; auScope := "0" |},
        w);
     SetStorageBackendContentOnlineStatus := fun _ _ w => (None, w) |}.

(** A client as [NewRestClient] leaves it, with its own permit at
    address 0. *)
Definition client (urls : list string) : RestClient :=
  {| Client := Some 1; Url := ""; Urls := urls;
     VStoreID := ""; VStoreName := ""; User := "admin";
     SecretNamespace := "ns"; SecretName := "secret";
     StorageVersion := ""; BackendID := "backend"; Storage := "oceanstor-san";
     DeviceId := ""; Token := "";
     SystemInfoRefreshing := 0%N; RequestSemaphore := Some 0 |}.

(** The process at start: the client's permit at 0, the default bucket
    at 1. *)
Definition start (w : World env) : Proc env :=
  {| sems := <[0 := NewSemaphore 30]> (<[1 := NewSemaphore 100]> ∅);
     next_loc := 2;
     RequestSemaphoreMap := <["UninitializedStorage" := 1]> ∅;
     world := w;
     trace := [] |}.

Definition login_url (u : string) : string :=
  u +:+ "/deviceManager/rest/xx/sessions".

End Sample.

(** ** Reading traces *)

(** The calls of [BaseCall] in a trace, in the order they were left. *)
Definition basecalls (t : list Event)
    : list (string * string * string * Res error) :=
  omap (fun e => match e with
                 | EvBaseCall m u b out => Some (m, u, b, out)
                 | _ => None
                 end) t.

(** The requests handed to [Client.Do]. *)
Definition requests (t : list Event) : list Request :=
  omap (fun e => match e with EvDo _ req => Some req | _ => None end) t.

(** The permits created, with their registry keys. *)
Definition created (t : list Event) : list (string * loc) :=
  omap (fun e => match e with
                 | EvNewSemaphore k l => Some (k, l)
                 | _ => None
                 end) t.

(** Permit traffic: [(true, l)] for an acquire of [l], [(false, l)] for a
    release. *)
Definition permit_ops (t : list Event) : list (bool * loc) :=
  omap (fun e => match e with
                 | EvAcquire l => Some (true, l)
                 | EvRelease l => Some (false, l)
                 | _ => None
                 end) t.

Lemma basecalls_app t1 t2 : basecalls (t1 ++ t2) = basecalls t1 ++ basecalls t2.
Proof. apply omap_app. Qed.

Lemma requests_app t1 t2 : requests (t1 ++ t2) = requests t1 ++ requests t2.
Proof. apply omap_app. Qed.

Lemma created_app t1 t2 : created (t1 ++ t2) = created t1 ++ created t2.
Proof. apply omap_app. Qed.

(** ** Permits are handed back *)

Lemma sem_release_acquire (x : Semaphore) : sem_release (sem_acquire x) = x.
Proof. by destruct x. Qed.

Lemma alter_release_acquire (l : loc) (m : gmap loc Semaphore) :
  alter sem_release l (alter sem_acquire l m) = m.
Proof.
  rewrite alter_alter_eq. apply alter_id.
  intros x _. apply sem_release_acquire.
Qed.

(** Unfolding of the monad's operations, to run a method on a state. *)
Create HintDb run discriminated.
#[global] Hint Unfold mbind M_bind bind mret M_ret ret panic finally
  getCli modifyCli getProc modifyProc emit external update_sems
  Acquire Release registry_lookup registry_new : run.

Arguments GetRequest : simpl never.
Arguments BaseCall : simpl never.
Arguments loginCall : simpl never.
Arguments setDataFromRespData : simpl never.
Arguments Logout : simpl never.
Arguments Login : simpl never.

Ltac run := repeat (progress (autounfold with run in *; cbn in *)).

(** How a result is recorded in the trace. *)
Definition outcome {A} (r : Res (A * error)) : Res error :=
  match r with
  | Done (_, err) => Done err
  | Panic msg => Panic msg
  end.

Section BaseFacts.
Variable P : Params.
Variable E : Env.

Abbreviation Meth := (M E RestClient).

(** [m] run from [s] leaves the client record, the permits and the
    registry as they were, and adds [t] to the trace. *)
Definition steady {A} (m : Meth A) (s : St E RestClient)
    (t : list Event) : Prop :=
  let s' := (m s).2 in
  cli s' = cli s
  ∧ sems (proc s') = sems (proc s)
  ∧ next_loc (proc s') = next_loc (proc s)
  ∧ RequestSemaphoreMap (proc s') = RequestSemaphoreMap (proc s)
  ∧ trace (proc s') = trace (proc s) ++ t.

Lemma send_steady h req s :
  steady (send P E h req) s [EvDo h req].
Proof.
  unfold steady, send. run.
  destruct (http_Do E h req (world (proc s))) as [d w]; run.
  destruct d as [e|e|body]; run; try done.
  by destruct (json_Unmarshal P body).
Qed.

Lemma BaseCall_body_steady method url data s :
  ∃ t, steady (BaseCall_body P E method url data) s t
       ∧ basecalls t = [] ∧ created t = []
       ∧ Forall (fun req => GetRequest P (cli s) method url data = inl req)
                (requests t).
Proof.
  unfold steady, BaseCall_body, send. run.
  destruct (Client (cli s)) as [h|]; run;
    [| exists []; by rewrite app_nil_r].
  destruct (is_session_url url); run;
    (destruct (GetRequest P (cli s) method url data) as [req|e]; run;
      [| eexists; rewrite <- ?app_assoc; repeat split; try done;
         by rewrite ?app_nil_r]);
    (destruct (RequestSemaphore (cli s)) as [cs|]; run;
      [| eexists; rewrite <- ?app_assoc; repeat split; try done;
         by rewrite ?app_nil_r]);
    (destruct (RequestSemaphoreMap (proc s) !! GetDeviceSN (cli s)) as [l|];
      run;
      [| destruct (RequestSemaphoreMap (proc s) !! UninitializedStorage P)
           as [l|]; run]);
    try (destruct (http_Do E h req (world (proc s))) as [d w]; run;
         destruct d as [e|e|body]; run;
         [| | destruct (json_Unmarshal P body); run]);
    rewrite ?alter_release_acquire, <- ?app_assoc;
    eexists; repeat split; try done; cbn; by repeat constructor.
Qed.

Lemma BaseCall_steady method url data s :
  ∃ t, steady (BaseCall P E method url data) s
         (t ++ [EvBaseCall method url (Url (cli s))
                  (outcome (BaseCall P E method url data s).1)])
       ∧ basecalls t = [] ∧ created t = []
       ∧ Forall (fun req => GetRequest P (cli s) method url data = inl req)
                (requests t).
Proof.
  destruct (BaseCall_body_steady method url data s)
    as (t & (Hc & Hs & Hn & Hr & Ht) & Hb & Hk & Hq).
  exists t. unfold steady, BaseCall in *.
  destruct (BaseCall_body P E method url data s) as [r s1]; run.
  rewrite Hc, Hs, Hn, Hr, Ht, app_assoc.
  by destruct r as [[? ?]|].
Qed.

(** *** The address loop *)

(** The list after [l[i], l[len(l)-1] = l[len(l)-1], l[i]]. *)
Definition swap_last (i : nat) (l : list string) : list string :=
  match l !! (length l - 1), l !! i with
  | Some a, Some b => <[length l - 1 := b]> (<[i := a]> l)
  | _, _ => l
  end.

Lemma swap_Urls_run i s :
  i < length (Urls (cli s)) →
  swap_Urls E i s
  = (Done tt, {| cli := set_Urls (swap_last i (Urls (cli s))) (cli s);
                 proc := proc s |}).
Proof.
  intros Hi. unfold swap_Urls, swap_last. run.
  destruct (lookup_lt_is_Some_2 (Urls (cli s)) (length (Urls (cli s)) - 1))
    as [a ->]; [lia|].
  by destruct (lookup_lt_is_Some_2 (Urls (cli s)) i) as [b ->].
Qed.

(** How the loop over the addresses is left, after the attempts that
    failed to connect. *)
Inductive LoopEnd : Type :=
  | Exhausted                (* no address is left *)
  | Answered                 (* BaseCall returned a response, err == nil *)
  | Refused (e : string)     (* an error other than Unconnected *)
  | Crashed (msg : string).  (* BaseCall panicked *)

Definition last_out (e : LoopEnd) : list (Res error) :=
  match e with
  | Exhausted => []
  | Answered => [Done None]
  | Refused e => [Done (Some e)]
  | Crashed msg => [Panic msg]
  end.

(** The login call to the address [u]. *)
Definition attempt_of (u : string) (out : Res error)
    : string * string * string * Res error :=
  ("POST", "/xx/sessions", u +:+ "/deviceManager/rest", out).

(** [k] connectivity failures, then [e]. *)
Definition outs_of (k : nat) (e : LoopEnd) : list (Res error) :=
  replicate k (Done (Some (Unconnected P))) ++ last_out e.

(** The course of the loop: what it adds to the trace, what it leaves
    in the client, what it returns. *)
Definition loop_course (data : gmap string any) (i : nat)
    (urls : list string) (resp : Response) (err : error)
    (s : St E RestClient) (r : Res (Response * error))
    (s' : St E RestClient) (t : list Event) (k : nat) (e : LoopEnd) : Prop :=
  trace (proc s') = trace (proc s) ++ t
  ∧ basecalls t = zip_with attempt_of urls (outs_of k e)
  ∧ created t = []
  ∧ Forall (fun req => ∃ b, GetRequest P (set_Url b (cli s)) "POST"
                              "/xx/sessions" (Some data) = inl req)
           (requests t)
  ∧ sems (proc s') = sems (proc s)
  ∧ next_loc (proc s') = next_loc (proc s)
  ∧ RequestSemaphoreMap (proc s') = RequestSemaphoreMap (proc s)
  ∧ match e with
    | Exhausted =>
        k = length urls
        ∧ cli s' = set_Url (Url (cli s')) (cli s)
        ∧ ∃ resp' err', r = Done (resp', err')
            ∧ (k = 0 → resp' = resp ∧ err' = err)
            ∧ (0 < k → err' = Some (Unconnected P))
    | Answered =>
        k < length urls
        ∧ cli s' = set_Urls (swap_last (i + k) (Urls (cli s)))
                     (set_Url (Url (cli s')) (cli s))
        ∧ ∃ resp', r = Done (resp', None)
    | Refused x =>
        k < length urls ∧ x ≠ Unconnected P
        ∧ cli s' = set_Url (Url (cli s')) (cli s)
        ∧ ∃ resp', r = Done (resp', Some x)
    | Crashed msg =>
        k < length urls
        ∧ cli s' = set_Url (Url (cli s')) (cli s)
        ∧ r = Panic msg
    end.

Lemma set_Url_same c : set_Url (Url c) c = c.
Proof. by destruct c. Qed.

Lemma set_Url_set_Url a b c : set_Url a (set_Url b c) = set_Url a c.
Proof. done. Qed.

Lemma loginCall_loop_course data urls :
  ∀ i resp err s r s',
    drop i (Urls (cli s)) = urls →
    loginCall_loop P E data i urls resp err s = (r, s') →
    ∃ t k e, loop_course data i urls resp err s r s' t k e.
Proof.
  induction urls as [|url rest IH]; intros i resp err s r s' Hdrop Hrun.
  - cbn in Hrun. unfold ret in Hrun. injection Hrun as <- <-.
    exists [], 0, Exhausted. unfold loop_course.
    rewrite app_nil_r, set_Url_same. repeat split; try done.
    exists resp, err. repeat split; try done; lia.
  - cbn in Hrun. run.
    set (s1 := {| cli := set_Url (url +:+ "/deviceManager/rest") (cli s);
                  proc := proc s |}) in *.
    destruct (BaseCall_steady "POST" "/xx/sessions" (Some data) s1)
      as (t1 & (Hc & Hs & Hn & Hr & Ht) & Hb & Hk & Hq).
    assert (Hlen : i < length (Urls (cli s))).
    { apply lookup_lt_is_Some. rewrite <- (Nat.add_0_r i), <- lookup_drop, Hdrop.
      by eexists. }
    assert (Hq' : Forall (fun req => ∃ b, GetRequest P (set_Url b (cli s))
                     "POST" "/xx/sessions" (Some data) = inl req)
                    (requests t1)).
    { eapply Forall_impl; [exact Hq|]. intros req Hreq. eexists. exact Hreq. }
    destruct (BaseCall P E "POST" "/xx/sessions" (Some data) s1)
      as [[[resp1 err1]|msg] s2] eqn:HB; cbn in *.
    + destruct err1 as [x|].
      * destruct (bool_decide (x ≠ Unconnected P)) eqn:Hx.
        -- injection Hrun as <- <-.
           apply bool_decide_eq_true in Hx.
           exists (t1 ++ [EvBaseCall "POST" "/xx/sessions"
                            (url +:+ "/deviceManager/rest") (Done (Some x))]),
                  0, (Refused x).
           unfold loop_course, outs_of. cbn.
           rewrite basecalls_app, created_app, requests_app, Hb, Hk.
           rewrite Hc, zip_with_nil_r, !app_nil_r. cbn.
           repeat split; try done; try lia; eauto.
        -- apply bool_decide_eq_false in Hx. apply dec_stable in Hx. subst x.
           assert (Hdrop' : drop (S i) (Urls (cli s2)) = rest).
           { rewrite Hc. cbn. change (S i) with (1 + i).
             by rewrite Nat.add_comm, <- drop_drop, Hdrop. }
           destruct (IH _ _ _ _ _ _ Hdrop' Hrun)
             as (t2 & k & e & Ht2 & Hb2 & Hk2 & Hq2 & Hs2 & Hn2 & Hr2 & He).
           exists ((t1 ++ [EvBaseCall "POST" "/xx/sessions"
                            (url +:+ "/deviceManager/rest")
                            (Done (Some (Unconnected P)))]) ++ t2),
                  (S k), e.
           unfold loop_course, outs_of in *. cbn.
           rewrite !basecalls_app, !created_app, !requests_app, Hb, Hk, Hb2, Hk2.
           rewrite Ht2, Ht, Hs2, Hs, Hn2, Hn, Hr2, Hr, !app_assoc. cbn.
           rewrite !app_nil_r.
           repeat split; try done.
           ++ apply Forall_app. split; [done|].
              eapply Forall_impl; [exact Hq2|]. intros req [b Hreq].
              exists b. by rewrite Hc in Hreq.
           ++ rewrite Hc in He. cbn in He.
              destruct e; cbn in *;
                [ destruct He as (-> & Hcli & resp' & err' & -> & _ & He)
                | destruct He as (Hlt & Hcli & resp' & ->)
                | destruct He as (Hlt & Hne & Hcli & resp' & ->)
                | destruct He as (Hlt & Hcli & ->) ].
              ** repeat split; try done. exists resp', err'.
                 repeat split; try done; try lia. intros _.
                 destruct rest as [|u' rest']; [|apply He; cbn; lia].
                 cbn in Hrun. unfold ret in Hrun. by injection Hrun as _ <- _.
              ** repeat split; try lia; eauto.
                 by rewrite Hcli, <- Nat.add_succ_comm.
              ** repeat split; try lia; eauto.
              ** repeat split; try lia; done.
      * exists (t1 ++ [EvBaseCall "POST" "/xx/sessions"
                         (url +:+ "/deviceManager/rest") (Done None)]),
               0, Answered.
        rewrite swap_Urls_run in Hrun by (by rewrite Hc).
        cbn in Hrun. injection Hrun as <- <-.
        unfold loop_course, outs_of. cbn.
        rewrite basecalls_app, created_app, requests_app, Hb, Hk.
        rewrite Hc, zip_with_nil_r, !app_nil_r, Nat.add_0_r. cbn.
        repeat split; try done; try lia; eauto.
    + injection Hrun as <- <-.
      exists (t1 ++ [EvBaseCall "POST" "/xx/sessions"
                       (url +:+ "/deviceManager/rest") (Panic msg)]),
             0, (Crashed msg).
      unfold loop_course, outs_of. cbn.
      rewrite basecalls_app, created_app, requests_app, Hb, Hk.
      rewrite Hc, zip_with_nil_r, !app_nil_r. cbn.
      repeat split; try done; lia.
Qed.

Lemma loginCall_course data s r s' :
  loginCall P E data s = (r, s') →
  ∃ t k e,
    loop_course data 0 (Urls (cli s)) Response_zero None s r s' t k e.
Proof.
  unfold loginCall. run. intros Hrun.
  destruct (loginCall_loop P E data 0 (Urls (cli s)) Response_zero None s)
    as [r1 s1] eqn:Hloop.
  destruct (loginCall_loop_course data (Urls (cli s)) 0 _ _ s r1 s1 eq_refl Hloop)
    as (t & k & e & Ht & Hb & Hk & Hq & Hs & Hn & Hr & He).
  exists t, k, e. unfold loop_course.
  destruct r1 as [[resp1 [x|]]|msg]; cbn in Hrun; injection Hrun as <- <-;
    repeat split; try done.
  all: destruct e; cbn in *.
  all: repeat match goal with
       | H : _ ∧ _ |- _ => destruct H
       | H : ∃ _, _ |- _ => destruct H
       end; try discriminate;
       repeat match goal with
       | H : Done _ = Done _ |- _ => injection H as ? ?
       end; subst; repeat split; try done; eauto.
  eexists _, _. split; [done|]. split; [|done].
  intros Hz. match goal with H : _ → _ ∧ _ |- _ => by destruct (H Hz) end.
Qed.

(** *** Registration of a device permit *)

(** Nothing about the permits has changed. *)
Definition permits_same (p p' : Proc E) : Prop :=
  RequestSemaphoreMap p' = RequestSemaphoreMap p
  ∧ sems p' = sems p
  ∧ next_loc p' = next_loc p.

(** A new permit of capacity [MaxStorageThreads] was registered under
    the key [sn], which had none; nothing else has changed. *)
Definition registered (sn : string) (p p' : Proc E) : Prop :=
  RequestSemaphoreMap p !! sn = None
  ∧ RequestSemaphoreMap p' = <[sn := next_loc p]> (RequestSemaphoreMap p)
  ∧ sems p'
    = <[next_loc p := NewSemaphore (MaxStorageThreads P)]> (sems p)
  ∧ next_loc p' = S (next_loc p).

(** What a method that adds [t] to the trace did to the permits. *)
Definition grows (p p' : Proc E) (t : list Event) : Prop :=
  (permits_same p p' ∧ created t = [])
  ∨ (∃ sn, registered sn p p' ∧ created t = [(sn, next_loc p)]).

Lemma setDataFromRespData_course resp s r s' :
  setDataFromRespData P E resp s = (r, s') →
  ∃ err t,
    r = Done err
    ∧ trace (proc s') = trace (proc s) ++ t
    ∧ basecalls t = [] ∧ requests t = []
    ∧ Urls (cli s') = Urls (cli s)
    ∧ Url (cli s') = Url (cli s)
    ∧ grows (proc s) (proc s') t
    ∧ (err = None →
       ∃ respData,
         Data resp = Map respData
         ∧ DeviceId (cli s') = (GetValue_string P respData "deviceid").1
         ∧ Token (cli s') = (GetValue_string P respData "iBaseToken").1
         ∧ match RequestSemaphoreMap (proc s) !! DeviceId (cli s') with
           | Some _ => permits_same (proc s) (proc s') ∧ created t = []
           | None =>
               registered (DeviceId (cli s')) (proc s) (proc s')
               ∧ created t = [(DeviceId (cli s'), next_loc (proc s))]
           end).
Proof.
  unfold setDataFromRespData, grows, permits_same, registered. intros Hrun.
  destruct (Data resp) as [| | | |respData|] eqn:HD;
    try (injection Hrun as <- <-; eexists _, [];
         rewrite app_nil_r; repeat split; try done; auto).
  destruct (GetValue_string P respData "deviceid") as [sn ok1] eqn:H1.
  run. destruct ok1; run;
    [| injection Hrun as <- <-; eexists _, [];
       rewrite app_nil_r; repeat split; try done; auto ].
  destruct (GetValue_string P respData "iBaseToken") as [tok ok2] eqn:H2.
  destruct (GetValue_string P respData "vstoreName") as [vn ok3] eqn:H3.
  destruct (GetValue_string P respData "vstoreId") as [vi ok4] eqn:H4.
  destruct (RequestSemaphoreMap (proc s) !! sn) as [l|] eqn:Hreg; run;
    destruct ok2; run; injection Hrun as <- <-; cbn.
  - eexists _, []. rewrite app_nil_r. rewrite Hreg.
    repeat split; try done; auto. intros _. exists respData.
    by rewrite H1, H2.
  - eexists _, []. rewrite app_nil_r. repeat split; try done; auto.
  - eexists _, [EvNewSemaphore sn (next_loc (proc s))]. rewrite Hreg.
    repeat split; try done.
    + right. by exists sn.
    + intros _. exists respData. by rewrite H1, H2.
  - eexists _, [EvNewSemaphore sn (next_loc (proc s))].
    repeat split; try done. right. by exists sn.
Qed.

Lemma Logout_steady s :
  ∃ t out,
    steady (Logout P E) s
      (t ++ [EvBaseCall "DELETE" "/sessions" (Url (cli s)) out])
    ∧ basecalls t = [] ∧ created t = []
    ∧ Forall (fun req => GetRequest P (cli s) "DELETE" "/sessions" None
                         = inl req) (requests t).
Proof.
  destruct (BaseCall_steady "DELETE" "/sessions" None s)
    as (t & Hst & Hb & Hk & Hq).
  exists t, (outcome (BaseCall P E "DELETE" "/sessions" None s).1).
  repeat split; try done.
  all: destruct Hst as (Hc & Hs & Hn & Hr & Ht).
  all: unfold Logout; run.
  all: destruct (BaseCall P E "DELETE" "/sessions" None s)
         as [[[resp err]|msg] s1]; cbn in *; try done.
  all: destruct err; cbn; try done.
  all: destruct (Error resp !! "code") as [[]|]; cbn; try done.
  all: by destruct (bool_decide _).
Qed.

(** *** Login *)

(** What holds after a [Login] that returned nil, for the reply [resp]
    it got. *)
Definition established (s s' : St E RestClient) (t2 : list Event) : Prop :=
  ∃ resp respData,
    (FormatRespErr P (Error resp)).1.1 = 0%Z
    ∧ Data resp = Map respData
    ∧ DeviceId (cli s') = (GetValue_string P respData "deviceid").1
    ∧ Token (cli s') = (GetValue_string P respData "iBaseToken").1
    ∧ basecalls t2 = [] ∧ requests t2 = []
    ∧ match RequestSemaphoreMap (proc s) !! DeviceId (cli s') with
      | Some _ => permits_same (proc s) (proc s') ∧ created t2 = []
      | None =>
          registered (DeviceId (cli s')) (proc s) (proc s')
          ∧ created t2 = [(DeviceId (cli s'), next_loc (proc s))]
      end.

(** The course of [Login]: [t1] is the trace of the address loop, [t2]
    of what follows it; [path] is [None] when [Login] returns before the
    loop, else the number of connectivity failures and how the loop was
    left. *)
Definition login_course (s : St E RestClient) (r : Res error)
    (s' : St E RestClient) (t1 t2 : list Event)
    (path : option (nat * LoopEnd)) : Prop :=
  trace (proc s') = trace (proc s) ++ t1 ++ t2
  ∧ grows (proc s) (proc s') (t1 ++ t2)
  ∧ created t1 = []
  ∧ Forall (fun req => ∃ c m u d, Token c = ""
                        ∧ GetRequest P c m u d = inl req) (requests t1)
  ∧ Forall (fun c => c.1.1.2 ≠ "/xx/sessions") (basecalls t2)
  ∧ match path with
    | None =>
        t1 = [] ∧ t2 = [] ∧ Urls (cli s') = Urls (cli s)
        ∧ ∃ x, r = Done (Some x)
    | Some (k, e) =>
        basecalls t1 = zip_with attempt_of (Urls (cli s)) (outs_of k e)
        ∧ match e with
          | Exhausted =>
              k = length (Urls (cli s))
              ∧ Urls (cli s') = Urls (cli s)
              ∧ r ≠ Done None
              ∧ (0 < k → t2 = [] ∧ ∃ x, r = Done (Some x))
          | Answered =>
              k < length (Urls (cli s))
              ∧ Urls (cli s') = swap_last k (Urls (cli s))
              ∧ (r = Done None → established s s' t2)
          | Refused x =>
              k < length (Urls (cli s)) ∧ x ≠ Unconnected P
              ∧ Urls (cli s') = Urls (cli s)
              ∧ t2 = [] ∧ ∃ y, r = Done (Some y)
          | Crashed msg =>
              k < length (Urls (cli s))
              ∧ Urls (cli s') = Urls (cli s)
              ∧ t2 = [] ∧ r = Panic msg
          end
    end.

(** The error with which [Login] returns before it tries any address:
    the transport could not be made, or the credentials could not be
    read.  [None] when [Login] gets to [loginCall]. *)
Definition Login_early_return (s : St E RestClient) : option string :=
  let c := cli s in
  let new := NewHTTPClientByBackendID E (BackendID c) (world (proc s)) in
  match new.1.2 with
  | Some e =>
      Some ("new http client by backend " +:+ BackendID c
            +:+ " failed, err is " +:+ e)
  | None =>
      match (GetAuthInfoFromBackendID E (BackendID c) new.2).1 with
      | inr e => Some ("get reuqest failed while login, error : " +:+ e)
      | inl _ => None
      end
  end.

(** [Login] takes the path before the loop exactly when one of the two
    calls before it fails. *)
Definition early_path (s : St E RestClient) (r : Res error)
    (path : option (nat * LoopEnd)) : Prop :=
  match Login_early_return s with
  | Some x => path = None ∧ r = Done (Some x)
  | None => path ≠ None
  end.

Lemma Login_course_path s r s' :
  Login P E s = (r, s') →
  ∃ t1 t2 path, login_course s r s' t1 t2 path ∧ early_path s r path.
Proof.
  unfold Login. run. intros Hrun.
  destruct (NewHTTPClientByBackendID E (BackendID (cli s)) (world (proc s)))
    as [[h err0] w0] eqn:Hnew; run.
  destruct err0 as [x0|]; run.
  { injection Hrun as <- <-. exists [], [], None.
    split; [|unfold early_path, Login_early_return; by rewrite Hnew].
    unfold login_course, grows, permits_same. cbn. rewrite app_nil_r.
    repeat split; eauto. }
  unfold getRequestParams in Hrun. run.
  destruct (GetAuthInfoFromBackendID E (BackendID (cli s)) w0)
    as [[au|x1] w1] eqn:Hau; run.
  2: { injection Hrun as <- <-. exists [], [], None.
       split; [|unfold early_path, Login_early_return;
                rewrite Hnew; cbn; by rewrite Hau].
       unfold login_course, grows, permits_same. cbn. rewrite app_nil_r.
       repeat split; eauto. }
  match type of Hrun with
  | context [loginCall P E ?d ?s0] =>
      set (data := d) in *; set (s0' := s0) in *
  end.
  assert (Hearly : ∀ r k e, early_path s r (Some (k, e))).
  { intros ? ? ?. unfold early_path, Login_early_return.
    rewrite Hnew. cbn. by rewrite Hau. }
  destruct (loginCall P E data s0') as [r1 s1] eqn:Hloop.
  destruct (loginCall_course data s0' r1 s1 Hloop)
    as (t1 & k & e & Ht & Hb & Hk & Hq & Hs & Hn & Hr & He).
  assert (Hq1 : Forall (fun req => ∃ c m u d, Token c = ""
                          ∧ GetRequest P c m u d = inl req) (requests t1)).
  { eapply Forall_impl; [exact Hq|]. intros req [b Hreq].
    eexists _, _, _, _. split; [|exact Hreq]. done. }
  assert (Hu1 : Urls (cli s1) = match e with
                                | Answered => swap_last k (Urls (cli s))
                                | _ => Urls (cli s)
                                end).
  { destruct e; cbn in He; repeat match goal with
      | H : _ ∧ _ |- _ => destruct H end;
    match goal with H : cli s1 = _ |- _ => by rewrite H end. }
  destruct r1 as [[resp [x|]]|msg]; cbn in Hrun.
  - (* the loop ended with an error *)
    injection Hrun as <- <-.
    exists t1, [], (Some (k, e)). split; [|apply Hearly].
    unfold login_course, grows, permits_same.
    rewrite app_nil_r, Ht, Hs, Hn, Hr, Hu1. cbn.
    repeat split; auto.
    destruct e; cbn in He; repeat match goal with
      | H : _ ∧ _ |- _ => destruct H
      | H : ∃ _, _ |- _ => destruct H end; simplify_eq;
      repeat split; eauto.
  - (* the loop ended with a response, or there was no address *)
    assert (Htail : ∃ t2,
      trace (proc s') = trace (proc s1) ++ t2
      ∧ grows (proc s1) (proc s') t2
      ∧ Forall (fun c => c.1.1.2 ≠ "/xx/sessions") (basecalls t2)
      ∧ Urls (cli s') = Urls (cli s1)
      ∧ (r = Done None → established s1 s' t2)
      ∧ (Data resp = Nil → r ≠ Done None)).
    { clear - Hrun. unfold established.
      destruct (FormatRespErr P (Error resp)) as [[code dsc] ferr] eqn:HF.
      destruct (bool_decide (code ≠ 0%Z)) eqn:Hcode.
      - apply bool_decide_eq_true in Hcode.
        destruct (is_lockout_code P code); unfold setOffline in Hrun; run.
        + destruct (SetStorageBackendContentOnlineStatus E
                      (BackendID (cli s1)) false (world (proc s1)))
            as [[eo|] w2]; run; injection Hrun as <- <-;
            exists [EvOffline (BackendID (cli s1))];
            unfold grows, permits_same; cbn; repeat split; auto; done.
        + injection Hrun as <- <-. exists [].
          unfold grows, permits_same; rewrite app_nil_r; cbn;
            repeat split; auto; done.
      - apply bool_decide_eq_false in Hcode. apply dec_stable in Hcode.
        destruct (setDataFromRespData P E resp s1) as [r2 s2] eqn:Hset.
        destruct (setDataFromRespData_course resp s1 r2 s2 Hset)
          as (err2 & t3 & -> & Ht3 & Hb3 & Hq3 & Hu3 & Hurl3 & Hg3 & Hok).
        destruct err2 as [x|]; cbn in Hrun.
        + destruct (Logout_steady s2)
            as (tL & out & (Hc & Hs & Hn & Hr & Ht) & HbL & HkL & HqL).
          destruct (Logout P E s2) as [[[]|msg] s3]; cbn in *.
          * unfold setOffline in Hrun. run.
            destruct (SetStorageBackendContentOnlineStatus E
                        (BackendID (cli s3)) false (world (proc s3)))
              as [eo w2]; run. injection Hrun as <- <-.
            exists (t3 ++ (tL ++ [EvBaseCall "DELETE" "/sessions"
                                    (Url (cli s2)) out])
                       ++ [EvOffline (BackendID (cli s3))]).
            cbn. rewrite Ht, Ht3, Hc, Hu3, !basecalls_app, Hb3, HbL.
            rewrite <- !app_assoc. cbn.
            repeat split; auto; try done; try (by repeat constructor).
            destruct Hg3 as [[(Ha & Hb & Hd) Hcr]|(sn & (Ha & Hb & Hd & Hf) & Hcr)];
              [left|right; exists sn]; unfold permits_same, registered; cbn;
              rewrite !created_app, Hcr, HkL, ?Hr, ?Hs, ?Hn; cbn; done.
          * injection Hrun as <- <-.
            exists (t3 ++ tL ++ [EvBaseCall "DELETE" "/sessions"
                                   (Url (cli s2)) out]).
            rewrite Ht, Ht3, Hc, Hu3, !basecalls_app, Hb3, HbL.
            rewrite <- !app_assoc. cbn.
            repeat split; auto; try done; try (by repeat constructor).
            destruct Hg3 as [[(Ha & Hb & Hd) Hcr]|(sn & (Ha & Hb & Hd & Hf) & Hcr)];
              [left|right; exists sn]; unfold permits_same, registered; cbn;
              rewrite !created_app, Hcr, HkL, ?Hr, ?Hs, ?Hn; cbn; done.
        + injection Hrun as <- <-. exists t3. rewrite Hb3.
          repeat split; auto.
          * intros _. destruct (Hok eq_refl) as (respData & HD & Hdev & Htok & Hm).
            exists resp, respData. by rewrite HF.
          * intros HD. destruct (Hok eq_refl) as (respData & HD' & _).
            congruence. }
    destruct Htail as (t2 & Ht2 & Hg2 & Hb2 & Hu2 & Hest & Hnil).
    exists t1, t2, (Some (k, e)). split; [|apply Hearly].
    unfold login_course.
    rewrite Ht2, Ht, Hu2, Hu1, app_assoc. cbn.
    assert (Hgrow : grows (proc s) (proc s') (t1 ++ t2)).
    { unfold grows, permits_same, registered in *.
      rewrite created_app, Hk. cbn.
      rewrite Hs, Hn, Hr in Hg2. exact Hg2. }
    repeat split; auto.
    destruct e; cbn in He; repeat match goal with
      | H : _ ∧ _ |- _ => destruct H
      | H : ∃ _, _ |- _ => destruct H end; simplify_eq.
    + (* no address at all *)
      assert (Hz : length (Urls (cli s)) = 0).
      { destruct (length (Urls (cli s))); [done|].
        match goal with H : _ → None = Some _ |- _ => discriminate H; lia end. }
      repeat split; auto; try lia.
      apply Hnil.
      match goal with H : _ → _ ∧ _ |- _ => by destruct (H Hz) as [-> _] end.
    + repeat split; auto.
      intros Hr'. specialize (Hest Hr').
      unfold established, permits_same, registered in *.
      rewrite Hs, Hn, Hr in Hest. exact Hest.
  - (* BaseCall panicked *)
    injection Hrun as <- <-.
    exists t1, [], (Some (k, e)). split; [|apply Hearly].
    unfold login_course, grows, permits_same.
    rewrite app_nil_r, Ht, Hs, Hn, Hr, Hu1. cbn.
    repeat split; auto.
    destruct e; cbn in He; repeat match goal with
      | H : _ ∧ _ |- _ => destruct H
      | H : ∃ _, _ |- _ => destruct H end; simplify_eq;
      repeat split; eauto.
Qed.


Lemma Login_course s r s' :
  Login P E s = (r, s') →
  ∃ t1 t2 path, login_course s r s' t1 t2 path.
Proof.
  intros Hrun.
  destruct (Login_course_path s r s' Hrun) as (t1 & t2 & path & Hc & _).
  by exists t1, t2, path.
Qed.

(** The request body and the state with which [Login] enters
    [loginCall]: the transport is stored, the credentials are read,
    device id and token are cleared.  [None] when [Login] returns
    before. *)
Definition Login_entry (s : St E RestClient)
    : option (gmap string any * St E RestClient) :=
  let c := cli s in
  let new := NewHTTPClientByBackendID E (BackendID c) (world (proc s)) in
  match new.1.2 with
  | Some _ => None
  | None =>
      let p := proc s in
      let s0 := {| cli := set_Client new.1.1 c;
                   proc := mkProc (sems p) (next_loc p)
                             (RequestSemaphoreMap p) new.2 (trace p) |} in
      match getRequestParams P E (BackendID c) s0 with
      | (Done (inl data), s1) =>
          Some (data, {| cli := set_Token "" (set_DeviceId "" (cli s1));
                         proc := proc s1 |})
      | _ => None
      end
  end.

Lemma setDataFromRespData_ok resp s s' :
  setDataFromRespData P E resp s = (Done None, s') →
  ∃ respData,
    Data resp = Map respData
    ∧ GetValue_string P respData "deviceid" = (DeviceId (cli s'), true)
    ∧ GetValue_string P respData "iBaseToken" = (Token (cli s'), true).
Proof.
  unfold setDataFromRespData. intros Hrun.
  destruct (Data resp) as [| | | |respData|] eqn:HD; try discriminate Hrun.
  exists respData. split; [done|].
  destruct (GetValue_string P respData "deviceid") as [sn ok1] eqn:H1.
  run. destruct ok1; run; [|discriminate Hrun].
  destruct (GetValue_string P respData "iBaseToken") as [tok ok2] eqn:H2.
  destruct (GetValue_string P respData "vstoreName") as [vn ok3] eqn:H3.
  destruct (GetValue_string P respData "vstoreId") as [vi ok4] eqn:H4.
  destruct (RequestSemaphoreMap (proc s) !! sn) as [l|] eqn:Hreg; run;
    destruct ok2; run; by simplify_eq.
Qed.

(** A [Login] that returns nil got a reply from [loginCall] whose
    payload has the device id and the token as strings, and has stored
    these two strings as they are. *)
Lemma Login_reply s :
  (Login P E s).1 = Done None →
  ∃ data s0 resp s1 respData,
    Login_entry s = Some (data, s0)
    ∧ loginCall P E data s0 = (Done (resp, None), s1)
    ∧ (FormatRespErr P (Error resp)).1.1 = 0%Z
    ∧ Data resp = Map respData
    ∧ GetValue_string P respData "deviceid"
      = (DeviceId (cli (Login P E s).2), true)
    ∧ GetValue_string P respData "iBaseToken"
      = (Token (cli (Login P E s).2), true).
Proof.
  destruct (Login P E s) as [r s'] eqn:Hrun. cbn. intros ->.
  unfold Login_entry. unfold Login in Hrun. run.
  destruct (NewHTTPClientByBackendID E (BackendID (cli s)) (world (proc s)))
    as [[h err0] w0] eqn:Hnew; run.
  destruct err0 as [x0|]; run; [discriminate Hrun|].
  unfold getRequestParams in *. run.
  destruct (GetAuthInfoFromBackendID E (BackendID (cli s)) w0)
    as [[au|x1] w1] eqn:Hau; run; [|discriminate Hrun].
  match type of Hrun with
  | context [loginCall P E ?d ?s0] =>
      set (data := d) in *; set (s0' := s0) in *
  end.
  destruct (loginCall P E data s0') as [r1 s1] eqn:Hloop.
  destruct r1 as [[resp [x|]]|msg]; cbn in Hrun; try discriminate Hrun.
  destruct (FormatRespErr P (Error resp)) as [[code dsc] ferr] eqn:HF.
  destruct (bool_decide (code ≠ 0%Z)) eqn:Hcode.
  { destruct (is_lockout_code P code); unfold setOffline in Hrun; run;
      [|discriminate Hrun].
    destruct (SetStorageBackendContentOnlineStatus E
                (BackendID (cli s1)) false (world (proc s1)))
      as [[eo|] w2]; run; discriminate Hrun. }
  apply bool_decide_eq_false in Hcode. apply dec_stable in Hcode.
  destruct (setDataFromRespData P E resp s1) as [r2 s2] eqn:Hset.
  destruct r2 as [[x|]|msg]; cbn in Hrun.
  - destruct (Logout P E s2) as [[[]|msg] s3]; cbn in Hrun;
      [|discriminate Hrun].
    unfold setOffline in Hrun. run.
    destruct (SetStorageBackendContentOnlineStatus E
                (BackendID (cli s3)) false (world (proc s3)))
      as [eo w2]; run. discriminate Hrun.
  - injection Hrun as <-.
    destruct (setDataFromRespData_ok resp s1 s2 Hset)
      as (respData & HD & Hdev & Htok).
    exists data, s0', resp, s1, respData.
    rewrite HF. repeat split; done.
  - discriminate Hrun.
Qed.

End BaseFacts.

(** ** Login: the order in which the addresses are tried *)

(** The calls to the login path in a trace: the base address each was
    made with, and how it ended. *)
Definition login_attempts (t : list Event) : list (string * Res error) :=
  omap (fun c : string * string * string * Res error =>
          if bool_decide (c.1.1.2 = "/xx/sessions")
          then Some (c.1.2, c.2) else None)
       (basecalls t).

(** The attempts [att] visit the addresses [us] from the front, go on
    after each connectivity failure, and stop at the first attempt that
    ends otherwise. *)
Definition tried_in_order (P : Params) (us : list string)
    (att : list (string * Res error)) : Prop :=
  ∃ outs : list (Res error),
    att = zip_with (fun u o => (u +:+ "/deviceManager/rest", o)) us outs
    ∧ (length outs ≤ length us)%nat
    ∧ (∀ j o, outs !! j = Some o → S j < length outs →
              o = Done (Some (Unconnected P)))
    ∧ (∀ j o, outs !! j = Some o → o ≠ Done (Some (Unconnected P)) →
              S j = length outs)
    ∧ (∀ j, j < length us →
            (∀ i, i < j → outs !! i = Some (Done (Some (Unconnected P)))) →
            j < length outs).

Section Order.
Variable P : Params.
Variable E : Env.

Lemma login_attempts_app t1 t2 :
  login_attempts (t1 ++ t2) = login_attempts t1 ++ login_attempts t2.
Proof. unfold login_attempts. by rewrite basecalls_app, omap_app. Qed.

Lemma login_attempts_zip (t : list Event) us outs :
  basecalls t = zip_with attempt_of us outs →
  login_attempts t
  = zip_with (fun u o => (u +:+ "/deviceManager/rest", o)) us outs.
Proof.
  unfold login_attempts. intros ->. revert outs.
  induction us as [|u us IH]; intros [|o outs]; cbn; try done.
  by rewrite IH.
Qed.

Lemma login_attempts_none (t : list Event) :
  Forall (fun c : string * string * string * Res error =>
            c.1.1.2 ≠ "/xx/sessions") (basecalls t) →
  login_attempts t = [].
Proof.
  unfold login_attempts. induction 1 as [|c l Hc _ IH]; cbn; [done|].
  by rewrite bool_decide_eq_false_2.
Qed.

Lemma last_out_not_Unconnected k (e : LoopEnd) o :
  match e with Refused x => x ≠ Unconnected P | _ => True end →
  last_out e !! k = Some o → o ≠ Done (Some (Unconnected P)).
Proof.
  destruct e, k; cbn; intros Hne Hl; simplify_eq; try done.
  congruence.
Qed.

Lemma outs_of_in_order us k (e : LoopEnd) :
  match e with
  | Exhausted => k = length us
  | Refused x => k < length us ∧ x ≠ Unconnected P
  | _ => k < length us
  end →
  tried_in_order P us
    (zip_with (fun u o => (u +:+ "/deviceManager/rest", o)) us (outs_of P k e)).
Proof.
  intros He. exists (outs_of P k e). unfold outs_of.
  assert (Hne : match e with Refused x => x ≠ Unconnected P | _ => True end)
    by (destruct e; tauto).
  assert (Hlen : length (last_out e) = match e with Exhausted => 0 | _ => 1 end)
    by (by destruct e).
  assert (Hrep : ∀ j, j < k →
            (replicate k (Done (Some (Unconnected P))) ++ last_out e) !! j
            = Some (Done (Some (Unconnected P)))).
  { intros j Hj. rewrite lookup_app_l by (by rewrite length_replicate).
    by apply lookup_replicate_2. }
  assert (Hlast : ∀ j o, (k ≤ j)%nat →
            (replicate k (Done (Some (Unconnected P))) ++ last_out e) !! j
            = Some o → o ≠ Done (Some (Unconnected P)) ∧ j = k ∧ e ≠ Exhausted).
  { intros j o Hj Hl. rewrite lookup_app_r in Hl by (by rewrite length_replicate).
    rewrite length_replicate in Hl. split; [by eapply last_out_not_Unconnected|].
    pose proof (lookup_lt_Some _ _ _ Hl) as Hlt. rewrite Hlen in Hlt.
    destruct e; try lia; split; try done; lia. }
  rewrite length_app, length_replicate, Hlen.
  repeat split.
  - destruct e; lia.
  - intros j o Hl Hj. destruct (decide (j < k)) as [Hjk|Hjk].
    + rewrite Hrep in Hl by done. by injection Hl as <-.
    + destruct (Hlast j o ltac:(lia) Hl) as (_ & -> & _). destruct e; lia.
  - intros j o Hl Ho. destruct (decide (j < k)) as [Hjk|Hjk].
    + rewrite Hrep in Hl by done. by injection Hl as <-.
    + destruct (Hlast j o ltac:(lia) Hl) as (_ & -> & Hx). destruct e; try done; lia.
  - intros j Hj Hall. destruct e; try lia.
    all: destruct (decide (j ≤ k)%nat) as [Hjk|Hjk]; [lia|].
    all: destruct (Hlast k _ ltac:(lia) (Hall k ltac:(lia))) as (Hx & _); done.
Qed.

(** C1.  Login tries the addresses of [Urls] in order from the front:
    after each attempt that fails with the sentinel [Unconnected] the
    next address is tried, and the first attempt that ends in any other
    way (a response, whatever its business code, or another error) is
    the last one, so no later address is tried.  This holds for the
    loop of [loginCall], and so for [Login]: when the transport cannot
    be made or the credentials cannot be read, [Login] returns that
    error without any call; in every other case it runs the loop. *)
Theorem login_tries_addresses_in_order :
  (∀ data s, ∃ t,
     trace (proc (loginCall P E data s).2) = trace (proc s) ++ t
     ∧ tried_in_order P (Urls (cli s)) (login_attempts t))
  ∧ (∀ s, ∃ t,
     trace (proc (Login P E s).2) = trace (proc s) ++ t
     ∧ match Login_early_return E s with
       | Some x => t = [] ∧ (Login P E s).1 = Done (Some x)
       | None => tried_in_order P (Urls (cli s)) (login_attempts t)
       end).
Proof.
  split.
  - intros data s.
    destruct (loginCall P E data s) as [r s'] eqn:Hrun.
    destruct (loginCall_course P E data s r s' Hrun)
      as (t & k & e & Ht & Hb & _ & _ & _ & _ & _ & He).
    exists t. split; [done|].
    rewrite (login_attempts_zip t _ _ Hb).
    apply outs_of_in_order. destruct e; cbn in He; tauto.
  - intros s.
    destruct (Login P E s) as [r s'] eqn:Hrun.
    destruct (Login_course_path P E s r s' Hrun)
      as (t1 & t2 & path & (Ht & _ & _ & _ & Hb2 & Hpath) & Hearly).
    exists (t1 ++ t2). split; [done|].
    unfold early_path in Hearly.
    destruct (Login_early_return E s) as [x|].
    + destruct Hearly as (-> & ->).
      destruct Hpath as (-> & -> & _). done.
    + destruct path as [[k e]|]; [|done].
      destruct Hpath as (Hb & He).
      rewrite login_attempts_app, (login_attempts_none t2 Hb2), app_nil_r.
      rewrite (login_attempts_zip t1 _ _ Hb).
      apply outs_of_in_order. destruct e; cbn in He; tauto.
Qed.

End Order.

(** ** Login: what happens to the address list *)

(** The events a method added when it took [s] to [s']. *)
Definition new_events {E C} (s s' : St E C) : list Event :=
  drop (length (trace (proc s))) (trace (proc s')).

Lemma new_events_app {E C} (s s' : St E C) t :
  trace (proc s') = trace (proc s) ++ t → new_events s s' = t.
Proof. unfold new_events. intros ->. by rewrite drop_app_length. Qed.

(** [new] is [old] with the addresses at [i] and at the final index
    exchanged. *)
Definition swapped_with_last (i : nat) (old new : list string) : Prop :=
  i < length old
  ∧ length new = length old
  ∧ new !! (length old - 1) = old !! i
  ∧ new !! i = old !! (length old - 1)
  ∧ ∀ j, j ≠ i → j ≠ length old - 1 → new !! j = old !! j.

(** [new] is [old] with the address at [i] taken out and put at the
    end, the others keeping their relative order. *)
Definition moved_to_back (i : nat) (old new : list string) : Prop :=
  ∃ u, old !! i = Some u ∧ new = delete i old ++ [u].

Lemma swap_last_swapped i (l : list string) :
  i < length l → swapped_with_last i l (swap_last i l).
Proof.
  intros Hi. unfold swapped_with_last, swap_last.
  destruct (lookup_lt_is_Some_2 l (length l - 1)) as [a Ha]; [lia|].
  destruct (lookup_lt_is_Some_2 l i) as [b Hb]; [done|].
  rewrite Ha, Hb. rewrite !length_insert.
  repeat split; try done.
  - rewrite list_lookup_insert_eq; [done|]. rewrite length_insert. lia.
  - destruct (decide (i = length l - 1)) as [->|Hne].
    + rewrite list_lookup_insert_eq by (rewrite length_insert; lia). congruence.
    + rewrite list_lookup_insert_ne by done.
      by rewrite list_lookup_insert_eq.
  - intros j Hj1 Hj2. by rewrite !list_lookup_insert_ne.
Qed.

Lemma swapped_near_end_moved i (old new : list string) :
  swapped_with_last i old new →
  length old ≤ i + 2 →
  moved_to_back i old new.
Proof.
  intros (Hi & Hlen & Hlast & Hat & Hother) Hnear.
  destruct (lookup_lt_is_Some_2 old i) as [u Hu]; [done|].
  exists u. split; [done|]. apply list_eq. intros j.
  destruct (decide (j < length old - 1)) as [Hj|Hj].
  - rewrite lookup_app_l by (rewrite length_delete by (by eexists); lia).
    destruct (decide (j < i)) as [Hji|Hji].
    + rewrite list_lookup_delete_lt by done. apply Hother; lia.
    + rewrite list_lookup_delete_ge by lia.
      assert (j = i) as -> by lia. rewrite Hat. f_equal. lia.
  - destruct (decide (j = length old - 1)) as [->|Hne].
    + rewrite lookup_app_r by (rewrite length_delete by (by eexists); lia).
      rewrite length_delete by (by eexists).
      replace (length old - 1 - (length old - 1)) with 0 by lia.
      cbn. by rewrite Hlast.
    + rewrite !lookup_ge_None_2; [done| |lia].
      rewrite length_app, length_delete by (by eexists). cbn. lia.
Qed.

Lemma swapped_Permutation i (old new : list string) :
  swapped_with_last i old new → new ≡ₚ old.
Proof.
  intros (Hi & Hlen & Hlast & Hat & Hother).
  destruct (lookup_lt_is_Some_2 old i) as [u Hu]; [done|].
  destruct (lookup_lt_is_Some_2 old (length old - 1)) as [v Hv]; [lia|].
  assert (new = <[length old - 1 := u]> (<[i := v]> old)) as ->.
  { apply list_eq. intros j.
    destruct (decide (j = length old - 1)) as [->|Hj1].
    - rewrite list_lookup_insert_eq by (rewrite length_insert; lia). congruence.
    - rewrite list_lookup_insert_ne by done.
      destruct (decide (j = i)) as [->|Hj2].
      + rewrite list_lookup_insert_eq by done. congruence.
      + rewrite list_lookup_insert_ne by done. by apply Hother. }
  destruct (decide (i = length old - 1)) as [Heq|Hne].
  - rewrite <- Heq. rewrite list_insert_insert_eq.
    by rewrite list_insert_id.
  - symmetry. apply Permutation_inj. split; [by rewrite !length_insert|].
    exists (fun j => if decide (j = i) then length old - 1
                     else if decide (j = length old - 1) then i else j).
    split.
    + intros a b Hab. repeat case_decide; lia.
    + intros j. repeat case_decide; subst.
      * rewrite list_lookup_insert_eq by (rewrite length_insert; lia). done.
      * rewrite list_lookup_insert_ne by done.
        rewrite list_lookup_insert_eq by done. done.
      * by rewrite !list_lookup_insert_ne.
Qed.

Section AddressList.
Variable P : Params.
Variable E : Env.

(** The login request to the address at index [i] got a response
    ([BaseCall] returned with [err == nil]). *)
Definition answered_at (s : St E RestClient) (i : nat) : Prop :=
  ∃ b, login_attempts (new_events s (Login P E s).2) !! i
       = Some (b, Done None).

(** Login succeeds at index [i]: it returns nil, and the attempt that
    got the response is the one at index [i]. *)
Definition succeeds_at (s : St E RestClient) (i : nat) : Prop :=
  (Login P E s).1 = Done None ∧ answered_at s i.

Lemma outs_of_answered k (e : LoopEnd) i :
  outs_of P k e !! i = Some (Done None) → e = Answered ∧ i = k.
Proof.
  unfold outs_of. intros Hl.
  destruct (decide (i < k)) as [Hi|Hi].
  - rewrite lookup_app_l in Hl by (by rewrite length_replicate).
    apply lookup_replicate_1 in Hl as [? _]. done.
  - rewrite lookup_app_r in Hl by (rewrite length_replicate; lia).
    rewrite length_replicate in Hl.
    destruct e, (i - k) as [|n] eqn:Hn; cbn in Hl; simplify_eq.
    split; [done|lia].
Qed.

Lemma Login_answered s r s' t1 t2 path i b :
  login_course P E s r s' t1 t2 path →
  login_attempts (t1 ++ t2) !! i = Some (b, Done None) →
  path = Some (i, Answered).
Proof.
  intros (_ & _ & _ & _ & Hb2 & Hpath) Hl.
  rewrite login_attempts_app, (login_attempts_none t2 Hb2), app_nil_r in Hl.
  destruct path as [[k e]|].
  - destruct Hpath as (Hb & _).
    rewrite (login_attempts_zip t1 _ _ Hb) in Hl.
    apply lookup_zip_with_Some in Hl as (u & o & Heq & _ & Ho).
    injection Heq as _ <-.
    by destruct (outs_of_answered _ _ _ Ho) as [-> ->].
  - by destruct Hpath as (-> & _).
Qed.

Lemma Login_not_answered s r s' t1 t2 path :
  login_course P E s r s' t1 t2 path →
  (∀ i, ¬ ∃ b, login_attempts (t1 ++ t2) !! i = Some (b, Done None)) →
  Urls (cli s') = Urls (cli s).
Proof.
  intros (_ & _ & _ & _ & Hb2 & Hpath) Hno.
  destruct path as [[k e]|]; [|by destruct Hpath as (_ & _ & ? & _)].
  destruct Hpath as (Hb & He).
  destruct e; try (cbn in He; tauto).
  destruct He as (Hk & _). exfalso.
  destruct (lookup_lt_is_Some_2 (Urls (cli s)) k Hk) as [u Hu].
  apply (Hno k). exists (u +:+ "/deviceManager/rest").
  rewrite login_attempts_app, (login_attempts_none t2 Hb2), app_nil_r.
  rewrite (login_attempts_zip t1 _ _ Hb).
  apply lookup_zip_with_Some. exists u, (Done None).
  repeat split; [done|]. unfold outs_of.
  rewrite lookup_app_r by (by rewrite length_replicate).
  by rewrite length_replicate, Nat.sub_diag.
Qed.

(** C2, as amended.  When Login succeeds at index [i], the address at
    [i] ends up in the final slot and the address that was in the final
    slot takes index [i]; every other address keeps its position.  When
    [i] is the last or the last but one index this is the same as taking
    the address out and appending it, so for [[u1; u2; u3]] with [u2]
    succeeding the list becomes [[u1; u3; u2]]. *)
Theorem login_success_swaps_with_last (s : St E RestClient) (i : nat) :
  succeeds_at s i →
  let old := Urls (cli s) in
  let new := Urls (cli (Login P E s).2) in
  swapped_with_last i old new
  ∧ (length old ≤ i + 2 → moved_to_back i old new)
  ∧ (∀ u1 u2 u3, old = [u1; u2; u3] → i = 1 → new = [u1; u3; u2]).
Proof.
  intros [Hok [b Hans]] old new. subst old new.
  destruct (Login P E s) as [r s'] eqn:Hrun. cbn in *.
  destruct (Login_course P E s r s' Hrun) as (t1 & t2 & path & Hc).
  pose proof Hc as (Ht & _).
  rewrite (new_events_app s s' (t1 ++ t2)) in Hans by done.
  pose proof (Login_answered _ _ _ _ _ _ _ _ Hc Hans) as ->.
  destruct Hc as (_ & _ & _ & _ & _ & _ & Hi & HU & _).
  assert (Hsw : swapped_with_last i (Urls (cli s)) (Urls (cli s'))).
  { rewrite HU. by apply swap_last_swapped. }
  split; [done|]. split.
  - intros Hnear. by apply swapped_near_end_moved.
  - intros u1 u2 u3 Hold ->.
    destruct (swapped_near_end_moved _ _ _ Hsw) as (u & Hu & ->);
      rewrite Hold in *; cbn in *; [lia|]. by injection Hu as <-.
Qed.

(** C3, as amended.  A Login that fails leaves the address list as it
    was when no login request got a response: every address failed with
    the connectivity sentinel, or an attempt ended with another error,
    or Login returned before the loop.  When the login request to the
    address at index [i] got a response, the addresses at [i] and at the
    final index have been exchanged although Login fails (the response
    carried a non-zero business code, or its payload could not be
    used).  In both cases the list has the same length and the same
    addresses. *)
Theorem failed_login_address_list (s : St E RestClient) (x : string) :
  (Login P E s).1 = Done (Some x) →
  let old := Urls (cli s) in
  let new := Urls (cli (Login P E s).2) in
  ((∀ i, ¬ answered_at s i) → new = old)
  ∧ (∀ i, answered_at s i → swapped_with_last i old new)
  ∧ length new = length old
  ∧ new ≡ₚ old.
Proof.
  intros Hfail old new. subst old new. unfold answered_at.
  destruct (Login P E s) as [r s'] eqn:Hrun. cbn in *.
  destruct (Login_course P E s r s' Hrun) as (t1 & t2 & path & Hc).
  pose proof Hc as (Ht & _).
  rewrite (new_events_app s s' (t1 ++ t2)) by done.
  assert (Hnone : (∀ i, ¬ ∃ b, login_attempts (t1 ++ t2) !! i
                               = Some (b, Done None)) →
                  Urls (cli s') = Urls (cli s))
    by apply (Login_not_answered _ _ _ _ _ _ Hc).
  assert (Hsome : ∀ i, (∃ b, login_attempts (t1 ++ t2) !! i
                             = Some (b, Done None)) →
                       swapped_with_last i (Urls (cli s)) (Urls (cli s'))).
  { intros i [b Hans].
    pose proof (Login_answered _ _ _ _ _ _ _ _ Hc Hans) as ->.
    destruct Hc as (_ & _ & _ & _ & _ & _ & Hi & -> & _).
    by apply swap_last_swapped. }
  split; [done|]. split; [done|].
  destruct path as [[k e]|].
  - destruct e.
    + rewrite Hnone; [done|]. intros i [b Hans].
      by pose proof (Login_answered _ _ _ _ _ _ _ _ Hc Hans).
    + destruct Hc as (_ & _ & _ & _ & _ & _ & Hi & HU & _).
      pose proof (swap_last_swapped k _ Hi) as Hsw. rewrite <- HU in Hsw.
      split; [by destruct Hsw as (_ & ? & _)|by eapply swapped_Permutation].
    + rewrite Hnone; [done|]. intros i [b Hans].
      by pose proof (Login_answered _ _ _ _ _ _ _ _ Hc Hans).
    + rewrite Hnone; [done|]. intros i [b Hans].
      by pose proof (Login_answered _ _ _ _ _ _ _ _ Hc Hans).
  - rewrite Hnone; [done|]. intros i [b Hans].
    by pose proof (Login_answered _ _ _ _ _ _ _ _ Hc Hans).
Qed.

End AddressList.

(** ** Runs on the sample instantiation *)

(** A fresh client for [urls] in a world with routing table [w]. *)
Definition sample_state (urls : list string)
    (w : list (string * DoResult)) : St Sample.env RestClient :=
  {| cli := Sample.client urls; proc := Sample.start w |}.

(** [u1] and [u2] cannot be reached, [u3] accepts the login. *)
Definition third_accepts : St Sample.env RestClient :=
  sample_state ["u1"; "u2"; "u3"]
    [(Sample.login_url "u3", DoBody "login-ok")].

(** [u1] cannot be reached, [u2] accepts the login. *)
Definition second_accepts : St Sample.env RestClient :=
  sample_state ["u1"; "u2"; "u3"]
    [(Sample.login_url "u2", DoBody "login-ok")].

(** [u1] accepts the login. *)
Definition first_accepts : St Sample.env RestClient :=
  sample_state ["u1"; "u2"; "u3"]
    [(Sample.login_url "u1", DoBody "login-ok")].

(** [u1] answers with the business code of a wrong password; [u2] would
    accept. *)
Definition first_rejects : St Sample.env RestClient :=
  sample_state ["u1"; "u2"]
    [(Sample.login_url "u1", DoBody "wrong-password");
     (Sample.login_url "u2", DoBody "login-ok")].

(** With [A], [B] unreachable and [C] accepting there are exactly three
    attempts: [A], [B], then [C]. *)
Example three_attempts :
  login_attempts
    (new_events third_accepts (Login Sample.params Sample.env third_accepts).2)
  = [("u1/deviceManager/rest", Done (Some "unconnected"));
     ("u2/deviceManager/rest", Done (Some "unconnected"));
     ("u3/deviceManager/rest", Done None)].
Proof. vm_compute. reflexivity. Qed.

(** A non-zero business code from the first address: no second
    attempt. *)
Example rejected_first_no_second_attempt :
  login_attempts
    (new_events first_rejects (Login Sample.params Sample.env first_rejects).2)
  = [("u1/deviceManager/rest", Done None)].
Proof. vm_compute. reflexivity. Qed.

Lemma login_success_swaps_with_last_witness :
  succeeds_at Sample.params Sample.env second_accepts 1
  ∧ Urls (cli (Login Sample.params Sample.env second_accepts).2)
    = ["u1"; "u3"; "u2"].
Proof.
  assert (H : succeeds_at Sample.params Sample.env second_accepts 1).
  { split; [vm_compute; reflexivity|].
    eexists. vm_compute. reflexivity. }
  split; [exact H|].
  destruct (login_success_swaps_with_last Sample.params Sample.env
              second_accepts 1 H) as (_ & _ & Hex).
  exact (Hex "u1" "u2" "u3" eq_refl eq_refl).
Defined.

(** C2 as stated fails: when the first of three addresses succeeds, the
    other two change places, [[u1; u2; u3]] becomes [[u3; u2; u1]]. *)
Lemma login_success_not_moved_to_back :
  succeeds_at Sample.params Sample.env first_accepts 0
  ∧ ¬ moved_to_back 0 (Urls (cli first_accepts))
        (Urls (cli (Login Sample.params Sample.env first_accepts).2)).
Proof.
  split.
  - split; [vm_compute; reflexivity|].
    eexists. vm_compute. reflexivity.
  - intros (u & Hu & Hnew). vm_compute in Hnew. discriminate Hnew.
Qed.

Lemma failed_login_address_list_witness :
  (Login Sample.params Sample.env first_rejects).1
  = Done (Some "login u1/deviceManager/rest error")
  ∧ swapped_with_last 0 ["u1"; "u2"]
      (Urls (cli (Login Sample.params Sample.env first_rejects).2)).
Proof.
  assert (H : (Login Sample.params Sample.env first_rejects).1
              = Done (Some "login u1/deviceManager/rest error"))
    by (vm_compute; reflexivity).
  split; [exact H|].
  destruct (failed_login_address_list Sample.params Sample.env first_rejects
              _ H) as (_ & Hsw & _).
  apply Hsw. eexists. vm_compute. reflexivity.
Defined.

(** C3 as stated fails: a login that is rejected with a non-zero
    business code by the first address fails and leaves [[u2; u1]]
    where [[u1; u2]] was. *)
Lemma failed_login_changes_address_list :
  (∃ x, (Login Sample.params Sample.env first_rejects).1 = Done (Some x))
  ∧ Urls (cli first_rejects) = ["u1"; "u2"]
  ∧ Urls (cli (Login Sample.params Sample.env first_rejects).2)
    = ["u2"; "u1"]
  ∧ Urls (cli (Login Sample.params Sample.env first_rejects).2)
    ≠ Urls (cli first_rejects).
Proof.
  split; [eexists; vm_compute; reflexivity|].
  split; [reflexivity|].
  split; [vm_compute; reflexivity|].
  vm_compute. discriminate.
Qed.

(** ** Request construction *)

Lemma canonical_Connection : CanonicalMIMEHeaderKey "Connection" = "Connection".
Proof. vm_compute. reflexivity. Qed.

Lemma canonical_Content_Type :
  CanonicalMIMEHeaderKey "Content-Type" = "Content-Type".
Proof. vm_compute. reflexivity. Qed.

Lemma canonical_iBaseToken : CanonicalMIMEHeaderKey "iBaseToken" = "Ibasetoken".
Proof. vm_compute. reflexivity. Qed.

(** The three headers of a request built by [GetRequest]. *)
Definition headers_of (c : RestClient) (req : Request) : Prop :=
  Header_Values req "Content-Type" = ["application/json"]
  ∧ Header_Values req "Connection" = ["keep-alive"]
  ∧ Header_Values req "iBaseToken"
    = (if bool_decide (Token c ≠ "") then [Token c] else [])
  ∧ (is_Some (Hdr req !! CanonicalMIMEHeaderKey "iBaseToken") ↔ Token c ≠ "").

Lemma GetRequest_headers P c method url data req :
  GetRequest P c method url data = inl req → headers_of c req.
Proof.
  unfold GetRequest, http_NewRequest, headers_of, Header_Values, Header_Set.
  intros Hreq.
  destruct data as [d|]; [destruct (json_Marshal P d) as [b|e]|];
    try discriminate;
    destruct (http_NewRequest_err P method _); try discriminate;
    injection Hreq as <-;
    rewrite ?canonical_Connection, ?canonical_Content_Type,
      ?canonical_iBaseToken;
    case_bool_decide as Htok; cbn;
    rewrite ?canonical_Connection, ?canonical_Content_Type,
      ?canonical_iBaseToken;
    simplify_map_eq; repeat split; try done;
    try (intros _; by eexists); try (by intros [? ?]).
Qed.

Section Headers.
Variable P : Params.
Variable E : Env.

(** C7.  Every request built by [GetRequest] carries
    [Content-Type: application/json] and [Connection: keep-alive], and
    carries the token header [iBaseToken] exactly when the client's
    token is not empty.  Login clears the token before it calls
    [loginCall], so no request of a login attempt carries the header.
    A Login that returned nil has stored the string that the reply of
    [loginCall] has under [iBaseToken], whatever it is; a request built
    after it carries the header, with that token, exactly when the
    token is not empty. *)
Theorem request_headers_and_token :
  (∀ c method url data req,
     GetRequest P c method url data = inl req → headers_of c req)
  ∧ (∀ s, ∃ t1 t2,
       trace (proc (Login P E s).2) = trace (proc s) ++ t1 ++ t2
       ∧ login_attempts (t1 ++ t2) = login_attempts t1
       ∧ Forall (fun req =>
                   Header_Values req "iBaseToken" = []
                   ∧ Hdr req !! CanonicalMIMEHeaderKey "iBaseToken" = None)
                (requests t1))
  ∧ (∀ s, (Login P E s).1 = Done None →
          let c' := cli (Login P E s).2 in
          (∃ body s0 resp s1 respData,
             Login_entry P E s = Some (body, s0)
             ∧ loginCall P E body s0 = (Done (resp, None), s1)
             ∧ Data resp = Map respData
             ∧ GetValue_string P respData "iBaseToken" = (Token c', true))
          ∧ ∀ method url data req,
              GetRequest P c' method url data = inl req →
              (Token c' ≠ "" →
               Header_Values req "iBaseToken" = [Token c'])
              ∧ (Token c' = "" →
                 Header_Values req "iBaseToken" = []
                 ∧ Hdr req !! CanonicalMIMEHeaderKey "iBaseToken" = None)).
Proof.
  split; [intros; by eapply GetRequest_headers|]. split.
  - intros s. destruct (Login P E s) as [r s'] eqn:Hrun.
    destruct (Login_course P E s r s' Hrun)
      as (t1 & t2 & path & Ht & _ & _ & Hq & Hb2 & _).
    exists t1, t2. split; [done|]. split.
    + by rewrite login_attempts_app, (login_attempts_none t2 Hb2), app_nil_r.
    + eapply Forall_impl; [exact Hq|].
      intros req (c & m & u & d & Htok & Hreq).
      destruct (GetRequest_headers P c m u d req Hreq) as (_ & _ & Hv & Hiff).
      rewrite Htok in Hv, Hiff. split; [done|].
      destruct (Hdr req !! CanonicalMIMEHeaderKey "iBaseToken") eqn:Hl;
        [|done].
      by destruct (proj1 Hiff ltac:(by eexists)).
  - intros s Hok c'. subst c'.
    split.
    + destruct (Login_reply P E s Hok)
        as (body & s0 & resp & s1 & respData & He & Hl & _ & HD & _ & Htok).
      by exists body, s0, resp, s1, respData.
    + intros method url data req Hreq.
      destruct (GetRequest_headers P _ _ _ _ _ Hreq) as (_ & _ & Hv & Hiff).
      split.
      * intros Htok. by rewrite bool_decide_eq_true_2 in Hv.
      * intros Htok. rewrite Htok in Hv, Hiff. split; [done|].
        destruct (Hdr req !! CanonicalMIMEHeaderKey "iBaseToken") eqn:Hl;
          [|done].
        by destruct (proj1 Hiff ltac:(by eexists)).
Qed.

End Headers.

Lemma request_headers_and_token_witness :
  (Login Sample.params Sample.env second_accepts).1 = Done None
  ∧ Token (cli (Login Sample.params Sample.env second_accepts).2) = "T1"
  ∧ ∃ req,
      GetRequest Sample.params
        (cli (Login Sample.params Sample.env second_accepts).2)
        "GET" "/lun" None = inl req
      ∧ URL req = "u2/deviceManager/rest/SN1/lun"
      ∧ Header_Values req "iBaseToken" = ["T1"].
Proof.
  assert (Hok : (Login Sample.params Sample.env second_accepts).1 = Done None)
    by (vm_compute; reflexivity).
  assert (Htok : Token (cli (Login Sample.params Sample.env second_accepts).2)
                 = "T1") by (vm_compute; reflexivity).
  split; [exact Hok|]. split; [exact Htok|].
  eexists. split; [vm_compute; reflexivity|]. split; [reflexivity|].
  destruct (request_headers_and_token Sample.params Sample.env)
    as (_ & _ & Hafter).
  destruct (Hafter second_accepts Hok) as (_ & Hreq).
  rewrite <- Htok.
  apply (Hreq "GET" "/lun" None).
  - vm_compute. reflexivity.
  - rewrite Htok. discriminate.
Defined.

(** The array accepts the login of [u1] with a session whose token is
    the empty string. *)
Definition empty_token_accepts : St Sample.env RestClient :=
  sample_state ["u1"]
    [(Sample.login_url "u1", DoBody "login-ok-empty-token")].

(** C7 as stated fails: Login returns nil on a reply whose [iBaseToken]
    is the empty string, and the requests built after this successful
    login carry no token header. *)
Lemma login_with_empty_token_no_token_header :
  (Login Sample.params Sample.env empty_token_accepts).1 = Done None
  ∧ DeviceId (cli (Login Sample.params Sample.env empty_token_accepts).2)
    = "SN1"
  ∧ Token (cli (Login Sample.params Sample.env empty_token_accepts).2) = ""
  ∧ ∃ req,
      GetRequest Sample.params
        (cli (Login Sample.params Sample.env empty_token_accepts).2)
        "GET" "/lun" None = inl req
      ∧ URL req = "u1/deviceManager/rest/SN1/lun"
      ∧ Header_Values req "Content-Type" = ["application/json"]
      ∧ Header_Values req "iBaseToken" = []
      ∧ Hdr req !! CanonicalMIMEHeaderKey "iBaseToken" = None.
Proof.
  split; [vm_compute; reflexivity|].
  split; [vm_compute; reflexivity|].
  split; [vm_compute; reflexivity|].
  eexists. split; [vm_compute; reflexivity|].
  repeat split; vm_compute; reflexivity.
Qed.

(** ** Permits around the network exchange *)

Section PermitOrder.
Variable P : Params.
Variable E : Env.

(** The device-level permit [BaseCall] takes: the one registered for the
    device serial number, else the one of the default bucket. *)
Definition device_permit (p : Proc E) (c : RestClient) : option loc :=
  match RequestSemaphoreMap p !! GetDeviceSN c with
  | Some l => Some l
  | None => RequestSemaphoreMap p !! UninitializedStorage P
  end.

(** In a [BaseCall] that gets to send (a transport is configured, the
    request was built, the client has its permit), the client-level
    permit is acquired first, then the device-level permit, which is the
    default bucket's when no permit is registered for the device serial
    number; then the request is sent; then, whatever the exchange gave
    (transport error, read error, undecodable or decoded body), the
    device-level permit and the client-level permit are released, and
    every permit has as many holders as before the call. *)
Lemma BaseCall_permit_order (s : St E RestClient) (method url : string)
    (data : option (gmap string any)) (h : HTTP) (req : Request)
    (cs dev : loc) :
  Client (cli s) = Some h →
  GetRequest P (cli s) method url data = inl req →
  RequestSemaphore (cli s) = Some cs →
  device_permit (proc s) (cli s) = Some dev →
  let r := (BaseCall P E method url data s).1 in
  let s' := (BaseCall P E method url data s).2 in
  (∃ pre, (pre = [] ∨ pre = [EvLock; EvUnlock])
     ∧ new_events s s'
       = pre ++ [EvAcquire cs; EvAcquire dev; EvDo h req;
                 EvRelease dev; EvRelease cs;
                 EvBaseCall method url (Url (cli s)) (outcome r)])
  ∧ (RequestSemaphoreMap (proc s) !! GetDeviceSN (cli s) = None →
     RequestSemaphoreMap (proc s) !! UninitializedStorage P = Some dev)
  ∧ sems (proc s') = sems (proc s)
  ∧ ∃ resp err, r = Done (resp, err).
Proof.
  intros Hh Hreq Hcs Hdev r s'. subst r s'.
  unfold device_permit in Hdev.
  destruct (BaseCall_steady P E method url data s)
    as (t0 & (_ & Hs & _) & _).
  destruct (BaseCall P E method url data s) as [r s'] eqn:HB. cbn in *.
  assert (Hnone : RequestSemaphoreMap (proc s) !! GetDeviceSN (cli s) = None →
                  RequestSemaphoreMap (proc s) !! UninitializedStorage P
                  = Some dev)
    by (by intros Hnone; rewrite Hnone in Hdev).
  unfold BaseCall, BaseCall_body, send in HB; run;
    rewrite Hh in HB; run; rewrite Hreq in HB.
  destruct (is_session_url url); run; rewrite Hcs in HB; run.
  all: destruct (RequestSemaphoreMap (proc s) !! GetDeviceSN (cli s))
         as [l|]; run; [injection Hdev as -> | rewrite Hdev in HB; run].
  all: destruct (http_Do E h req (world (proc s))) as [d w]; run.
  all: destruct d as [e|e|body]; run;
         [| | destruct (json_Unmarshal P body); run].
  all: injection HB as <- <-.
  all: (split; [|split; [done|split; [done|by eexists _, _]]]).
  all: first
    [ exists []; split; [by left|];
      apply new_events_app; cbn; by rewrite <- ?app_assoc
    | exists [EvLock; EvUnlock]; split; [by right|];
      apply new_events_app; cbn; by rewrite <- ?app_assoc ].
Qed.

End PermitOrder.

(** ** Logout *)

Section LogoutFacts.
Variable P : Params.
Variable E : Env.

(** When the logout call fails, or its reply carries a numeric code,
    [Logout] returns (it has no result and only logs). *)
Lemma Logout_returns s resp err s1 :
  BaseCall P E "DELETE" "/sessions" None s = (Done (resp, err), s1) →
  (err = None → ∃ f, Error resp !! "code" = Some (Float64 f)) →
  Logout P E s = (Done tt, s1).
Proof.
  intros HB Hcode. unfold Logout. run. rewrite HB.
  destruct err as [e|]; [done|].
  destruct (Hcode eq_refl) as [f ->]. by destruct (bool_decide _).
Qed.

(** The unchecked type assertion: a decoded reply whose [error] object
    has no numeric [code] makes [Logout] panic. *)
Lemma Logout_panics_without_code s resp s1 :
  BaseCall P E "DELETE" "/sessions" None s = (Done (resp, None), s1) →
  (∀ f, Error resp !! "code" ≠ Some (Float64 f)) →
  Logout P E s
  = (Panic "interface conversion: interface {} is not float64", s1).
Proof.
  intros HB Hcode. unfold Logout. run. rewrite HB.
  destruct (Error resp !! "code") as [[| |f| | |]|] eqn:Hc; try done.
  by destruct (Hcode f).
Qed.

(** C9 fails on the code.  When the logout request is answered with a
    body that decodes (an envelope [resp], no error from [BaseCall]),
    [Logout] returns only if the [error] object of the envelope has a
    numeric [code]; otherwise the unchecked type assertion
    [resp.Error["code"].(float64)] makes it panic. *)
Theorem logout_panics_on_reply_without_code s resp s1 :
  BaseCall P E "DELETE" "/sessions" None s = (Done (resp, None), s1) →
  ((∃ f, Error resp !! "code" = Some (Float64 f)) →
   Logout P E s = (Done tt, s1))
  ∧ ((∀ f, Error resp !! "code" ≠ Some (Float64 f)) →
     Logout P E s
     = (Panic "interface conversion: interface {} is not float64", s1)).
Proof.
  intros HB. split.
  - intros Hcode. apply (Logout_returns s resp None s1 HB). by intros _.
  - intros Hcode. by apply (Logout_panics_without_code s resp s1).
Qed.

End LogoutFacts.

(** A client with a session on device SN1 reached through [u1]. *)
Definition in_session (w : list (string * DoResult))
    : St Sample.env RestClient :=
  {| cli := set_Token "T1" (set_DeviceId "SN1"
              (set_Url "u1/deviceManager/rest" (Sample.client ["u1"; "u2"])));
     proc := Sample.start w |}.

(** The array answers the logout request with an object that has no
    error code. *)
Definition logout_without_code : St Sample.env RestClient :=
  in_session [("u1/deviceManager/rest/SN1/sessions", DoBody "empty-object");
              (Sample.login_url "u1", DoBody "login-ok")].

Lemma logout_panics_on_reply_without_code_witness :
  (Logout Sample.params Sample.env logout_without_code).1
  = Panic "interface conversion: interface {} is not float64".
Proof.
  destruct (BaseCall Sample.params Sample.env "DELETE" "/sessions" None
              logout_without_code) as [r s1] eqn:HB.
  assert (Hr : r = Done ({| Error := ∅; Data := Nil |}, None)).
  { apply (f_equal fst) in HB. cbn in HB. rewrite <- HB.
    vm_compute. reflexivity. }
  subst r.
  destruct (logout_panics_on_reply_without_code Sample.params Sample.env
              logout_without_code _ s1 HB) as (_ & Hpanic).
  rewrite Hpanic; [reflexivity|].
  intros f. cbn. by rewrite lookup_empty.
Defined.

(** ** ReLogin *)

Section ReLoginFacts.
Variable P : Params.
Variable E : Env.

(** The state once [ReLoginMutex.Lock()] is granted. *)
Definition locked (s : St E RestClient) : St E RestClient :=
  (emit (C := RestClient) EvLock s).2.

(** The state once the deferred [ReLoginMutex.Unlock()] has run. *)
Definition unlocked (s : St E RestClient) : St E RestClient :=
  (emit (C := RestClient) EvUnlock s).2.

Arguments locked : simpl never.
Arguments unlocked : simpl never.

(** Another caller has renewed the session: the token is not empty and
    is not the one read on entry.  [ReLogin] returns nil; it only took
    and gave back the lock: no call, no request, the client as it
    was. *)
Lemma ReLogin_fast_path s oldToken :
  Token (cli s) ≠ "" → oldToken ≠ Token (cli s) →
  ReLogin_locked P E oldToken s = (Done None, unlocked (locked s))
  ∧ new_events s (unlocked (locked s)) = [EvLock; EvUnlock].
Proof.
  intros H1 H2. unfold ReLogin_locked, unlocked, locked. run.
  rewrite !bool_decide_eq_true_2 by done. cbn. split; [done|].
  apply new_events_app. cbn. by rewrite <- app_assoc.
Qed.

(** Otherwise, with a token: [Logout] runs first; when it returns,
    [Login] runs on the client as [Logout] left it, whose address list
    is the one [ReLogin] found; a panic of [Logout] ends [ReLogin]. *)
Lemma ReLogin_logout_then_login s oldToken :
  Token (cli s) ≠ "" → oldToken = Token (cli s) →
  Urls (cli (Logout P E (locked s)).2) = Urls (cli s)
  ∧ ReLogin_locked P E oldToken s
    = match Logout P E (locked s) with
      | (Done _, s1) => ((Login P E s1).1, unlocked (Login P E s1).2)
      | (Panic msg, s1) => (Panic msg, unlocked s1)
      end.
Proof.
  intros H1 ->. split.
  - destruct (Logout_steady P E (locked s)) as (t & out & (Hc & _) & _).
    by rewrite Hc.
  - unfold ReLogin_locked, unlocked, locked. run.
    rewrite bool_decide_eq_true_2 by done.
    rewrite bool_decide_eq_false_2 by (by intros []). cbn.
    match goal with
    | |- context [Logout P E ?x] =>
        destruct (Logout P E x) as [[[]|msg] s1]; cbn; [|done]
    end.
    destruct (Login P E s1) as [[[e|]|msg] s2]; done.
Qed.

(** Without a token [ReLogin] goes straight to [Login]. *)
Lemma ReLogin_login_only s oldToken :
  Token (cli s) = "" →
  ReLogin_locked P E oldToken s
  = ((Login P E (locked s)).1, unlocked (Login P E (locked s)).2).
Proof.
  intros H1. unfold ReLogin_locked, unlocked, locked. run.
  rewrite bool_decide_eq_false_2 by (by intros []). cbn.
  match goal with
  | |- context [Login P E ?x] =>
      destruct (Login P E x) as [[[e|]|msg] s2]; done
  end.
Qed.

(** C5 fails on the code in its second half.  [ReLogin] holds the token
    it read on entry and the logout request is answered with an
    envelope that has no numeric error code: [Logout] panics on its
    type assertion, the panic leaves [ReLogin] (the deferred unlock
    runs), and [Login] is never called: the only call made is the
    logout call. *)
Theorem relogin_aborted_by_logout_panic s oldToken resp s1 :
  Token (cli s) ≠ "" → oldToken = Token (cli s) →
  BaseCall P E "DELETE" "/sessions" None (locked s) = (Done (resp, None), s1) →
  (∀ f, Error resp !! "code" ≠ Some (Float64 f)) →
  let r := ReLogin_locked P E oldToken s in
  r.1 = Panic "interface conversion: interface {} is not float64"
  ∧ basecalls (new_events s r.2)
    = [("DELETE", "/sessions", Url (cli s), Done None)]
  ∧ login_attempts (new_events s r.2) = [].
Proof.
  intros H1 H2 HB Hcode r. subst r.
  destruct (ReLogin_logout_then_login s oldToken H1 H2) as [_ ->].
  rewrite (Logout_panics_without_code P E _ _ _ HB Hcode). cbn.
  split; [done|].
  destruct (BaseCall_steady P E "DELETE" "/sessions" None (locked s))
    as (t & (_ & _ & _ & _ & Ht) & Hb & _).
  rewrite HB in Ht. cbn in Ht.
  assert (Hev : new_events s (unlocked s1)
                = [EvLock] ++ t
                  ++ [EvBaseCall "DELETE" "/sessions" (Url (cli s)) (Done None)]
                  ++ [EvUnlock]).
  { apply new_events_app. unfold unlocked. run. rewrite Ht.
    unfold locked. run. by rewrite <- !app_assoc. }
  rewrite Hev. unfold login_attempts.
  rewrite !basecalls_app, Hb. cbn. done.
Qed.

End ReLoginFacts.

Lemma relogin_aborted_by_logout_panic_witness :
  (ReLogin_locked Sample.params Sample.env "T1" logout_without_code).1
  = Panic "interface conversion: interface {} is not float64"
  ∧ login_attempts
      (new_events logout_without_code
         (ReLogin_locked Sample.params Sample.env "T1" logout_without_code).2)
    = [].
Proof.
  destruct (BaseCall Sample.params Sample.env "DELETE" "/sessions" None
              (locked Sample.env logout_without_code)) as [r s1] eqn:HB.
  assert (Hr : r = Done ({| Error := ∅; Data := Nil |}, None)).
  { apply (f_equal fst) in HB. cbn in HB. rewrite <- HB.
    vm_compute. reflexivity. }
  subst r.
  destruct (relogin_aborted_by_logout_panic Sample.params Sample.env
              logout_without_code "T1" {| Error := ∅; Data := Nil |} s1)
    as (Hp & _ & Hl).
  - discriminate.
  - reflexivity.
  - exact HB.
  - intros f. cbn. by rewrite lookup_empty.
  - split; [exact Hp|exact Hl].
Defined.

(** Where the logout reply carries a code, the same [ReLogin] logs out
    and then logs in again. *)
Example relogin_logs_out_then_in :
  let s := in_session
             [("u1/deviceManager/rest/SN1/sessions", DoBody "ok");
              (Sample.login_url "u1", DoBody "login-ok")] in
  let r := ReLogin_locked Sample.params Sample.env "T1" s in
  r.1 = Done None
  ∧ basecalls (new_events s r.2)
    = [("DELETE", "/sessions", "u1/deviceManager/rest", Done None);
       ("POST", "/xx/sessions", "u1/deviceManager/rest", Done None)].
Proof. vm_compute. split; reflexivity. Qed.

(** A caller that read the token [T0] on entry and finds [T1] after the
    lock makes no call. *)
Example relogin_after_another_caller :
  let s := in_session [] in
  let r := ReLogin_locked Sample.params Sample.env "T0" s in
  r.1 = Done None ∧ new_events s r.2 = [EvLock; EvUnlock]
  ∧ cli r.2 = cli s.
Proof. vm_compute. repeat split; reflexivity. Qed.

(** ** The registry of device permits *)

Section Registry.
Variable P : Params.
Variable E : Env.

(** Allocation is sound: registered permits live below [next_loc]. *)
Definition registry_wf (p : Proc E) : Prop :=
  ∀ k l, RequestSemaphoreMap p !! k = Some l → l < next_loc p.

(** From [p] to [p'], with [t] added to the trace: every permit that
    was registered is still the same object with the same capacity and
    the same holders; no key got a second permit; every permit created
    is registered, has capacity [MaxStorageThreads] and no holder. *)
Definition registry_kept (p p' : Proc E) (t : list Event) : Prop :=
  trace p' = trace p ++ t
  ∧ registry_wf p'
  ∧ NoDup (created t).*1
  ∧ (∀ k l, RequestSemaphoreMap p !! k = Some l →
            RequestSemaphoreMap p' !! k = Some l
            ∧ sems p' !! l = sems p !! l
            ∧ k ∉ (created t).*1)
  ∧ (∀ k l, (k, l) ∈ created t →
            RequestSemaphoreMap p' !! k = Some l
            ∧ sems p' !! l = Some (NewSemaphore (MaxStorageThreads P))).

Lemma registry_kept_refl p : registry_wf p → registry_kept p p [].
Proof.
  intros Hwf. unfold registry_kept. rewrite app_nil_r. cbn.
  split; [done|]. split; [done|]. split; [constructor|].
  split; [|intros k l Hin; by apply elem_of_nil in Hin].
  intros k l Hl. repeat split; try done. apply not_elem_of_nil.
Qed.

Lemma registry_kept_grows p p' t :
  registry_wf p → trace p' = trace p ++ t → grows P E p p' t →
  registry_kept p p' t.
Proof.
  intros Hwf Ht [[(Hr & Hs & Hn) Hc]|(sn & (Hnone & Hr & Hs & Hn) & Hc)];
    unfold registry_kept, registry_wf in *; rewrite Hc, ?Hr, ?Hs, ?Hn; cbn.
  - split; [done|]. split; [done|]. split; [constructor|].
    split; [|intros k l Hin; by apply elem_of_nil in Hin].
    intros k l Hl. repeat split; try done. apply not_elem_of_nil.
  - split; [done|]. split; [|split; [|split]].
    + intros k l. destruct (decide (sn = k)) as [->|Hne].
      * rewrite lookup_insert_eq. intros [= <-]. lia.
      * rewrite lookup_insert_ne by done. intros Hl.
        specialize (Hwf _ _ Hl). lia.
    + apply NoDup_singleton.
    + intros k l Hl.
      assert (sn ≠ k) by congruence.
      specialize (Hwf _ _ Hl).
      rewrite !lookup_insert_ne by (done || lia).
      repeat split; try done.
      intros Hin. apply list_elem_of_singleton in Hin. congruence.
    + intros k l Hin. apply list_elem_of_singleton in Hin.
      injection Hin as -> ->. by rewrite !lookup_insert_eq.
Qed.

Lemma registry_kept_trans p p1 p2 t1 t2 :
  registry_kept p p1 t1 → registry_kept p1 p2 t2 →
  registry_kept p p2 (t1 ++ t2).
Proof.
  intros (Ht1 & Hwf1 & Hnd1 & Hold1 & Hnew1) (Ht2 & Hwf2 & Hnd2 & Hold2 & Hnew2).
  unfold registry_kept. rewrite created_app, fmap_app.
  split; [by rewrite Ht2, Ht1, app_assoc|]. split; [done|].
  split; [|split].
  - apply NoDup_app. split; [done|]. split; [|done].
    intros k Hin1 Hin2.
    apply list_elem_of_fmap in Hin1 as ([k' l] & -> & Hin1). cbn in *.
    destruct (Hnew1 _ _ Hin1) as (Hreg & _).
    by destruct (Hold2 _ _ Hreg) as (_ & _ & Hnot).
  - intros k l Hl.
    destruct (Hold1 _ _ Hl) as (Hl1 & Hs1 & Hn1).
    destruct (Hold2 _ _ Hl1) as (Hl2 & Hs2 & Hn2).
    repeat split; [done|congruence|].
    rewrite elem_of_app. tauto.
  - intros k l Hin. apply elem_of_app in Hin as [Hin|Hin].
    + destruct (Hnew1 _ _ Hin) as (Hreg & Hs).
      destruct (Hold2 _ _ Hreg) as (Hreg2 & Hs2 & _).
      split; [done|congruence].
    + by apply Hnew2.
Qed.

Lemma grows_frame (p0 p p' p1 : Proc E) t0 t t1 :
  permits_same E p0 p → grows P E p p' t → permits_same E p' p1 →
  created t0 = [] → created t1 = [] →
  grows P E p0 p1 (t0 ++ t ++ t1).
Proof.
  unfold grows, permits_same, registered.
  intros (Hr0 & Hs0 & Hn0) Hg (Hr1 & Hs1 & Hn1) Hc0 Hc1.
  rewrite !created_app, Hc0, Hc1, app_nil_r. cbn.
  rewrite Hr1, Hs1, Hn1. rewrite Hr0, Hs0, Hn0 in Hg. exact Hg.
Qed.

Lemma Login_grows s :
  ∃ t, trace (proc (Login P E s).2) = trace (proc s) ++ t
       ∧ grows P E (proc s) (proc (Login P E s).2) t.
Proof.
  destruct (Login P E s) as [r s'] eqn:Hrun.
  destruct (Login_course P E s r s' Hrun) as (t1 & t2 & path & Ht & Hg & _).
  by exists (t1 ++ t2).
Qed.

Lemma ReLogin_grows s oldToken :
  ∃ t, trace (proc (ReLogin_locked P E oldToken s).2) = trace (proc s) ++ t
       ∧ grows P E (proc s) (proc (ReLogin_locked P E oldToken s).2) t.
Proof.
  destruct (decide (Token (cli s) = "")) as [Hemp|Htok].
  - rewrite (ReLogin_login_only P E s oldToken Hemp). cbn.
    destruct (Login_grows (locked E s)) as (t & Ht & Hg).
    exists ([EvLock] ++ t ++ [EvUnlock]). split.
    + unfold unlocked. run. rewrite Ht. unfold locked. run.
      by rewrite <- !app_assoc.
    + eapply grows_frame; [..|exact Hg| | |]; try done.
  - destruct (decide (oldToken = Token (cli s))) as [Heq|Hne].
    + destruct (ReLogin_logout_then_login P E s oldToken Htok Heq) as [_ ->].
      destruct (Logout_steady P E (locked E s))
        as (tL & out & (_ & Hs & Hn & Hr & HtL) & _ & HkL & _).
      destruct (Logout P E (locked E s)) as [[[]|msg] s1]; cbn in *.
      * destruct (Login_grows s1) as (t & Ht & Hg).
        exists (([EvLock] ++ tL
                 ++ [EvBaseCall "DELETE" "/sessions"
                       (Url (cli (locked E s))) out])
                ++ t ++ [EvUnlock]). split.
        -- unfold unlocked. run. rewrite Ht, HtL. unfold locked. run.
           by rewrite <- !app_assoc.
        -- eapply grows_frame; [..|exact Hg| | |]; try done.
           rewrite !created_app, HkL. done.
      * exists (([EvLock] ++ tL
                 ++ [EvBaseCall "DELETE" "/sessions"
                       (Url (cli (locked E s))) out])
                ++ [] ++ [EvUnlock]). split.
        -- unfold unlocked. run. rewrite HtL. unfold locked. run.
           by rewrite <- !app_assoc.
        -- eapply (grows_frame _ (proc s1) (proc s1)); try done.
           ++ by left.
           ++ rewrite !created_app, HkL. done.
    + destruct (ReLogin_fast_path P E s oldToken Htok Hne) as [-> Hev].
      exists [EvLock; EvUnlock]. split; [|by left].
      unfold unlocked, locked. run. by rewrite <- app_assoc.
Qed.

(** An operation of some client, whose record is [c] when the operation
    starts; [oldToken] is the token a [ReLogin] read on entry. *)
Inductive Op : Type :=
  | OpLogin (c : RestClient)
  | OpReLogin (c : RestClient) (oldToken : string)
  | OpLogout (c : RestClient)
  | OpBaseCall (c : RestClient) (method url : string)
      (data : option (gmap string any)).

(** What an operation makes of the process state. *)
Definition run_op (op : Op) (p : Proc E) : Proc E :=
  match op with
  | OpLogin c => proc (Login P E {| cli := c; proc := p |}).2
  | OpReLogin c oldToken =>
      proc (ReLogin_locked P E oldToken {| cli := c; proc := p |}).2
  | OpLogout c => proc (Logout P E {| cli := c; proc := p |}).2
  | OpBaseCall c method url data =>
      proc (BaseCall P E method url data {| cli := c; proc := p |}).2
  end.

Definition run_ops (ops : list Op) (p : Proc E) : Proc E :=
  foldl (fun p op => run_op op p) p ops.

Lemma run_op_kept op p :
  registry_wf p → ∃ t, registry_kept p (run_op op p) t.
Proof.
  intros Hwf. destruct op as [c|c old|c|c method url data]; cbn.
  - destruct (Login_grows {| cli := c; proc := p |}) as (t & Ht & Hg).
    exists t. by apply registry_kept_grows.
  - destruct (ReLogin_grows {| cli := c; proc := p |} old) as (t & Ht & Hg).
    exists t. by apply registry_kept_grows.
  - destruct (Logout_steady P E {| cli := c; proc := p |})
      as (t & out & (_ & Hs & Hn & Hr & Ht) & _ & Hk & _).
    eexists. apply registry_kept_grows; [done|exact Ht|].
    left. rewrite created_app, Hk. by repeat split.
  - destruct (BaseCall_steady P E method url data {| cli := c; proc := p |})
      as (t & (_ & Hs & Hn & Hr & Ht) & _ & Hk & _).
    eexists. apply registry_kept_grows; [done|exact Ht|].
    left. rewrite created_app, Hk. by repeat split.
Qed.

Lemma run_ops_kept ops :
  ∀ p, registry_wf p → ∃ t, registry_kept p (run_ops ops p) t.
Proof.
  induction ops as [|op ops IH]; intros p Hwf; cbn.
  - exists []. by apply registry_kept_refl.
  - destruct (run_op_kept op p Hwf) as (t1 & Hk1).
    pose proof Hk1 as (_ & Hwf1 & _).
    destruct (IH _ Hwf1) as (t2 & Hk2).
    exists (t1 ++ t2). by eapply registry_kept_trans.
Qed.

(** C10.  A Login that returns nil keeps the permit registered for the
    device serial number it got, if there is one: registry and permits
    are exactly as before and nothing is created; only when there is
    none it creates one permit of capacity [MaxStorageThreads] and
    registers it.  So over any sequence of Login, ReLogin, Logout and
    BaseCall operations by any clients (run one after the other),
    starting from a process whose allocation is sound: no serial number gets more than one
    permit, a permit that was registered before is still the same
    object with the same capacity and the same number of holders, and
    each permit created is registered with capacity
    [MaxStorageThreads]. *)
Theorem device_permit_created_once :
  (∀ s, (Login P E s).1 = Done None →
     let s' := (Login P E s).2 in
     match RequestSemaphoreMap (proc s) !! DeviceId (cli s') with
     | Some _ =>
         permits_same E (proc s) (proc s')
         ∧ created (new_events s s') = []
     | None =>
         registered P E (DeviceId (cli s')) (proc s) (proc s')
         ∧ created (new_events s s')
           = [(DeviceId (cli s'), next_loc (proc s))]
     end)
  ∧ (∀ ops p, registry_wf p →
       ∃ t, registry_kept p (run_ops ops p) t).
Proof.
  split; [|intros ops p; apply run_ops_kept].
  intros s Hok s'. subst s'.
  destruct (Login P E s) as [r s'] eqn:Hrun. cbn in *. subst r.
  destruct (Login_course P E s _ s' Hrun)
    as (t1 & t2 & path & Ht & _ & Hk1 & _ & _ & Hpath).
  rewrite (new_events_app s s' (t1 ++ t2)) by done.
  rewrite created_app, Hk1. cbn.
  destruct path as [[k e]|]; [|by destruct Hpath as (_ & _ & _ & ? & ?)].
  destruct Hpath as (_ & He).
  destruct e; cbn in He.
  - by destruct He as (_ & _ & ? & _).
  - destruct He as (_ & _ & Hest).
    destruct (Hest eq_refl) as (resp & respData & _ & _ & _ & _ & _ & _ & Hm).
    exact Hm.
  - by destruct He as (_ & _ & _ & _ & ? & ?).
  - by destruct He as (_ & _ & _ & ?).
Qed.

End Registry.

(** Two clients log in to the same device one after the other, then the
    first one logs in again through [ReLogin]. *)
Definition two_clients_one_device : list Op :=
  [OpLogin (Sample.client ["u1"]);
   OpLogin (Sample.client ["u1"; "u2"]);
   OpReLogin
     (set_Token "T1" (set_DeviceId "SN1"
        (set_Url "u1/deviceManager/rest" (Sample.client ["u1"])))) "T1"].

Definition one_array : list (string * DoResult) :=
  [(Sample.login_url "u1", DoBody "login-ok");
   ("u1/deviceManager/rest/SN1/sessions", DoBody "ok")].

Lemma sample_start_wf w : registry_wf Sample.env (Sample.start w).
Proof.
  intros k l. cbn.
  destruct (decide ("UninitializedStorage" = k)) as [<-|Hne].
  - rewrite lookup_insert_eq. intros [= <-]. lia.
  - rewrite lookup_insert_ne by done. by rewrite lookup_empty.
Qed.

Lemma device_permit_created_once_witness :
  created (trace (run_ops Sample.params Sample.env two_clients_one_device
                    (Sample.start one_array)))
  = [("SN1", 2)]
  ∧ ∃ t, registry_kept Sample.params Sample.env (Sample.start one_array)
           (run_ops Sample.params Sample.env two_clients_one_device
              (Sample.start one_array)) t.
Proof.
  split; [vm_compute; reflexivity|].
  destruct (device_permit_created_once Sample.params Sample.env) as (_ & Hseq).
  apply Hseq. apply sample_start_wf.
Defined.

(** ** Call and SafeCall: one retry *)

(** [Call] and [SafeCall] are written over the operations they invoke on
    the client, so that what one invocation does itself can be told from
    what those operations do inside (a [ReLogin] makes its own logout
    and login calls; [SetSystemInfo] queries the array through a nested
    [Call]). *)
Inductive Prog (A : Type) : Type :=
  | Return (a : A)
  | DoBaseCall (method url : string) (data : option (gmap string any))
      (k : Response * error → Prog A)
  | DoSafeBaseCall (method url : string) (data : option (gmap string any))
      (k : Response * error → Prog A)
  | DoReLogin (k : error → Prog A)
  | DoSetSystemInfo (k : error → Prog A).
Arguments Return {A} a.
Arguments DoBaseCall {A} method url data k.
Arguments DoSafeBaseCall {A} method url data k.
Arguments DoReLogin {A} k.
Arguments DoSetSystemInfo {A} k.

(** [RestClient.Call] *)
Definition Call (P : Params) (method url : string)
    (data : option (gmap string any)) : Prog (Response * error) :=
  DoBaseCall method url data (fun '(r, err) =>
  if negb (NeedReLogin P r err) then Return (r, err)
  else
    DoReLogin (fun err =>
    match err with
    | Some e => Return (Response_zero, Some e)
    | None =>
        DoSetSystemInfo (fun err =>
        match err with
        | Some e =>
            Return (Response_zero,
                    Some ("after relogin, can't get system info, error: "
                          +:+ e))
        | None => DoBaseCall method url data Return
        end)
    end)).


(** The operations as implemented on a state of type [S]. *)
Record Handlers (S : Type) : Type := mkHandlers {
  hBaseCall : string → string → option (gmap string any) → S →
              Res (Response * error) * S;
  hSafeBaseCall : string → string → option (gmap string any) → S →
                  Res (Response * error) * S;
  hReLogin : S → Res error * S;
  hSetSystemInfo : S → Res error * S
}.
Arguments hBaseCall {S}.
Arguments hSafeBaseCall {S}.
Arguments hReLogin {S}.
Arguments hSetSystemInfo {S}.

(** What an invocation issued, with how each operation ended. *)
Inductive Step : Type :=
  | SBaseCall (method url : string) (data : option (gmap string any))
      (out : Res (Response * error))
  | SSafeBaseCall (method url : string) (data : option (gmap string any))
      (out : Res (Response * error))
  | SReLogin (out : Res error)
  | SSetSystemInfo (out : Res error).

(** Running a program: result, final state, and the steps issued.  A
    panic of an operation ends the program. *)
Fixpoint exec {S A : Type} (h : Handlers S) (p : Prog A) (s : S)
    : Res A * S * list Step :=
  match p with
  | Return a => (Done a, s, [])
  | DoBaseCall m u d k =>
      let '(r, s1) := hBaseCall h m u d s in
      match r with
      | Done x =>
          let '(r', s', steps) := exec h (k x) s1 in
          (r', s', SBaseCall m u d r :: steps)
      | Panic msg => (Panic msg, s1, [SBaseCall m u d r])
      end
  | DoSafeBaseCall m u d k =>
      let '(r, s1) := hSafeBaseCall h m u d s in
      match r with
      | Done x =>
          let '(r', s', steps) := exec h (k x) s1 in
          (r', s', SSafeBaseCall m u d r :: steps)
      | Panic msg => (Panic msg, s1, [SSafeBaseCall m u d r])
      end
  | DoReLogin k =>
      let '(r, s1) := hReLogin h s in
      match r with
      | Done x =>
          let '(r', s', steps) := exec h (k x) s1 in
          (r', s', SReLogin r :: steps)
      | Panic msg => (Panic msg, s1, [SReLogin r])
      end
  | DoSetSystemInfo k =>
      let '(r, s1) := hSetSystemInfo h s in
      match r with
      | Done x =>
          let '(r', s', steps) := exec h (k x) s1 in
          (r', s', SSetSystemInfo r :: steps)
      | Panic msg => (Panic msg, s1, [SSetSystemInfo r])
      end
  end.



(** The four courses of an invocation whose base call is recorded by
    [base] and which returns [resp1 r1] with the error of a failed
    [ReLogin] and [annot e] for the error [e] of a failed refresh:
    - one base call, no renewal needed (or the call panicked);
    - base call, then a [ReLogin] that failed;
    - base call, [ReLogin], then a refresh that failed;
    - base call, [ReLogin], refresh, and the base call once more, whose
      result is the result. *)
Definition one_retry (need : Response → error → bool)
    (base : Res (Response * error) → Step)
    (resp1 : Response → Response) (annot : string → string)
    (r : Res (Response * error)) (steps : list Step) : Prop :=
  (∃ o1, steps = [base o1]
         ∧ match o1 with
           | Done (r1, e1) => need r1 e1 = false ∧ r = Done (r1, e1)
           | Panic msg => r = Panic msg
           end)
  ∨ (∃ r1 e1 o2, need r1 e1 = true
         ∧ steps = [base (Done (r1, e1)); SReLogin o2]
         ∧ match o2 with
           | Done (Some e) => r = Done (resp1 r1, Some e)
           | Done None => False
           | Panic msg => r = Panic msg
           end)
  ∨ (∃ r1 e1 o3, need r1 e1 = true
         ∧ steps = [base (Done (r1, e1)); SReLogin (Done None);
                    SSetSystemInfo o3]
         ∧ match o3 with
           | Done (Some e) => r = Done (resp1 r1, Some (annot e))
           | Done None => False
           | Panic msg => r = Panic msg
           end)
  ∨ (∃ r1 e1 o4, need r1 e1 = true
         ∧ steps = [base (Done (r1, e1)); SReLogin (Done None);
                    SSetSystemInfo (Done None); base o4]
         ∧ r = o4).


Section OneRetry.
Variable P : Params.
Context {S : Type}.
Variable h : Handlers S.

Lemma Call_one_retry method url data s :
  one_retry (NeedReLogin P) (SBaseCall method url data)
    (fun _ => Response_zero)
    (fun e => "after relogin, can't get system info, error: " +:+ e)
    (exec h (Call P method url data) s).1.1
    (exec h (Call P method url data) s).2.
Proof.
  unfold one_retry, Call. cbn.
  destruct (hBaseCall h method url data s) as [[[r1 e1]|msg] s1]; cbn;
    [|left; eexists; by split].
  destruct (NeedReLogin P r1 e1) eqn:Hneed; cbn;
    [|left; eexists; by split].
  destruct (hReLogin h s1) as [[[e|]|msg] s2]; cbn;
    try (right; left; eexists _, _, _; by repeat split).
  destruct (hSetSystemInfo h s2) as [[[e|]|msg] s3]; cbn;
    try (right; right; left; eexists _, _, _; by repeat split).
  destruct (hBaseCall h method url data s3) as [[[r4 e4]|msg] s4]; cbn;
    right; right; right; eexists _, _, _; by repeat split.
Qed.



End OneRetry.

(** *** The rest client's own operations under Call *)

Section BaseCallers.
Variable P : Params.
Variable E : Env.

(** [GetSystem], over the [Call] that [cli.Get] makes. *)
Definition GetSystem
    (call : string → string → option (gmap string any) →
            M E RestClient (Response * error))
    : M E RestClient (gmap string any + string) :=
  '(resp, err) ← call "GET" "/system/" None;
  match err with
  | Some e => ret (inr e)
  | None =>
      let '(code, msg, err) := FormatRespErr P (Error resp) in
      match err with
      | Some e => ret (inr e)
      | None =>
          if bool_decide (code ≠ 0%Z)
          then ret (inr ("get system info failed, error msg: " +:+ msg))
          else
            match Data resp with
            | Map respData => ret (inl respData)
            | _ => ret (inr "convert respData to map failed")
            end
      end
  end.

(** [SetSystemInfo]: the flag [SystemInfoRefreshing] is 1 while the
    system is queried, and is put back to 0 by the deferred function. *)
Definition SetSystemInfo
    (call : string → string → option (gmap string any) →
            M E RestClient (Response * error))
    : M E RestClient error :=
  modifyCli (set_SystemInfoRefreshing 1%N);;
  finally
    (r ← GetSystem call;
     match r with
     | inr e => ret (Some e)
     | inl system =>
         let '(v, ok) := GetValue_string P system "pointRelease" in
         (if ok then modifyCli (set_StorageVersion v) else ret tt);;
         ret None
     end)
    (modifyCli (set_SystemInfoRefreshing 0%N)).

(** [Call] on the rest client, with [depth] frames of stack left for
    the invocations of [Call] nested in [SetSystemInfo]; running out of
    stack is fatal. *)
Fixpoint Call_at (depth : nat) (method url : string)
    (data : option (gmap string any)) : M E RestClient (Response * error) :=
  match depth with
  | 0 => panic "stack overflow"
  | S d =>
      fun s =>
        (exec {| hBaseCall := BaseCall P E;
                 hSafeBaseCall := fun _ _ _ => panic "not a method of RestClient";
                 hReLogin := ReLogin P E;
                 hSetSystemInfo := SetSystemInfo (Call_at d) |}
              (Call P method url data) s).1
  end.

(** The handlers of the invocation at depth [S d]. *)
Definition rest_handlers (d : nat) : Handlers (St E RestClient) :=
  {| hBaseCall := BaseCall P E;
     hSafeBaseCall := fun _ _ _ => panic "not a method of RestClient";
     hReLogin := ReLogin P E;
     hSetSystemInfo := SetSystemInfo (Call_at d) |}.

Lemma Call_at_one_retry d method url data s :
  one_retry (NeedReLogin P) (SBaseCall method url data)
    (fun _ => Response_zero)
    (fun e => "after relogin, can't get system info, error: " +:+ e)
    (Call_at (S d) method url data s).1
    (exec (rest_handlers d) (Call P method url data) s).2.
Proof. apply (Call_one_retry P (rest_handlers d)). Qed.

End BaseCallers.

(** The array reports an expired session for [/lun] also after the
    renewal: [Call] renews once, sends the request once more, and
    returns what it got. *)
Definition always_expired : St Sample.env RestClient :=
  in_session
    [("u1/deviceManager/rest/SN1/lun", DoBody "expired");
     ("u1/deviceManager/rest/SN1/sessions", DoBody "ok");
     (Sample.login_url "u1", DoBody "login-ok");
     ("u1/deviceManager/rest/SN1/system/", DoBody "ok")].

(** The query of [SetSystemInfo] is itself a [Call].  An array that
    answers it, too, with the renewal code makes that nested invocation
    renew the session again, and so on until the stack is used up (here
    four frames, four logouts); each invocation still follows
    [one_retry]. *)
Definition system_expired : St Sample.env RestClient :=
  in_session
    [("u1/deviceManager/rest/SN1/lun", DoBody "expired");
     ("u1/deviceManager/rest/SN1/sessions", DoBody "ok");
     (Sample.login_url "u1", DoBody "login-ok");
     ("u1/deviceManager/rest/SN1/system/", DoBody "expired")].

Example nested_renewals :
  (Call_at Sample.params Sample.env 4 "GET" "/lun" None system_expired).1
  = Panic "stack overflow"
  ∧ length (List.filter
              (fun c : string * string * string * Res error =>
                 String.eqb c.1.1.2 "/sessions")
              (basecalls
                 (new_events system_expired
                    (Call_at Sample.params Sample.env 4 "GET" "/lun" None
                       system_expired).2)))
    = 4
  ∧ (exec (rest_handlers Sample.params Sample.env 3)
       (Call Sample.params "GET" "/lun" None) system_expired).2
    = [SBaseCall "GET" "/lun" None (Done (Sample.envelope (-401) Nil, None));
       SReLogin (Done None);
       SSetSystemInfo (Panic "stack overflow")].
Proof. vm_compute. repeat split; reflexivity. Qed.

Example call_renews_once :
  let c := exec (rest_handlers Sample.params Sample.env 3)
             (Call Sample.params "GET" "/lun" None) always_expired in
  c.2 = [SBaseCall "GET" "/lun" None (Done (Sample.envelope (-401) Nil, None));
         SReLogin (Done None);
         SSetSystemInfo (Done None);
         SBaseCall "GET" "/lun" None (Done (Sample.envelope (-401) Nil, None))]
  ∧ c.1.1 = Done (Sample.envelope (-401) Nil, None)
  ∧ SystemInfoRefreshing (cli c.1.2) = 0%N.
Proof. vm_compute. repeat split; reflexivity. Qed.








(** ** The oceanstor client: SafeBaseCall and the site guard *)

(** The client of package [client] (oceanstor).  The declaration of its
    rest client is not in the sources; the fields are those the methods
    below use: the ones of the base rest client, and the identities of
    the logical port recorded at login ([CurrentLifWwn]) and of the
    site ([CurrentSiteWwn]). *)
Record OceanstorClient : Type := mkOceanstorClient {
  rest : RestClient;
  CurrentLifWwn : string;
  CurrentSiteWwn : string
}.

(** [systemInfoRefreshing]: [atomic.LoadUint32(&flag) == 1] *)
Definition systemInfoRefreshing (c : OceanstorClient) : bool :=
  (SystemInfoRefreshing (rest c) =? 1)%N.

Section Oceanstor.
Variable P : Params.
Variable E : Env.

(** Methods of the oceanstor rest client that are not in the sources:
    request construction, and the name of the current logical port. *)
Variable oc_GetRequest :
  OceanstorClient → string → string → option (gmap string any) →
  Request + string.
Variable GetCurrentLif : OceanstorClient → string.

Abbreviation OMeth := (M E OceanstorClient).

Definition safeDoCall (method url : string) (req : Request)
    : OMeth (Response * error) :=
  c ← getCli;
  let isNotSessionUrl :=
    bool_decide (url ≠ "/xx/sessions") && bool_decide (url ≠ "/sessions") in
  let refused : error :=
    if isNotSessionUrl && bool_decide (CurrentLifWwn c ≠ "") then
      if systemInfoRefreshing c
      then Some "querying lif and system information... Please wait"
      else if bool_decide (CurrentLifWwn c ≠ CurrentSiteWwn c)
      then Some ("current logical port [" +:+ GetCurrentLif c
                 +:+ "] is not running on own site")
      else None
    else None in
  match refused with
  | Some e => ret (Response_zero, Some e)
  | None =>
      match Client (rest c) with
      | None => panic "nil pointer dereference"
      | Some h =>
          emit (EvDo h req);;
          d ← external (http_Do E h req);
          match d with
          | DoErr _ => ret (Response_zero, Some (Unconnected P))
          | DoReadErr e =>
              ret (Response_zero, Some ("read response data error: " +:+ e))
          | DoBody body =>
              match json_Unmarshal P body with
              | inr e =>
                  ret (Response_zero, Some ("json.Unmarshal data error: " +:+ e))
              | inl r => ret (r, None)
              end
          end
      end
  end.

(** [if sem != nil { sem.Acquire(); defer sem.Release() }] around the
    rest of the function. *)
Definition with_permit {A} (sem : option loc) (body : OMeth A) : OMeth A :=
  match sem with
  | Some l => Acquire l;; finally body (Release l)
  | None => body
  end.

Definition SafeBaseCall (method url : string)
    (data : option (gmap string any)) : OMeth (Response * error) :=
  c ← getCli;
  match Client (rest c) with
  | None =>
      ret (Response_zero,
           Some ("failed to send request method: " +:+ method +:+ ", url: "
                 +:+ url +:+ ", cause by client not init"))
  | Some _ =>
      r ← (if bool_decide (url ≠ "/xx/sessions")
              && bool_decide (url ≠ "/sessions")
           then
             emit EvLock;;
             let r := oc_GetRequest c method url data in
             emit EvUnlock;;
             ret r
           else ret (oc_GetRequest c method url data));
      match r with
      | inr e => ret (Response_zero, Some ("get request failed, error: " +:+ e))
      | inl req =>
          with_permit (RequestSemaphore (rest c))
            (dev ← registry_lookup (GetDeviceSN (rest c));
             with_permit dev (safeDoCall method url req))
      end
  end.

Arguments safeDoCall : simpl never.

(** With a recorded logical port, a call to an ordinary path while the
    flag is set is refused by [safeDoCall] before anything is sent; the
    state is left as it is. *)
Lemma safeDoCall_refreshing method url req s :
  systemInfoRefreshing (cli s) = true →
  url ≠ "/xx/sessions" → url ≠ "/sessions" →
  CurrentLifWwn (cli s) ≠ "" →
  safeDoCall method url req s
  = (Done (Response_zero,
           Some "querying lif and system information... Please wait"), s).
Proof.
  intros Hflag H1 H2 Hlif. unfold safeDoCall. run.
  by rewrite !bool_decide_eq_true_2, Hflag by done.
Qed.

(** C6, as amended.  While [SystemInfoRefreshing] is set, a call to a
    path other than login and logout by a client that has recorded a
    logical port ([CurrentLifWwn] not empty) is refused: [safeDoCall]
    returns the error "querying lif and system information... Please
    wait" and leaves the state as it is, and [SafeBaseCall] sends no
    request, gives the permits back and returns an error, which is that
    one when a transport is configured and the request could be built. *)
Theorem refreshing_fails_fast (s : St E OceanstorClient)
    (method url : string) (data : option (gmap string any)) :
  systemInfoRefreshing (cli s) = true →
  url ≠ "/xx/sessions" → url ≠ "/sessions" →
  CurrentLifWwn (cli s) ≠ "" →
  let refreshing := "querying lif and system information... Please wait" in
  (∀ req, safeDoCall method url req s
          = (Done (Response_zero, Some refreshing), s))
  ∧ requests (new_events s (SafeBaseCall method url data s).2) = []
  ∧ sems (proc (SafeBaseCall method url data s).2) = sems (proc s)
  ∧ (∃ e, (SafeBaseCall method url data s).1 = Done (Response_zero, Some e))
  ∧ (∀ h req, Client (rest (cli s)) = Some h →
              oc_GetRequest (cli s) method url data = inl req →
              (SafeBaseCall method url data s).1
              = Done (Response_zero, Some refreshing)).
Proof.
  intros Hflag H1 H2 Hlif refreshing. subst refreshing.
  split; [intros req; by apply safeDoCall_refreshing|].
  destruct (SafeBaseCall method url data s) as [r s'] eqn:HS. cbn.
  unfold SafeBaseCall in HS. run.
  destruct (Client (rest (cli s))) as [h|] eqn:Hh; run.
  2: { injection HS as <- <-. unfold new_events. rewrite drop_all.
       repeat split; eauto. intros; done. }
  rewrite !bool_decide_eq_true_2 in HS by done. run.
  destruct (oc_GetRequest (cli s) method url data) as [req|e] eqn:Hreq; run.
  2: { injection HS as <- <-.
       rewrite (new_events_app _ _ [EvLock; EvUnlock])
         by (cbn; by rewrite <- app_assoc).
       repeat split; eauto. intros; done. }
  unfold with_permit in HS.
  destruct (RequestSemaphore (rest (cli s))) as [cs|]; run;
    destruct (RequestSemaphoreMap (proc s) !! GetDeviceSN (rest (cli s)))
      as [l|]; run;
    rewrite safeDoCall_refreshing in HS by done; run;
    injection HS as <- <-; cbn; rewrite ?alter_release_acquire.
  all: (erewrite new_events_app;
        [|cbn; rewrite <- !app_assoc; reflexivity]).
  all: repeat split; eauto.
Qed.

End Oceanstor.

Section OceanstorPermits.
Variable P : Params.
Variable E : Env.
Variable oc_GetRequest :
  OceanstorClient → string → string → option (gmap string any) →
  Request + string.
Variable GetCurrentLif : OceanstorClient → string.

(** The site guard of [safeDoCall] lets the call to [url] through: a
    login or logout path, or no logical port recorded, or no refresh
    under way and the port on its own site. *)
Definition passes_site_guard (c : OceanstorClient) (url : string) : Prop :=
  url = "/xx/sessions" ∨ url = "/sessions"
  ∨ CurrentLifWwn c = ""
  ∨ (systemInfoRefreshing c = false ∧ CurrentLifWwn c = CurrentSiteWwn c).

Lemma safeDoCall_sends method url req s h :
  passes_site_guard (cli s) url →
  Client (rest (cli s)) = Some h →
  ∃ r w,
    safeDoCall P E GetCurrentLif method url req s
    = (Done r,
       {| cli := cli s;
          proc := mkProc (sems (proc s)) (next_loc (proc s))
                    (RequestSemaphoreMap (proc s)) w
                    (trace (proc s) ++ [EvDo h req]) |}).
Proof.
  intros Hpass Hh. unfold safeDoCall. run.
  assert (Hguard :
    (if bool_decide (url ≠ "/xx/sessions") && bool_decide (url ≠ "/sessions")
        && bool_decide (CurrentLifWwn (cli s) ≠ "")
     then if systemInfoRefreshing (cli s)
          then Some "querying lif and system information... Please wait"
          else if bool_decide (CurrentLifWwn (cli s) ≠ CurrentSiteWwn (cli s))
               then Some ("current logical port [" +:+ GetCurrentLif (cli s)
                          +:+ "] is not running on own site")
               else None
     else None) = None).
  { destruct Hpass as [->|[->|[Hl|[Hf Hl]]]]; try done.
    - rewrite (bool_decide_eq_false_2 (CurrentLifWwn (cli s) ≠ ""))
        by (by intros []).
      by rewrite andb_false_r.
    - rewrite Hf.
      rewrite (bool_decide_eq_false_2 (_ ≠ CurrentSiteWwn _))
        by (by intros []).
      by destruct (_ && _). }
  rewrite Hguard, Hh. run.
  destruct (http_Do E h req (world (proc s))) as [d w]; run.
  destruct d as [e|e|body]; run; [| |destruct (json_Unmarshal P body); run];
    by eexists _, _.
Qed.

(** The permits [SafeBaseCall] holds during the exchange: the client's
    if it has one, and the device's if one is registered. *)
Definition held_permits (s : St E OceanstorClient) : list loc :=
  option_list (RequestSemaphore (rest (cli s)))
  ++ option_list (RequestSemaphoreMap (proc s) !! GetDeviceSN (rest (cli s))).

Lemma SafeBaseCall_permit_order (s : St E OceanstorClient)
    (method url : string) (data : option (gmap string any))
    (h : HTTP) (req : Request) :
  Client (rest (cli s)) = Some h →
  oc_GetRequest (cli s) method url data = inl req →
  passes_site_guard (cli s) url →
  let s' := (SafeBaseCall P E oc_GetRequest GetCurrentLif method url data s).2 in
  (∃ pre, (pre = [] ∨ pre = [EvLock; EvUnlock])
     ∧ new_events s s'
       = pre ++ (EvAcquire <$> held_permits s) ++ [EvDo h req]
             ++ (EvRelease <$> reverse (held_permits s)))
  ∧ sems (proc s') = sems (proc s).
Proof.
  intros Hh Hreq Hpass s'. subst s'. unfold held_permits.
  destruct (SafeBaseCall P E oc_GetRequest GetCurrentLif method url data s)
    as [r s'] eqn:HS. cbn.
  unfold SafeBaseCall, with_permit in HS. run. rewrite Hh in HS. run.
  rewrite Hreq in HS.
  destruct (bool_decide (url ≠ "/xx/sessions")
            && bool_decide (url ≠ "/sessions")); run.
  all: destruct (RequestSemaphore (rest (cli s))) as [cs|]; run.
  all: destruct (RequestSemaphoreMap (proc s) !! GetDeviceSN (rest (cli s)))
         as [l|]; run.
  all: match type of HS with
       | context [safeDoCall _ _ _ ?m ?u ?q ?s0] =>
           destruct (safeDoCall_sends m u q s0 _ Hpass Hh)
             as (r0 & w & Hsend); rewrite Hsend in HS; run
       end.
  all: injection HS as <- <-; cbn; rewrite ?alter_release_acquire.
  all: (split; [|done]).
  all: first
    [ exists []; split; [by left|];
      apply new_events_app; cbn; by rewrite <- ?app_assoc
    | exists [EvLock; EvUnlock]; split; [by right|];
      apply new_events_app; cbn; by rewrite <- ?app_assoc ].
Qed.

(** C8, as amended.  [RestClient.BaseCall] does what the claim says:
    client-level permit, then device-level permit (the default bucket's
    when none is registered for the serial number), the exchange, then
    both released for every outcome.  [OceanstorClient.SafeBaseCall]
    acquires the client-level permit if the client has one and then the
    device-level permit if one is registered, without a default bucket,
    sends, and releases what it holds in the reverse order for every
    outcome. *)
Theorem permits_around_exchange :
  (∀ (s : St E RestClient) method url data h req cs dev,
     Client (cli s) = Some h →
     GetRequest P (cli s) method url data = inl req →
     RequestSemaphore (cli s) = Some cs →
     device_permit P E (proc s) (cli s) = Some dev →
     let r := (BaseCall P E method url data s).1 in
     let s' := (BaseCall P E method url data s).2 in
     (∃ pre, (pre = [] ∨ pre = [EvLock; EvUnlock])
        ∧ new_events s s'
          = pre ++ [EvAcquire cs; EvAcquire dev; EvDo h req;
                    EvRelease dev; EvRelease cs;
                    EvBaseCall method url (Url (cli s)) (outcome r)])
     ∧ (RequestSemaphoreMap (proc s) !! GetDeviceSN (cli s) = None →
        RequestSemaphoreMap (proc s) !! UninitializedStorage P = Some dev)
     ∧ sems (proc s') = sems (proc s)
     ∧ ∃ resp err, r = Done (resp, err))
  ∧ (∀ (s : St E OceanstorClient) method url data h req,
     Client (rest (cli s)) = Some h →
     oc_GetRequest (cli s) method url data = inl req →
     passes_site_guard (cli s) url →
     let s' := (SafeBaseCall P E oc_GetRequest GetCurrentLif
                  method url data s).2 in
     (∃ pre, (pre = [] ∨ pre = [EvLock; EvUnlock])
        ∧ new_events s s'
          = pre ++ (EvAcquire <$> held_permits s) ++ [EvDo h req]
                ++ (EvRelease <$> reverse (held_permits s)))
     ∧ sems (proc s') = sems (proc s)).
Proof.
  split.
  - intros. by apply BaseCall_permit_order.
  - intros. by apply SafeBaseCall_permit_order.
Qed.

End OceanstorPermits.

(** An oceanstor client in session on SN1, with the recorded logical
    port [lif], the site identity [site] and the refreshing flag
    [flag]. *)
Definition oc_state (lif site : string) (flag : N)
    (w : list (string * DoResult)) : St Sample.env OceanstorClient :=
  {| cli := {| rest := set_SystemInfoRefreshing flag (cli (in_session []));
               CurrentLifWwn := lif;
               CurrentSiteWwn := site |};
     proc := Sample.start w |}.

(** Stand-ins for the two methods that are not in the sources. *)
Definition oc_request (c : OceanstorClient) :=
  GetRequest Sample.params (rest c).
Definition oc_lif (c : OceanstorClient) : string := "lif1".

Definition lun_answers : list (string * DoResult) :=
  [("u1/deviceManager/rest/SN1/lun", DoBody "ok")].

Lemma refreshing_fails_fast_witness :
  (SafeBaseCall Sample.params Sample.env oc_request oc_lif "GET" "/lun" None
     (oc_state "wwn1" "wwn1" 1 lun_answers)).1
  = Done (Response_zero,
          Some "querying lif and system information... Please wait")
  ∧ requests
      (new_events (oc_state "wwn1" "wwn1" 1 lun_answers)
         (SafeBaseCall Sample.params Sample.env oc_request oc_lif
            "GET" "/lun" None (oc_state "wwn1" "wwn1" 1 lun_answers)).2)
    = [].
Proof.
  destruct (oc_request (cli (oc_state "wwn1" "wwn1" 1 lun_answers))
              "GET" "/lun" None) as [req|e] eqn:Hreq;
    [|vm_compute in Hreq; discriminate Hreq].
  destruct (refreshing_fails_fast Sample.params Sample.env oc_request oc_lif
              (oc_state "wwn1" "wwn1" 1 lun_answers) "GET" "/lun" None
              eq_refl ltac:(discriminate) ltac:(discriminate)
              ltac:(discriminate))
    as (_ & Hnone & _ & _ & Herr).
  split; [|exact Hnone].
  exact (Herr 1 req eq_refl Hreq).
Defined.

(** C6 as stated fails: with the flag set but no logical port recorded,
    the guard is skipped and the request is sent and answered. *)
Lemma refreshing_without_lif_sends :
  systemInfoRefreshing (cli (oc_state "" "" 1 lun_answers)) = true
  ∧ (SafeBaseCall Sample.params Sample.env oc_request oc_lif "GET" "/lun" None
       (oc_state "" "" 1 lun_answers)).1
    = Done (Sample.envelope 0 (Map ∅), None)
  ∧ length (requests
              (new_events (oc_state "" "" 1 lun_answers)
                 (SafeBaseCall Sample.params Sample.env oc_request oc_lif
                    "GET" "/lun" None (oc_state "" "" 1 lun_answers)).2))
    = 1.
Proof. vm_compute. repeat split; reflexivity. Qed.

(** [BaseCall] of the base rest client does not look at the flag. *)
Example basecall_ignores_refreshing :
  let s := {| cli := set_SystemInfoRefreshing 1 (cli (in_session []));
              proc := Sample.start lun_answers |} in
  (BaseCall Sample.params Sample.env "GET" "/lun" None s).1
  = Done (Sample.envelope 0 (Map ∅), None).
Proof. vm_compute. reflexivity. Qed.

(** A call by a rest client whose device is not known yet takes the
    default bucket (permit 1) after its own permit (permit 0); the same
    call through [SafeBaseCall] by an oceanstor client whose device has
    no permit takes the client's permit only. *)
Lemma permits_around_exchange_witness :
  permit_ops
    (new_events (sample_state ["u1"] [])
       (BaseCall Sample.params Sample.env "GET" "/lun" None
          (sample_state ["u1"] [])).2)
  = [(true, 0); (true, 1); (false, 1); (false, 0)]
  ∧ permit_ops
      (new_events (oc_state "" "" 0 lun_answers)
         (SafeBaseCall Sample.params Sample.env oc_request oc_lif
            "GET" "/lun" None (oc_state "" "" 0 lun_answers)).2)
    = [(true, 0); (false, 0)].
Proof.
  destruct (permits_around_exchange Sample.params Sample.env
              oc_request oc_lif) as (Hbase & Hsafe).
  split.
  - destruct (GetRequest Sample.params (cli (sample_state ["u1"] []))
                "GET" "/lun" None) as [req|e] eqn:Hreq;
      [|vm_compute in Hreq; discriminate Hreq].
    assert (Hdev : device_permit Sample.params Sample.env
                     (proc (sample_state ["u1"] []))
                     (cli (sample_state ["u1"] [])) = Some 1)
      by (vm_compute; reflexivity).
    destruct (Hbase (sample_state ["u1"] []) "GET" "/lun" None 1 req 0 1
                eq_refl Hreq eq_refl Hdev)
      as ((pre & Hpre & Hev) & _).
    rewrite Hev. by destruct Hpre as [-> | ->].
  - destruct (oc_request (cli (oc_state "" "" 0 lun_answers))
                "GET" "/lun" None) as [req|e] eqn:Hreq;
      [|vm_compute in Hreq; discriminate Hreq].
    assert (Hpass : passes_site_guard (cli (oc_state "" "" 0 lun_answers))
                      "/lun") by (right; right; by left).
    destruct (Hsafe (oc_state "" "" 0 lun_answers) "GET" "/lun" None 1 req
                eq_refl Hreq Hpass)
      as ((pre & Hpre & Hev) & _).
    rewrite Hev.
    assert (Hheld : held_permits Sample.env (oc_state "" "" 0 lun_answers)
                    = [0]) by (vm_compute; reflexivity).
    rewrite Hheld. by destruct Hpre as [-> | ->].
Defined.

(** C8 as stated fails for [SafeBaseCall]: the default bucket is
    registered and the device SN1 has no permit, yet the request is sent
    while only the client's permit is held. *)
Lemma safebasecall_skips_default_bucket :
  RequestSemaphoreMap (proc (oc_state "" "" 0 lun_answers))
    !! UninitializedStorage Sample.params = Some 1
  ∧ RequestSemaphoreMap (proc (oc_state "" "" 0 lun_answers))
      !! GetDeviceSN (rest (cli (oc_state "" "" 0 lun_answers))) = None
  ∧ length (requests
              (new_events (oc_state "" "" 0 lun_answers)
                 (SafeBaseCall Sample.params Sample.env oc_request oc_lif
                    "GET" "/lun" None (oc_state "" "" 0 lun_answers)).2))
    = 1
  ∧ permit_ops
      (new_events (oc_state "" "" 0 lun_answers)
         (SafeBaseCall Sample.params Sample.env oc_request oc_lif
            "GET" "/lun" None (oc_state "" "" 0 lun_answers)).2)
    = [(true, 0); (false, 0)].
Proof. vm_compute. repeat split; reflexivity. Qed.

(** * Further properties of the code

    What follows covers the functions around the ones above: the edge
    cases of [BaseCall], the bookkeeping of [Login] and [ReLogin],
    [SetSystemInfo], [NewRestClient], [ValidateLogin], the helpers of
    the oceanstor client, and the NFS connector. *)

(** ** BaseCall: what it needs, and what it leaves alone *)

(** The notifications to the backend-status sink in a trace. *)
Definition offline_marks (t : list Event) : list string :=
  omap (fun e => match e with EvOffline b => Some b | _ => None end) t.

(** The traffic on [ReLoginMutex]: [true] for a lock, [false] for an
    unlock. *)
Definition lock_ops (t : list Event) : list bool :=
  omap (fun e => match e with
                 | EvLock => Some true
                 | EvUnlock => Some false
                 | _ => None
                 end) t.

Lemma offline_marks_app t1 t2 :
  offline_marks (t1 ++ t2) = offline_marks t1 ++ offline_marks t2.
Proof. apply omap_app. Qed.

Lemma lock_ops_app t1 t2 : lock_ops (t1 ++ t2) = lock_ops t1 ++ lock_ops t2.
Proof. apply omap_app. Qed.

Lemma permit_ops_app t1 t2 :
  permit_ops (t1 ++ t2) = permit_ops t1 ++ permit_ops t2.
Proof. apply omap_app. Qed.

(** What the exchange [Client.Do], [ReadAll], [json.Unmarshal] makes of
    the answer [d] of the network. *)
Definition exchange_result (P : Params) (d : DoResult) : Response * error :=
  match d with
  | DoErr _ => (Response_zero, Some (Unconnected P))
  | DoReadErr e => (Response_zero, Some e)
  | DoBody body =>
      match json_Unmarshal P body with
      | inr e => (Response_zero, Some e)
      | inl r => (r, None)
      end
  end.

Section BaseCallEdges.
Variable P : Params.
Variable E : Env.

(** The events of [BaseCall] before its own record: no status
    notification; the lock is taken and given back once around the
    construction of the request, and not at all on the login and logout
    paths; at most one request is sent. *)
Lemma BaseCall_body_events method url data s :
  ∃ t, trace (proc (BaseCall_body P E method url data s).2)
       = trace (proc s) ++ t
       ∧ offline_marks t = []
       ∧ (lock_ops t = [] ∨ (is_session_url url = false
                             ∧ lock_ops t = [true; false]))
       ∧ length (requests t) ≤ 1.
Proof.
  unfold BaseCall_body, send. run.
  destruct (Client (cli s)) as [h|]; run;
    [| exists []; rewrite app_nil_r; by auto].
  destruct (is_session_url url) eqn:Hu; run;
    (destruct (GetRequest P (cli s) method url data) as [req|e]; run;
      [| eexists; rewrite <- ?app_assoc;
         split; [first [reflexivity | symmetry; apply app_nil_r]|];
         cbn; by auto]);
    (destruct (RequestSemaphore (cli s)) as [cs|]; run;
      [| eexists; rewrite <- ?app_assoc;
         split; [first [reflexivity | symmetry; apply app_nil_r]|];
         cbn; by auto]);
    (destruct (RequestSemaphoreMap (proc s) !! GetDeviceSN (cli s)) as [l|];
      run;
      [| destruct (RequestSemaphoreMap (proc s) !! UninitializedStorage P)
           as [l|]; run]);
    try (destruct (http_Do E h req (world (proc s))) as [d w]; run;
         destruct d as [e|e|body]; run;
         [| | destruct (json_Unmarshal P body); run]);
    rewrite <- ?app_assoc;
    eexists; (split; [reflexivity|]); cbn; by auto.
Qed.

Lemma BaseCall_events method url data s :
  ∃ t, trace (proc (BaseCall P E method url data s).2)
       = trace (proc s) ++ t
            ++ [EvBaseCall method url (Url (cli s))
                  (outcome (BaseCall P E method url data s).1)]
       ∧ offline_marks t = []
       ∧ (lock_ops t = [] ∨ (is_session_url url = false
                             ∧ lock_ops t = [true; false]))
       ∧ length (requests t) ≤ 1.
Proof.
  destruct (BaseCall_body_events method url data s) as (t & Ht & H).
  exists t. split; [|exact H]. unfold BaseCall.
  destruct (BaseCall_body P E method url data s) as [r s1]; run.
  rewrite Ht, app_assoc. by destruct r as [[? ?]|].
Qed.

(** X1.  A client that is not ready.  Without a transport [BaseCall]
    returns "http client is nil" and does nothing else; when the request
    cannot be built it returns the error of [GetRequest]; without a
    client-level permit it returns "request semaphore is nil".  In the
    three cases no permit is acquired and no request is sent. *)
Theorem basecall_refuses_unready_client (s : St E RestClient)
    (method url : string) (data : option (gmap string any)) :
  let r := (BaseCall P E method url data s).1 in
  let t := new_events s (BaseCall P E method url data s).2 in
  (Client (cli s) = None →
     r = Done (Response_zero, Some "http client is nil")
     ∧ t = [EvBaseCall method url (Url (cli s)) (outcome r)])
  ∧ (∀ h e, Client (cli s) = Some h →
       GetRequest P (cli s) method url data = inr e →
       r = Done (Response_zero, Some e)
       ∧ requests t = [] ∧ permit_ops t = [])
  ∧ (∀ h req, Client (cli s) = Some h →
       GetRequest P (cli s) method url data = inl req →
       RequestSemaphore (cli s) = None →
       r = Done (Response_zero, Some "request semaphore is nil")
       ∧ requests t = [] ∧ permit_ops t = []).
Proof.
  intros r t. subst r t.
  destruct (BaseCall P E method url data s) as [r s'] eqn:HB. cbn.
  unfold BaseCall, BaseCall_body in HB. run.
  split; [|split].
  - intros Hc. rewrite Hc in HB. run. injection HB as <- <-.
    split; [done|]. by apply new_events_app.
  - intros h e Hc Hr. rewrite Hc in HB. run. rewrite Hr in HB.
    destruct (is_session_url url); run; injection HB as <- <-;
      (split; [done|]);
      erewrite new_events_app by (cbn; rewrite <- ?app_assoc; reflexivity);
      done.
  - intros h req Hc Hr Hs. rewrite Hc in HB. run. rewrite Hr in HB.
    destruct (is_session_url url); run; rewrite Hs in HB; run;
      injection HB as <- <-; (split; [done|]);
      erewrite new_events_app by (cbn; rewrite <- ?app_assoc; reflexivity);
      done.
Qed.

(** X2.  In a [BaseCall] that gets to send, the result is made from
    what the network gave and nothing else: any failure of [Client.Do]
    is reported as the sentinel [Unconnected] (the cause is dropped), a
    failure to read or to decode the body is passed on, and the error
    is nil exactly when the body was read and decoded, in which case
    the decoded envelope is returned.  The world moves on by that one
    exchange. *)
Theorem basecall_result_of_exchange (s : St E RestClient)
    (method url : string) (data : option (gmap string any))
    (h : HTTP) (req : Request) (cs dev : loc) :
  Client (cli s) = Some h →
  GetRequest P (cli s) method url data = inl req →
  RequestSemaphore (cli s) = Some cs →
  device_permit P E (proc s) (cli s) = Some dev →
  let d := http_Do E h req (world (proc s)) in
  (BaseCall P E method url data s).1 = Done (exchange_result P d.1)
  ∧ world (proc (BaseCall P E method url data s).2) = d.2
  ∧ ((exchange_result P d.1).2 = None ↔
     ∃ body, d.1 = DoBody body
             ∧ json_Unmarshal P body = inl (exchange_result P d.1).1)
  ∧ (∀ e, d.1 = DoErr e →
          exchange_result P d.1 = (Response_zero, Some (Unconnected P))).
Proof.
  intros Hh Hreq Hcs Hdev d. subst d.
  unfold device_permit in Hdev.
  destruct (BaseCall P E method url data s) as [r s'] eqn:HB. cbn.
  unfold BaseCall, BaseCall_body, send in HB; run;
    rewrite Hh in HB; run; rewrite Hreq in HB.
  destruct (is_session_url url); run; rewrite Hcs in HB; run.
  all: destruct (RequestSemaphoreMap (proc s) !! GetDeviceSN (cli s))
         as [l|]; run; [injection Hdev as -> | rewrite Hdev in HB; run].
  all: destruct (http_Do E h req (world (proc s))) as [d w]; run.
  all: destruct d as [e|e|body]; run;
         [| | destruct (json_Unmarshal P body) as [resp|e] eqn:Hj; run].
  all: injection HB as <- <-; cbn.
  all: repeat split; try done.
  all: try (intros (? & ? & ?); congruence).
  all: try (intros _; eexists; split; [reflexivity|congruence]).
  all: try (intros ? ?; congruence).
Qed.

(** X3.  Whatever its outcome, a panic included, [BaseCall] leaves the
    client record, the registry and every permit's holders as they
    were, notifies nobody, and sends at most one request: it never
    retries by itself. *)
Theorem basecall_leaves_client_and_permits (s : St E RestClient)
    (method url : string) (data : option (gmap string any)) :
  let s' := (BaseCall P E method url data s).2 in
  cli s' = cli s
  ∧ permits_same E (proc s) (proc s')
  ∧ created (new_events s s') = []
  ∧ offline_marks (new_events s s') = []
  ∧ length (requests (new_events s s')) ≤ 1
  ∧ length (basecalls (new_events s s')) = 1.
Proof.
  intros s'. subst s'.
  destruct (BaseCall_steady P E method url data s)
    as (t0 & (Hc & Hs & Hn & Hr & Ht) & Hb & Hk & _).
  destruct (BaseCall_events method url data s) as (t & Ht' & Ho & _ & Hq).
  rewrite (new_events_app _ _ _ Ht').
  apply new_events_app in Ht. apply new_events_app in Ht'.
  assert (Heq : t0 = t).
  { rewrite Ht in Ht'. by apply app_inv_tail in Ht'. }
  subst t0.
  rewrite created_app, offline_marks_app, requests_app, basecalls_app.
  rewrite Hk, Ho, Hb. cbn. rewrite app_nil_r.
  repeat split; try done.
Qed.

End BaseCallEdges.

Lemma basecall_result_of_exchange_witness :
  (BaseCall Sample.params Sample.env "GET" "/lun" None
     (in_session lun_answers)).1
  = Done (Sample.envelope 0 (Map ∅), None).
Proof.
  assert (Hreq : ∃ req,
            GetRequest Sample.params (cli (in_session lun_answers))
              "GET" "/lun" None = inl req
            ∧ URL req = "u1/deviceManager/rest/SN1/lun")
    by (vm_compute; eexists; split; reflexivity).
  destruct Hreq as (req & Hreq & Hurl).
  assert (Hdev : device_permit Sample.params Sample.env
                   (proc (in_session lun_answers))
                   (cli (in_session lun_answers)) = Some 1)
    by (vm_compute; reflexivity).
  destruct (basecall_result_of_exchange Sample.params Sample.env
              (in_session lun_answers) "GET" "/lun" None 1 req 0 1
              eq_refl Hreq eq_refl Hdev) as (H & _).
  rewrite H. cbn. rewrite Hurl. vm_compute. reflexivity.
Defined.

(** ** Login and ReLogin: status notifications and the lock *)

Section Marks.
Variable P : Params.
Variable E : Env.

(** A method that takes [s] to [s'] added [t] to the trace, without a
    status notification and without touching the lock. *)
Definition quiet (s s' : St E RestClient) (t : list Event) : Prop :=
  trace (proc s') = trace (proc s) ++ t
  ∧ offline_marks t = []
  ∧ lock_ops t = [].

(** The part of the client record that is configuration: where the
    client belongs, its permit, the refreshing flag. *)
Definition same_config (c c' : RestClient) : Prop :=
  BackendID c' = BackendID c
  ∧ SecretName c' = SecretName c
  ∧ SecretNamespace c' = SecretNamespace c
  ∧ Storage c' = Storage c
  ∧ StorageVersion c' = StorageVersion c
  ∧ RequestSemaphore c' = RequestSemaphore c
  ∧ SystemInfoRefreshing c' = SystemInfoRefreshing c.

Lemma same_config_refl c : same_config c c.
Proof. by repeat split. Qed.

Lemma same_config_trans c1 c2 c3 :
  same_config c1 c2 → same_config c2 c3 → same_config c1 c3.
Proof.
  unfold same_config. intros (?&?&?&?&?&?&?) (?&?&?&?&?&?&?).
  repeat split; congruence.
Qed.

Lemma session_BaseCall_quiet method url data s :
  is_session_url url = true →
  ∃ t, quiet s (BaseCall P E method url data s).2 t.
Proof.
  intros Hu.
  destruct (BaseCall_events P E method url data s)
    as (t & Ht & Ho & Hl & _).
  eexists. split; [exact Ht|].
  rewrite offline_marks_app, lock_ops_app, Ho. cbn.
  destruct Hl as [-> | [Hf _]]; [done|congruence].
Qed.

Lemma quiet_trans s s1 s2 t1 t2 :
  quiet s s1 t1 → quiet s1 s2 t2 → quiet s s2 (t1 ++ t2).
Proof.
  intros (Ht1 & Ho1 & Hl1) (Ht2 & Ho2 & Hl2). unfold quiet.
  by rewrite Ht2, Ht1, app_assoc, offline_marks_app, lock_ops_app,
    Ho1, Ho2, Hl1, Hl2.
Qed.

Lemma quiet_refl s s' :
  trace (proc s') = trace (proc s) → quiet s s' [].
Proof. intros H. unfold quiet. by rewrite H, app_nil_r. Qed.

Lemma loginCall_loop_quiet data urls :
  ∀ i resp err s,
    ∃ t, quiet s (loginCall_loop P E data i urls resp err s).2 t.
Proof.
  induction urls as [|url rest IH]; intros i resp err s.
  - exists []. by apply quiet_refl.
  - cbn. run.
    match goal with
    | |- context [BaseCall P E ?m ?u ?d ?s0] => set (s1 := s0)
    end.
    destruct (session_BaseCall_quiet "POST" "/xx/sessions" (Some data) s1
                eq_refl) as (t1 & Hq1).
    destruct (BaseCall P E "POST" "/xx/sessions" (Some data) s1)
      as [[[resp1 err1]|msg] s2]; cbn in *; [|by exists t1].
    destruct err1 as [x|].
    + destruct (bool_decide (x ≠ Unconnected P)); [by exists t1|].
      destruct (IH (S i) resp1 (Some x) s2) as (t2 & Hq2).
      exists (t1 ++ t2). by eapply quiet_trans.
    + exists t1. unfold swap_Urls. run.
      destruct (Urls (cli s2) !! (length (Urls (cli s2)) - 1));
        [destruct (Urls (cli s2) !! i)|]; exact Hq1.
Qed.

Lemma loginCall_quiet data s :
  ∃ t, quiet s (loginCall P E data s).2 t.
Proof.
  destruct (loginCall_loop_quiet data (Urls (cli s)) 0 Response_zero None s)
    as (t & Hq).
  exists t. unfold loginCall. run.
  destruct (loginCall_loop P E data 0 (Urls (cli s)) Response_zero None s)
    as [[[resp [x|]]|msg] s1]; exact Hq.
Qed.

Lemma setDataFromRespData_quiet resp s :
  ∃ t, quiet s (setDataFromRespData P E resp s).2 t
       ∧ same_config (cli s) (cli (setDataFromRespData P E resp s).2).
Proof.
  unfold setDataFromRespData, quiet, same_config.
  destruct (Data resp) as [| | | |respData|];
    try (exists []; by rewrite app_nil_r).
  destruct (GetValue_string P respData "deviceid") as [sn ok1].
  run. destruct ok1; run; [|exists []; by rewrite app_nil_r].
  destruct (GetValue_string P respData "iBaseToken") as [tok ok2].
  destruct (GetValue_string P respData "vstoreName") as [vn ok3].
  destruct (GetValue_string P respData "vstoreId") as [vi ok4].
  destruct (RequestSemaphoreMap (proc s) !! sn) as [l|]; run;
    destruct ok2; run;
    first [ by (exists []; rewrite app_nil_r)
          | by eexists [_] ].
Qed.

Lemma Logout_quiet s :
  ∃ t, quiet s (Logout P E s).2 t ∧ cli (Logout P E s).2 = cli s.
Proof.
  destruct (session_BaseCall_quiet "DELETE" "/sessions" None s eq_refl)
    as (t & Hq).
  destruct (BaseCall_steady P E "DELETE" "/sessions" None s)
    as (t0 & (Hc & _) & _).
  exists t. unfold Logout. run.
  destruct (BaseCall P E "DELETE" "/sessions" None s)
    as [[[resp err]|msg] s1]; cbn in *; [|done].
  destruct err; cbn; [done|].
  destruct (Error resp !! "code") as [[]|]; cbn; try done.
  by destruct (bool_decide _).
Qed.

(** The login request to some address got a response in [t]. *)
Definition answered_in (t : list Event) : Prop :=
  ∃ i b, login_attempts t !! i = Some (b, Done None).

(** What [Login] adds to the trace: never a lock operation; at most one
    status notification, for the client's backend, and only in a
    [Login] that does not return nil, after the loop over the addresses
    ended without an error (a login request got a response, or there
    was no address to try).  The configuration is kept. *)
Lemma Login_marks s :
  ∃ t, trace (proc (Login P E s).2) = trace (proc s) ++ t
       ∧ same_config (cli s) (cli (Login P E s).2)
       ∧ lock_ops t = []
       ∧ (offline_marks t = []
          ∨ (offline_marks t = [BackendID (cli s)]
             ∧ (Login P E s).1 ≠ Done None
             ∧ (answered_in t ∨ Urls (cli s) = []))).
Proof.
  destruct (Login P E s) as [r s'] eqn:Hrun. cbn.
  unfold Login in Hrun. run.
  destruct (NewHTTPClientByBackendID E (BackendID (cli s)) (world (proc s)))
    as [[h err0] w0] eqn:Hnew; run.
  destruct err0 as [x0|]; run.
  { injection Hrun as <- <-. exists []. cbn. rewrite app_nil_r.
    split; [done|]. split; [by repeat split|]. auto. }
  unfold getRequestParams in Hrun. run.
  destruct (GetAuthInfoFromBackendID E (BackendID (cli s)) w0)
    as [[au|x1] w1] eqn:Hau; run.
  2: { injection Hrun as <- <-. exists []. cbn. rewrite app_nil_r.
       split; [done|]. split; [by repeat split|]. auto. }
  match type of Hrun with
  | context [loginCall P E ?d ?s0] =>
      set (data := d) in *; set (s0' := s0) in *
  end.
  destruct (loginCall_quiet data s0') as (t1 & Hq1).
  destruct (loginCall P E data s0') as [r1 s1] eqn:Hloop.
  destruct (loginCall_course P E data s0' r1 s1 Hloop)
    as (t1' & k & e & Ht & Hb & _ & _ & _ & _ & _ & He).
  cbn in Hq1.
  assert (t1' = t1) as ->.
  { destruct Hq1 as (Ht1 & _). rewrite Ht in Ht1.
    by apply app_inv_head in Ht1. }
  destruct Hq1 as (_ & Ho1 & Hl1).
  assert (Hcfg : same_config (cli s) (cli s1)).
  { destruct e; cbn in He; repeat match goal with
      | H : _ ∧ _ |- _ => destruct H end;
    match goal with H : cli s1 = _ |- _ => rewrite H end;
    by repeat split. }
  pose proof Hcfg as (Hbk & _).
  destruct r1 as [[resp [x|]]|msg]; cbn in Hrun.
  - injection Hrun as <- <-. exists t1. auto.
  - assert (Hans : answered_in t1 ∨ Urls (cli s) = []).
    { destruct e; cbn in He.
      - right. destruct He as (Hk & _ & resp' & err' & Hr & _ & Hpos).
        injection Hr as _ <-.
        destruct (Urls (cli s)) as [|u us]; [done|].
        cbn in Hk. subst k. discriminate Hpos. lia.
      - left. destruct He as (Hk & _).
        destruct (lookup_lt_is_Some_2 (Urls (cli s)) k Hk) as [u Hu].
        exists k, (u +:+ "/deviceManager/rest").
        rewrite (login_attempts_zip t1 _ _ Hb).
        apply lookup_zip_with_Some. exists u, (Done None).
        repeat split; [done|]. unfold outs_of.
        rewrite lookup_app_r by (by rewrite length_replicate).
        by rewrite length_replicate, Nat.sub_diag.
      - destruct He as (_ & _ & _ & resp' & Hr). discriminate Hr.
      - destruct He as (_ & _ & Hr). discriminate Hr. }
    assert (Hwiden : ∀ t2, answered_in (t1 ++ t2) ∨ Urls (cli s) = []).
    { intros t2. destruct Hans as [(i & b & Hi)|Hz]; [left|by right].
      exists i, b. rewrite login_attempts_app.
      by apply lookup_app_l_Some. }
    destruct (FormatRespErr P (Error resp)) as [[code dsc] ferr] eqn:HF.
    destruct (bool_decide (code ≠ 0%Z)) eqn:Hcode.
    + destruct (is_lockout_code P code); unfold setOffline in Hrun; run.
      * destruct (SetStorageBackendContentOnlineStatus E
                    (BackendID (cli s1)) false (world (proc s1)))
          as [[eo|] w2]; run; injection Hrun as <- <-;
          exists (t1 ++ [EvOffline (BackendID (cli s1))]); cbn;
          rewrite Ht, <- app_assoc, lock_ops_app, offline_marks_app,
            Ho1, Hl1, Hbk; cbn;
          (split; [done|]); (split; [done|]); (split; [done|]);
          right; rewrite <- Hbk; auto.
      * injection Hrun as <- <-. exists t1. auto.
    + destruct (setDataFromRespData_quiet resp s1)
        as (t3 & (Ht3 & Ho3 & Hl3) & Hcfg3).
      destruct (setDataFromRespData P E resp s1) as [r2 s2] eqn:Hset.
      cbn in *.
      destruct (setDataFromRespData_course P E resp s1 r2 s2 Hset)
        as (err2 & _ & -> & _).
      pose proof (same_config_trans _ _ _ Hcfg Hcfg3) as Hcfg2.
      pose proof Hcfg2 as (Hbk2 & _).
      destruct err2 as [x|]; cbn in Hrun.
      * destruct (Logout_quiet s2) as (tL & (HtL & HoL & HlL) & HcL).
        destruct (Logout P E s2) as [[[]|msg] s3]; cbn in *.
        -- unfold setOffline in Hrun. run.
           destruct (SetStorageBackendContentOnlineStatus E
                       (BackendID (cli s3)) false (world (proc s3)))
             as [eo w2]; run. injection Hrun as <- <-.
           exists (t1 ++ (t3 ++ tL ++ [EvOffline (BackendID (cli s3))])).
           cbn. rewrite HtL, Ht3, Ht, HcL, Hbk2, <- !app_assoc.
           rewrite !lock_ops_app, !offline_marks_app, Ho1, Hl1, Ho3, Hl3,
             HoL, HlL. cbn.
           (split; [done|]); (split; [done|]); (split; [done|]).
           right. rewrite <- Hbk2, <- HcL. auto.
        -- injection Hrun as <- <-. exists (t1 ++ (t3 ++ tL)).
           cbn. rewrite HtL, Ht3, Ht, HcL, <- !app_assoc.
           rewrite !lock_ops_app, !offline_marks_app, Ho1, Hl1, Ho3, Hl3,
             HoL, HlL. cbn. auto.
      * injection Hrun as <- <-. exists (t1 ++ t3).
        rewrite Ht3, Ht, <- !app_assoc.
        rewrite !lock_ops_app, !offline_marks_app, Ho1, Hl1, Ho3, Hl3.
        cbn. auto.
  - injection Hrun as <- <-. exists t1. auto.
Qed.

(** X4.  Login notifies the status sink at most once, for its own
    backend, only when it fails, and, for a client that has addresses,
    only after a login request got a response: a Login that could not
    reach any address, or that ended with another transport or decoding
    error, never marks the backend offline. *)
Theorem login_marks_offline_only_after_answer (s : St E RestClient) :
  Urls (cli s) ≠ [] →
  let t := new_events s (Login P E s).2 in
  offline_marks t = []
  ∨ (offline_marks t = [BackendID (cli s)]
     ∧ (Login P E s).1 ≠ Done None
     ∧ answered_in t).
Proof.
  intros Hne t. subst t.
  destruct (Login_marks s)
    as (t & Ht & _ & _ & [Ho | (Ho & Hr & [Ha | Hz])]).
  - left. by rewrite (new_events_app _ _ _ Ht).
  - right. by rewrite (new_events_app _ _ _ Ht).
  - done.
Qed.

(** [ReLogin]: the lock first, the unlock last, no lock operation in
    between; the configuration is kept. *)
Lemma ReLogin_marks s oldToken :
  ∃ mid, trace (proc (ReLogin_locked P E oldToken s).2)
         = trace (proc s) ++ [EvLock] ++ mid ++ [EvUnlock]
         ∧ lock_ops mid = []
         ∧ same_config (cli s) (cli (ReLogin_locked P E oldToken s).2).
Proof.
  unfold ReLogin_locked. run.
  set (s0 := {| cli := cli s; proc := _ |}).
  assert (HLogin : ∀ s1 tL,
            trace (proc s1) = trace (proc s0) ++ tL → lock_ops tL = [] →
            cli s1 = cli s →
            ∃ mid, trace (proc (Login P E s1).2)
                   = trace (proc s) ++ [EvLock] ++ mid
                   ∧ lock_ops mid = []
                   ∧ same_config (cli s) (cli (Login P E s1).2)).
  { intros s1 tL HtL HlL Hc.
    destruct (Login_marks s1) as (t2 & Ht2 & Hcfg & Hl2 & _).
    exists (tL ++ t2). rewrite Ht2, HtL. cbn. rewrite <- !app_assoc.
    split; [done|]. rewrite lock_ops_app, HlL, Hl2, <- Hc. done. }
  destruct (bool_decide (Token (cli s) ≠ "")); cbn.
  - destruct (bool_decide (oldToken ≠ Token (cli s))); cbn.
    { exists []. cbn. rewrite <- app_assoc.
      split; [done|]. split; [done|]. apply same_config_refl. }
    destruct (Logout_quiet s0) as (tL & (HtL & _ & HlL) & HcL).
    destruct (Logout P E s0) as [[[]|msg] s1]; cbn in *.
    + destruct (HLogin s1 tL HtL HlL HcL) as (mid & Hm & Hl & Hcfg).
      exists mid.
      destruct (Login P E s1) as [[[e|]|msg] s2]; cbn in *;
        by rewrite Hm, <- !app_assoc.
    + exists tL. rewrite HtL, HcL, <- !app_assoc.
      split; [done|]. split; [done|]. apply same_config_refl.
  - destruct (HLogin s0 [] (eq_sym (app_nil_r _)) eq_refl eq_refl)
      as (mid & Hm & Hl & Hcfg).
    exists mid.
    destruct (Login P E s0) as [[[e|]|msg] s2]; cbn in *;
      by rewrite Hm, <- !app_assoc.
Qed.

(** X5.  Whatever happens inside (a fast return, a failed Login, a
    panic of Logout), [ReLogin] takes [ReLoginMutex] once, first thing,
    and gives it back once, last thing; the Logout and the Login it
    runs in between never touch the lock, so [ReLogin] cannot block on
    the lock it holds. *)
Theorem relogin_takes_lock_once (s : St E RestClient) (oldToken : string) :
  let t := new_events s (ReLogin_locked P E oldToken s).2 in
  lock_ops t = [true; false]
  ∧ head t = Some EvLock
  ∧ last t = Some EvUnlock.
Proof.
  intros t. subst t.
  destruct (ReLogin_marks s oldToken) as (mid & Ht & Hl & _).
  rewrite (new_events_app _ _ _ Ht).
  repeat split.
  - cbn. by rewrite lock_ops_app, Hl.
  - cbn. by rewrite app_comm_cons, last_snoc.
Qed.

(** X6.  Login and ReLogin, however they end, change only the session
    part of the client (transport, user, current address, address
    order, device id, token, vstore): the backend id, the secret
    reference, the storage kind and version, the client's permit and
    the refreshing flag are as before. *)
Theorem login_keeps_configuration (s : St E RestClient) (oldToken : string) :
  same_config (cli s) (cli (Login P E s).2)
  ∧ same_config (cli s) (cli (ReLogin_locked P E oldToken s).2).
Proof.
  split.
  - by destruct (Login_marks s) as (t & _ & Hcfg & _).
  - by destruct (ReLogin_marks s oldToken) as (mid & _ & _ & Hcfg).
Qed.

(** X7.  A Login that returns nil leaves a permit registered for the
    device serial number it stored, so the calls that follow take the
    device's own permit after the client's, not the default bucket's. *)
Theorem login_then_device_permit (s : St E RestClient) :
  (Login P E s).1 = Done None →
  let s' := (Login P E s).2 in
  ∃ l, RequestSemaphoreMap (proc s') !! GetDeviceSN (cli s') = Some l
       ∧ ∀ method url data h req cs,
           Client (cli s') = Some h →
           GetRequest P (cli s') method url data = inl req →
           RequestSemaphore (cli s') = Some cs →
           permit_ops (new_events s' (BaseCall P E method url data s').2)
           = [(true, cs); (true, l); (false, l); (false, cs)].
Proof.
  intros Hr s'. subst s'.
  destruct (Login P E s) as [r s'] eqn:Hrun. cbn in *. subst r.
  destruct (Login_course P E s _ s' Hrun)
    as (t1 & t2 & path & _ & _ & _ & _ & _ & Hpath).
  assert (Hreg : ∃ l, RequestSemaphoreMap (proc s') !! DeviceId (cli s')
                      = Some l).
  { destruct path as [[k e]|]; [|by destruct Hpath as (_ & _ & _ & x & ?)].
    destruct Hpath as (_ & He).
    destruct e; cbn in He.
    - by destruct He as (_ & _ & ? & _).
    - destruct He as (_ & _ & Hest).
      destruct (Hest eq_refl) as (resp & respData & _ & _ & _ & _ & _ & _ & Hm).
      destruct (RequestSemaphoreMap (proc s) !! DeviceId (cli s'))
        as [l|] eqn:Hl.
      + destruct Hm as ((-> & _) & _). by exists l.
      + destruct Hm as ((_ & -> & _) & _). eexists.
        apply lookup_insert_eq.
    - by destruct He as (_ & _ & _ & _ & y & ?).
    - by destruct He as (_ & _ & _ & ?). }
  destruct Hreg as (l & Hl). exists l. split; [exact Hl|].
  intros method url data h req cs Hh Hreq Hcs.
  assert (Hdev : device_permit P E (proc s') (cli s') = Some l).
  { unfold device_permit, GetDeviceSN. by rewrite Hl. }
  destruct (BaseCall_permit_order P E s' method url data h req cs l
              Hh Hreq Hcs Hdev) as ((pre & Hpre & ->) & _).
  rewrite permit_ops_app. by destruct Hpre as [-> | ->].
Qed.

End Marks.

(** The array rejects the password at the first address: the backend is
    marked offline, once. *)
Lemma login_marks_offline_only_after_answer_witness :
  offline_marks
    (new_events first_rejects (Login Sample.params Sample.env first_rejects).2)
  = ["backend"]
  ∧ answered_in
      (new_events first_rejects
         (Login Sample.params Sample.env first_rejects).2).
Proof.
  destruct (login_marks_offline_only_after_answer Sample.params Sample.env
              first_rejects ltac:(discriminate))
    as [H | (H & _ & Ha)].
  - vm_compute in H. discriminate H.
  - split; [|exact Ha]. exact H.
Defined.

(** No address can be reached: the login fails and the backend is not
    marked. *)
Example unreachable_not_marked_offline :
  let s := sample_state ["u1"; "u2"] [] in
  (Login Sample.params Sample.env s).1
  = Done (Some "request storage failed while login, error : unconnected")
  ∧ offline_marks (new_events s (Login Sample.params Sample.env s).2) = [].
Proof. vm_compute. split; reflexivity. Qed.

(** A client without any address: the loop ends at once with a nil
    error and an empty response, so Login goes on to read the reply
    that never was, fails on it, and marks the backend offline although
    no login request was made. *)
Example no_address_marked_offline :
  let s := sample_state [] [] in
  login_attempts (new_events s (Login Sample.params Sample.env s).2) = []
  ∧ offline_marks (new_events s (Login Sample.params Sample.env s).2)
    = ["backend"]
  ∧ basecalls (new_events s (Login Sample.params Sample.env s).2)
    = [("DELETE", "/sessions", "", Done (Some "unconnected"))].
Proof. vm_compute. repeat split; reflexivity. Qed.

Lemma login_then_device_permit_witness :
  let s' := (Login Sample.params Sample.env second_accepts).2 in
  RequestSemaphoreMap (proc s') !! "SN1" = Some 2
  ∧ permit_ops
      (new_events s' (BaseCall Sample.params Sample.env "GET" "/lun" None s').2)
    = [(true, 0); (true, 2); (false, 2); (false, 0)].
Proof.
  assert (Hr : (Login Sample.params Sample.env second_accepts).1 = Done None)
    by (vm_compute; reflexivity).
  destruct (login_then_device_permit Sample.params Sample.env
              second_accepts Hr) as (l & Hl & Hops).
  vm_compute in Hl. injection Hl as <-.
  split; [vm_compute; reflexivity|].
  assert (Hreq : ∃ req,
            GetRequest Sample.params
              (cli (Login Sample.params Sample.env second_accepts).2)
              "GET" "/lun" None = inl req)
    by (vm_compute; eexists; reflexivity).
  destruct Hreq as (req & Hreq).
  assert (Hh : Client (cli (Login Sample.params Sample.env second_accepts).2)
               = Some 1) by (vm_compute; reflexivity).
  assert (Hcs : RequestSemaphore
                  (cli (Login Sample.params Sample.env second_accepts).2)
                = Some 0) by (vm_compute; reflexivity).
  exact (Hops "GET" "/lun" None 1 req 0 Hh Hreq Hcs).
Defined.

(** ** SetSystemInfo and the refreshing flag *)

Section SystemInfo.
Variable P : Params.
Variable E : Env.

(** After [SetSystemInfo] the flag is 0, however the query ended. *)
Lemma SetSystemInfo_flag call s :
  SystemInfoRefreshing (cli (SetSystemInfo P E call s).2) = 0%N.
Proof.
  unfold SetSystemInfo, GetSystem. run.
  destruct (call "GET" "/system/" None _) as [[[resp [e|]]|msg] s1];
    cbn; try done.
  destruct (FormatRespErr P (Error resp)) as [[code dsc] [e|]]; cbn;
    try done.
  destruct (bool_decide (code ≠ 0%Z)); cbn; try done.
  destruct (Data resp) as [| | | |m|]; cbn; try done.
  destruct (GetValue_string P m "pointRelease") as [v []]; by cbn.
Qed.

(** X8.  [SetSystemInfo] sets the refreshing flag to 1 before it
    queries the system, and the deferred function puts it to 0 when
    the function is left, also by an error or a panic of the query: the
    flag is never left set.  The query is the only thing it does to the
    outside; the storage version is stored only when the query gave a
    map with a string [pointRelease], and a failed refresh changes
    nothing but the flag. *)
Theorem setsysteminfo_resets_flag
    (call : string → string → option (gmap string any) →
            M E RestClient (Response * error))
    (s : St E RestClient) :
  let s1 := {| cli := set_SystemInfoRefreshing 1%N (cli s); proc := proc s |} in
  let q := call "GET" "/system/" None s1 in
  let r := SetSystemInfo P E call s in
  SystemInfoRefreshing (cli r.2) = 0%N
  ∧ proc r.2 = proc q.2
  ∧ (∀ msg, q.1 = Panic msg → r.1 = Panic msg)
  ∧ (r.1 ≠ Done None → cli r.2 = set_SystemInfoRefreshing 0%N (cli q.2))
  ∧ (r.1 = Done None →
     ∃ resp system,
       q.1 = Done (resp, None) ∧ Data resp = Map system
       ∧ cli r.2
         = set_SystemInfoRefreshing 0%N
             (if (GetValue_string P system "pointRelease").2
              then set_StorageVersion
                     (GetValue_string P system "pointRelease").1 (cli q.2)
              else cli q.2)).
Proof.
  intros s1 q r. subst q r.
  split; [apply SetSystemInfo_flag|].
  unfold SetSystemInfo, GetSystem. run. fold s1.
  destruct (call "GET" "/system/" None s1) as [[[resp [e|]]|msg] s2];
    cbn; try (split; [done|]; split; [first [done | by intros ? [= ->]]|];
         split; [done|]; done).
  destruct (FormatRespErr P (Error resp)) as [[code dsc] [e|]]; cbn;
    try (split; [done|]; split; [first [done | by intros ? [= ->]]|];
         split; [done|]; done).
  destruct (bool_decide (code ≠ 0%Z)); cbn;
    try (split; [done|]; split; [first [done | by intros ? [= ->]]|];
         split; [done|]; done).
  destruct (Data resp) as [| | | |m|] eqn:HD; cbn;
    try (split; [done|]; split; [first [done | by intros ? [= ->]]|];
         split; [done|]; done).
  destruct (GetValue_string P m "pointRelease") as [v ok] eqn:HG.
  split; [by destruct ok|]. split; [by destruct ok|].
  split; [by destruct ok|].
  intros _. exists resp, m. rewrite HG. by destruct ok.
Qed.

(** X9.  An invocation of [Call] on a client whose refreshing flag is
    clear leaves it clear, however deep the renewals nest and however
    the invocation ends. *)
Theorem call_leaves_flag_clear (d : nat) (method url : string)
    (data : option (gmap string any)) (s : St E RestClient) :
  SystemInfoRefreshing (cli s) = 0%N →
  SystemInfoRefreshing (cli (Call_at P E d method url data s).2) = 0%N.
Proof.
  intros H0. destruct d as [|d]; [done|].
  cbn [Call_at]. unfold Call. cbn [exec hBaseCall hReLogin hSetSystemInfo].
  destruct (BaseCall_steady P E method url data s) as (t & (Hc & _) & _).
  destruct (BaseCall P E method url data s) as [[[r1 e1]|msg] s1];
    cbn in *; [|by rewrite Hc].
  destruct (NeedReLogin P r1 e1); cbn; [|by rewrite Hc].
  unfold ReLogin. run.
  destruct (ReLogin_marks P E s1 (Token (cli s1)))
    as (mid & _ & _ & (_ & _ & _ & _ & _ & _ & Hflag)).
  destruct (ReLogin_locked P E (Token (cli s1)) s1) as [[[e|]|msg] s2];
    cbn in *; try (by rewrite Hflag, Hc).
  pose proof (SetSystemInfo_flag (Call_at P E d) s2) as Hz.
  destruct (SetSystemInfo P E (Call_at P E d) s2) as [[[e|]|msg] s3];
    cbn in *; try done.
  destruct (BaseCall_steady P E method url data s3) as (t3 & (Hc3 & _) & _).
  destruct (BaseCall P E method url data s3) as [[[r4 e4]|msg] s4];
    cbn in *; by rewrite Hc3.
Qed.

End SystemInfo.

Lemma call_leaves_flag_clear_witness :
  basecalls
    (new_events always_expired
       (Call_at Sample.params Sample.env 3 "GET" "/lun" None always_expired).2)
  ≠ []
  ∧ SystemInfoRefreshing
      (cli (Call_at Sample.params Sample.env 3 "GET" "/lun" None
              always_expired).2) = 0%N.
Proof.
  split; [vm_compute; discriminate|].
  apply (call_leaves_flag_clear Sample.params Sample.env 3 "GET" "/lun" None
           always_expired).
  reflexivity.
Defined.

(** ** NewRestClient *)

(** [strconv.Atoi] of the standard library, for a 64-bit [int]: an
    optional sign and then one or more decimal digits, whose value must
    fit; the result is the value and nil, or an error with 0 (bad
    syntax) or the nearest bound (out of range).  Only the presence of
    the error is looked at by the caller; its text is shortened. *)
Definition digit_of (c : ascii) : option Z :=
  if is_digit c then Some (Z.of_nat (nat_of_ascii c) - 48)%Z else None.

Fixpoint digits_value (acc : Z) (s : string) : option Z :=
  match s with
  | EmptyString => Some acc
  | String c s' =>
      match digit_of c with
      | Some d => digits_value (10 * acc + d)%Z s'
      | None => None
      end
  end.

Definition Atoi (s : string) : Z * error :=
  let '(neg, digits) :=
    match s with
    | String "-" s' => (true, s')
    | String "+" s' => (false, s')
    | _ => (false, s)
    end in
  match digits with
  | EmptyString => (0%Z, Some "invalid syntax")
  | _ =>
      match digits_value 0 digits with
      | None => (0%Z, Some "invalid syntax")
      | Some n =>
          let v := (if neg then - n else n)%Z in
          if (v <? - 2 ^ 63)%Z then ((- 2 ^ 63)%Z, Some "value out of range")
          else if (2 ^ 63 - 1 <? v)%Z
               then ((2 ^ 63 - 1)%Z, Some "value out of range")
               else (v, None)
      end
  end.

Definition DefaultParallelCount : Z := 30.
Definition MaxParallelCount : Z := 30.
Definition MinParallelCount : Z := 1.

(** [NewClientConfig] *)
Module NewClientConfig.
Record t : Type := mk {
  Urls : list string;
  User : string;
  SecretName : string;
  SecretNamespace : string;
  ParallelNum : string;
  BackendID : string;
  UseCert : bool;
  CertSecretMeta : string;
  Storage : string;
  Name : string
}.
End NewClientConfig.

Section NewClient.
Variable E : Env.

(** The transport factory [NewHTTPClientByCertMeta], which is not in
    the sources. *)
Variable NewHTTPClientByCertMeta :
  bool → string → World E → (option HTTP * error) * World E.

(** [utils.NewSemaphore(n)]: a new permit object. *)
Definition new_permit (n : nat) : M E unit loc :=
  p ← getProc;
  let l := next_loc p in
  modifyProc (fun p =>
    mkProc (<[l := NewSemaphore n]> (sems p)) (S l)
           (RequestSemaphoreMap p) (world p) (trace p));;
  ret l.

(** The parallel count [NewRestClient] settles on. *)
Definition parallel_count (ParallelNum : string) : Z :=
  let '(parallelCount, err) := Atoi ParallelNum in
  if bool_decide (err ≠ None)
     || (MaxParallelCount <? parallelCount)%Z
     || (parallelCount <? MinParallelCount)%Z
  then DefaultParallelCount else parallelCount.

Definition NewRestClient (param : NewClientConfig.t)
    : M E unit (option RestClient * error) :=
  let parallelCount := parallel_count (NewClientConfig.ParallelNum param) in
  '(httpClient, err) ←
    external (NewHTTPClientByCertMeta (NewClientConfig.UseCert param)
                (NewClientConfig.CertSecretMeta param));
  match err with
  | Some e => ret (None, Some e)
  | None =>
      l ← new_permit (Z.to_nat parallelCount);
      ret (Some {| Client := httpClient; Url := "";
                   Urls := NewClientConfig.Urls param;
                   VStoreID := ""; VStoreName := "";
                   User := NewClientConfig.User param;
                   SecretNamespace := NewClientConfig.SecretNamespace param;
                   SecretName := NewClientConfig.SecretName param;
                   StorageVersion := "";
                   BackendID := NewClientConfig.BackendID param;
                   Storage := NewClientConfig.Storage param;
                   DeviceId := ""; Token := "";
                   SystemInfoRefreshing := 0%N;
                   RequestSemaphore := Some l |},
           None)
  end.

Lemma parallel_count_bounds x : (1 ≤ parallel_count x ≤ 30)%Z.
Proof.
  unfold parallel_count, MaxParallelCount, MinParallelCount,
    DefaultParallelCount.
  destruct (Atoi x) as [n err].
  destruct (bool_decide (err ≠ None)); cbn; [lia|].
  destruct (30 <? n)%Z eqn:H1; cbn; [lia|].
  destruct (n <? 1)%Z eqn:H2; cbn; lia.
Qed.

Lemma parallel_count_decimal (k : Z) :
  (1 ≤ k ≤ 30)%Z → parallel_count (pretty k) = k.
Proof.
  intros Hk.
  assert (Hn : ∃ n, k = Z.of_nat n ∧ n ≤ 30) by (exists (Z.to_nat k); lia).
  destruct Hn as (n & -> & Hn).
  do 31 (destruct n as [|n]; [first [lia | vm_compute; reflexivity]|]).
  lia.
Qed.

(** X10.  [NewRestClient] gives the client a permit of its own whose
    capacity is always between [MinParallelCount] and
    [MaxParallelCount]: the configured [ParallelNum] when that is a
    decimal number from 1 to 30, and [DefaultParallelCount] (30) for
    anything else: not a number, empty, zero, negative, or above 30.
    The permit is a new object, which no registry key refers to, and
    the client starts without session: no address chosen, no device
    id, no token.  When the transport cannot be made, no client and no
    permit are made. *)
Theorem newrestclient_parallel_count (param : NewClientConfig.t)
    (s : St E unit) :
  let r := NewRestClient param s in
  let made := NewHTTPClientByCertMeta (NewClientConfig.UseCert param)
                (NewClientConfig.CertSecretMeta param) (world (proc s)) in
  (∀ e, made.1.2 = Some e →
        r.1 = Done (None, Some e) ∧ sems (proc r.2) = sems (proc s))
  ∧ (made.1.2 = None →
     ∃ c n,
       r.1 = Done (Some c, None)
       ∧ Client c = made.1.1
       ∧ RequestSemaphore c = Some (next_loc (proc s))
       ∧ sems (proc r.2)
         = <[next_loc (proc s) := NewSemaphore n]> (sems (proc s))
       ∧ RequestSemaphoreMap (proc r.2) = RequestSemaphoreMap (proc s)
       ∧ 1 ≤ n ≤ 30
       ∧ (∀ k, (1 ≤ k ≤ 30)%Z →
               NewClientConfig.ParallelNum param = pretty k →
               n = Z.to_nat k)
       ∧ ((Atoi (NewClientConfig.ParallelNum param)).2 ≠ None → n = 30)
       ∧ (¬ (1 ≤ (Atoi (NewClientConfig.ParallelNum param)).1 ≤ 30)%Z →
          n = 30)
       ∧ Urls c = NewClientConfig.Urls param
       ∧ Url c = "" ∧ DeviceId c = "" ∧ Token c = "").
Proof.
  intros r made. subst r made.
  unfold NewRestClient, new_permit. run.
  destruct (NewHTTPClientByCertMeta _ _ _) as [[h [e|]] w]; cbn.
  - split; [|done]. intros e' [= <-]. done.
  - split; [done|]. intros _.
    eexists _, (Z.to_nat (parallel_count (NewClientConfig.ParallelNum param))).
    pose proof (parallel_count_bounds (NewClientConfig.ParallelNum param)).
    repeat split; try done; try lia.
    + intros k Hk ->. by rewrite parallel_count_decimal.
    + unfold parallel_count. destruct (Atoi _) as [n err]. cbn.
      intros Herr. by rewrite bool_decide_eq_true_2.
    + unfold parallel_count, MaxParallelCount, MinParallelCount.
      destruct (Atoi _) as [n err]. cbn. intros Hn.
      destruct (bool_decide (err ≠ None)); cbn; [done|].
      destruct (30 <? n)%Z eqn:H1; cbn; [done|].
      destruct (n <? 1)%Z eqn:H2; cbn; [done|]. lia.
Qed.

End NewClient.

(** Configured values and the capacity they give. *)
Example parallel_counts :
  parallel_count <$> ["5"; "30"; "+7"; "007"; ""; "0"; "31"; "-3"; "1e1";
                      " 5"; "5 "; "99999999999999999999"]
  = [5; 30; 7; 7; 30; 30; 30; 30; 30; 30; 30; 30]%Z.
Proof. vm_compute. reflexivity. Qed.

(** ** ValidateLogin *)

Section Validate.
Variable P : Params.
Variable E : Env.

(** The secret store read by [pkgUtils.GetAuthInfoFromSecret], which
    is not in the sources. *)
Variable GetAuthInfoFromSecret :
  string → string → World E → (AuthInfo + string) * World E.

Abbreviation Meth := (M E RestClient).

(** The loop over the addresses written out in [ValidateLogin]. *)
Fixpoint ValidateLogin_loop (data : gmap string any) (i : nat)
    (urls : list string) (resp : Response) (err : error)
    : Meth (Response * error) :=
  match urls with
  | [] => ret (resp, err)
  | url :: rest =>
      modifyCli (set_Url (url +:+ "/deviceManager/rest"));;
      '(resp, err) ← BaseCall P E "POST" "/xx/sessions" (Some data);
      match err with
      | None => swap_Urls E i;; ret (resp, err)
      | Some e =>
          if bool_decide (e ≠ Unconnected P) then ret (resp, err)
          else ValidateLogin_loop data (S i) rest resp err
      end
  end.

(** [setDeviceIdFromRespData]: a failed conversion is only logged; the
    nil map that a failed assertion on [resp.Data] leaves reads like an
    empty one. *)
Definition setDeviceIdFromRespData (resp : Response) : Meth unit :=
  let respData := match Data resp with Map m => m | _ => ∅ end in
  modifyCli (set_DeviceId (GetValue_string P respData "deviceid").1);;
  modifyCli (set_Token (GetValue_string P respData "iBaseToken").1).

Definition ValidateLogin : Meth error :=
  c ← getCli;
  r ← external (GetAuthInfoFromSecret (SecretName c) (SecretNamespace c));
  match r with
  | inr e => ret (Some e)
  | inl params =>
      let data : gmap string any :=
        <["username" := Str (User c)]>
        (<["password" := Str (auPassword params)]>
        (<["scope" := Str (auScope params)]> ∅)) in
      modifyCli (set_DeviceId "");;
      modifyCli (set_Token "");;
      c ← getCli;
      '(resp, err) ← ValidateLogin_loop data 0 (Urls c) Response_zero None;
      match err with
      | Some e => ret (Some e)
      | None =>
          let '(code, msg, err) := FormatRespErr P (Error resp) in
          match err with
          | Some e =>
              ret (Some ("format login response data error: " +:+ e))
          | None =>
              if bool_decide (code ≠ 0%Z) then
                c ← getCli;
                ret (Some ("validate login " +:+ Url c
                           +:+ " failed, error code: " +:+ pretty code
                           +:+ ", error msg: " +:+ msg))
              else
                setDeviceIdFromRespData resp;;
                ret None
          end
      end
  end.

(** The loop of [ValidateLogin] is the loop of [loginCall]. *)
Lemma ValidateLogin_loop_loginCall_loop data urls :
  ∀ i resp err s,
    ValidateLogin_loop data i urls resp err s
    = loginCall_loop P E data i urls resp err s.
Proof.
  induction urls as [|url rest IH]; intros i resp err s; [done|].
  cbn. run.
  destruct (BaseCall P E "POST" "/xx/sessions" (Some data) _)
    as [[[resp1 [x|]]|msg] s1]; cbn; try done.
Qed.

(** How the part of [ValidateLogin] after the loop ends, given how the
    loop ended. *)
Definition validate_tail (r1 : Res (Response * error))
    (c1 : RestClient) (r : Res error) (c' : RestClient) : Prop :=
  match r1 with
  | Panic msg => r = Panic msg ∧ c' = c1
  | Done (_, Some e) => r = Done (Some e) ∧ c' = c1
  | Done (resp, None) =>
      let '(code, _, ferr) := FormatRespErr P (Error resp) in
      if bool_decide (ferr = None ∧ code = 0%Z) then
        let respData := match Data resp with Map m => m | _ => ∅ end in
        r = Done None
        ∧ c' = set_Token (GetValue_string P respData "iBaseToken").1
                 (set_DeviceId (GetValue_string P respData "deviceid").1 c1)
      else (∃ x, r = Done (Some x)) ∧ c' = c1
  end.

(** The request body of [ValidateLogin]: the user of the client, the
    password and scope of the secret. *)
Definition validate_body (c : RestClient) (params : AuthInfo)
    : gmap string any :=
  <["username" := Str (User c)]>
  (<["password" := Str (auPassword params)]>
  (<["scope" := Str (auScope params)]> ∅)).

(** The state in which the loop of [ValidateLogin] starts: the secret
    store was read and left the world [w], device id and token are
    cleared. *)
Definition validate_start (s : St E RestClient) (w : World E)
    : St E RestClient :=
  {| cli := set_Token "" (set_DeviceId "" (cli s));
     proc := mkProc (sems (proc s)) (next_loc (proc s))
               (RequestSemaphoreMap (proc s)) w (trace (proc s)) |}.

(** The course of [ValidateLogin]: when the secret cannot be read it
    returns that error and has done nothing; else it clears the
    session, runs the loop over the addresses, and looks at the reply
    the loop ended with. *)
Lemma ValidateLogin_course s :
  let c := cli s in
  let auth := GetAuthInfoFromSecret (SecretName c) (SecretNamespace c)
                (world (proc s)) in
  let r := (ValidateLogin s).1 in
  let s' := (ValidateLogin s).2 in
  match auth.1 with
  | inr x =>
      r = Done (Some x) ∧ cli s' = c
      ∧ trace (proc s') = trace (proc s)
      ∧ permits_same E (proc s) (proc s')
  | inl params =>
      let s0 := validate_start s auth.2 in
      let loop := ValidateLogin_loop (validate_body c params) 0 (Urls c)
                    Response_zero None s0 in
      (∃ t k e,
         loop_course P E (validate_body c params) 0 (Urls c)
           Response_zero None s0 loop.1 loop.2 t k e
         ∧ offline_marks t = [] ∧ lock_ops t = [])
      ∧ proc s' = proc loop.2
      ∧ validate_tail loop.1 (cli loop.2) r (cli s')
  end.
Proof.
  intros c auth r s'. subst c auth r s'.
  destruct (ValidateLogin s) as [r s'] eqn:Hrun. cbn.
  unfold ValidateLogin in Hrun. run.
  destruct (GetAuthInfoFromSecret (SecretName (cli s))
              (SecretNamespace (cli s)) (world (proc s)))
    as [[au|x] w]; run.
  2: { by injection Hrun as <- <-. }
  change (ValidateLogin_loop _ 0 (Urls (cli s)) Response_zero None _)
    with (ValidateLogin_loop (validate_body (cli s) au) 0 (Urls (cli s))
            Response_zero None (validate_start s w)) in Hrun.
  set (data := validate_body (cli s) au) in *.
  set (s0 := validate_start s w) in *.
  destruct (loginCall_loop_quiet P E data (Urls (cli s)) 0
              Response_zero None s0) as (t1 & Hq1).
  rewrite ValidateLogin_loop_loginCall_loop in *.
  destruct (loginCall_loop P E data 0 (Urls (cli s)) Response_zero None s0)
    as [r1 s1] eqn:Hloop.
  destruct (loginCall_loop_course P E data (Urls (cli s)) 0 _ _ s0 r1 s1
              eq_refl Hloop) as (t1' & k & e & Hcourse).
  cbn in Hq1.
  assert (t1' = t1) as ->.
  { destruct Hq1 as (Ht1 & _). destruct Hcourse as (Ht & _).
    rewrite Ht in Ht1. by apply app_inv_head in Ht1. }
  destruct Hq1 as (_ & Ho1 & Hl1).
  cbn.
  split; [by exists t1, k, e|].
  unfold validate_tail.
  destruct r1 as [[resp [x|]]|msg]; cbn in Hrun;
    try (injection Hrun as <- <-; by auto).
  destruct (FormatRespErr P (Error resp)) as [[code dsc] [fe|]].
  { injection Hrun as <- <-.
    rewrite bool_decide_eq_false_2 by (by intros [? _]). eauto. }
  destruct (bool_decide (code ≠ 0%Z)) eqn:Hcode.
  - apply bool_decide_eq_true in Hcode. injection Hrun as <- <-.
    rewrite bool_decide_eq_false_2 by (by intros [_ ?]). eauto.
  - apply bool_decide_eq_false in Hcode. apply dec_stable in Hcode.
    unfold setDeviceIdFromRespData in Hrun. run.
    injection Hrun as <- <-.
    rewrite bool_decide_eq_true_2 by done. done.
Qed.

(** X11.  [ValidateLogin] tries the addresses in the order and with the
    stopping rule of [Login], and does nothing else: its only calls are
    login calls (no logout), it registers no permit for the device
    (where [Login] does), takes no lock, notifies no status sink, and
    keeps the configuration of the client.  It makes no call at all
    exactly when the secret cannot be read, and then returns the error
    of the secret store and leaves the client as it was. *)
Theorem validatelogin_only_tries_addresses (s : St E RestClient) :
  let auth := GetAuthInfoFromSecret (SecretName (cli s))
                (SecretNamespace (cli s)) (world (proc s)) in
  let r := (ValidateLogin s).1 in
  let s' := (ValidateLogin s).2 in
  let t := new_events s s' in
  permits_same E (proc s) (proc s')
  ∧ created t = [] ∧ offline_marks t = [] ∧ lock_ops t = []
  ∧ same_config (cli s) (cli s')
  ∧ Forall (fun c : string * string * string * Res error =>
              c.1.1.1 = "POST" ∧ c.1.1.2 = "/xx/sessions") (basecalls t)
  ∧ match auth.1 with
    | inr e => t = [] ∧ r = Done (Some e) ∧ cli s' = cli s
    | inl _ => tried_in_order P (Urls (cli s)) (login_attempts t)
    end.
Proof.
  intros auth r s' t. subst auth r s' t.
  pose proof (ValidateLogin_course s) as Hc. cbn zeta in Hc.
  destruct (GetAuthInfoFromSecret (SecretName (cli s))
              (SecretNamespace (cli s)) (world (proc s))) as [[au|x] w].
  - cbn [fst snd] in *.
    destruct Hc as ((t & k & e & Hcourse & Ho & Hl) & Hproc & Htail).
    destruct (ValidateLogin_loop (validate_body (cli s) au) 0
                (Urls (cli s)) Response_zero None (validate_start s w))
      as [r1 s1].
    cbn [fst snd] in *.
    destruct Hcourse as (Ht & Hb & Hk & _ & Hs & Hn & Hr & He).
    cbn in Ht, Hs, Hn, Hr.
    assert (Hnew : new_events s (ValidateLogin s).2 = t).
    { apply new_events_app. by rewrite Hproc. }
    rewrite Hnew.
    assert (Hc1 : same_config (cli s) (cli s1)).
    { destruct e; cbn in He; repeat match goal with
        | H : _ ∧ _ |- _ => destruct H end;
      match goal with H : cli s1 = _ |- _ => rewrite H end;
      by repeat split. }
    assert (Hc' : same_config (cli s1) (cli (ValidateLogin s).2)).
    { unfold validate_tail in Htail.
      destruct r1 as [[resp [x|]]|msg];
        try (destruct Htail as (_ & ->); apply same_config_refl).
      destruct (FormatRespErr P (Error resp)) as [[code dsc] ferr].
      destruct (bool_decide _); destruct Htail as (_ & ->);
        by repeat split. }
    split; [by rewrite Hproc|].
    split; [done|]. split; [done|]. split; [done|].
    split; [by eapply same_config_trans|].
    split.
    + rewrite Hb. apply Forall_forall. intros c Hin.
      apply elem_of_lookup_zip_with in Hin as (j & u & o & -> & _ & _).
      done.
    + rewrite (login_attempts_zip t _ _ Hb).
      apply outs_of_in_order. destruct e; cbn in He; tauto.
  - cbn [fst snd] in *. destruct Hc as (Hr & Hc & Ht & Hp).
    assert (Hn : new_events s (ValidateLogin s).2 = []).
    { apply new_events_app. by rewrite app_nil_r. }
    rewrite Hn, Hc. split; [exact Hp|]. repeat split; try done.
Qed.

(** X12.  What [ValidateLogin] does to the session.  Once the secret
    is read, the session is cleared and the loop over the addresses is
    run.  [ValidateLogin] returns nil exactly when the loop ended with
    a reply whose error object is well formed with code 0, and then
    stores the device id and the token read from the payload of that
    reply, whatever the payload is: a reply without them is accepted
    and leaves the two fields as the reader gives them for a missing
    entry.  In every other case it returns an error (or the panic of
    the call) and the session stays cleared: device id and token are
    empty, also when they were set before the call.  When the secret
    cannot be read the client is left as it was. *)
Theorem validatelogin_session (s : St E RestClient) :
  let c := cli s in
  let auth := GetAuthInfoFromSecret (SecretName c) (SecretNamespace c)
                (world (proc s)) in
  let r := (ValidateLogin s).1 in
  let c' := cli (ValidateLogin s).2 in
  match auth.1 with
  | inr e => r = Done (Some e) ∧ c' = c
  | inl params =>
      match (ValidateLogin_loop (validate_body c params) 0 (Urls c)
               Response_zero None (validate_start s auth.2)).1 with
      | Done (resp, None) =>
          let respData := match Data resp with Map m => m | _ => ∅ end in
          (r = Done None ↔
           (FormatRespErr P (Error resp)).2 = None
           ∧ (FormatRespErr P (Error resp)).1.1 = 0%Z)
          ∧ (r = Done None →
             DeviceId c' = (GetValue_string P respData "deviceid").1
             ∧ Token c' = (GetValue_string P respData "iBaseToken").1)
          ∧ (r ≠ Done None →
             (∃ x, r = Done (Some x)) ∧ DeviceId c' = "" ∧ Token c' = "")
      | Done (_, Some e) =>
          r = Done (Some e) ∧ DeviceId c' = "" ∧ Token c' = ""
      | Panic msg => r = Panic msg ∧ DeviceId c' = "" ∧ Token c' = ""
      end
  end.
Proof.
  intros c auth r c'. subst c auth r c'.
  pose proof (ValidateLogin_course s) as Hc. cbn zeta in Hc.
  destruct (GetAuthInfoFromSecret (SecretName (cli s))
              (SecretNamespace (cli s)) (world (proc s))) as [[au|x] w].
  2: { cbn [fst snd] in *. by destruct Hc as (Hr & Hc & _). }
  cbn [fst snd] in *.
  destruct Hc as ((t & k & e & Hcourse & _) & Hproc & Htail).
  destruct (ValidateLogin_loop (validate_body (cli s) au) 0
              (Urls (cli s)) Response_zero None (validate_start s w))
    as [r1 s1].
  cbn [fst snd] in *.
  destruct Hcourse as (_ & _ & _ & _ & _ & _ & _ & He).
  assert (Hc1 : DeviceId (cli s1) = "" ∧ Token (cli s1) = "").
  { destruct e; cbn in He; repeat match goal with
      | H : _ ∧ _ |- _ => destruct H end;
    match goal with H : cli s1 = _ |- _ => by rewrite H end. }
  unfold validate_tail in Htail.
  destruct r1 as [[resp [x|]]|msg].
  - by destruct Htail as (-> & ->).
  - destruct (FormatRespErr P (Error resp)) as [[code dsc] ferr] eqn:HF.
    cbn [fst snd].
    destruct (bool_decide (ferr = None ∧ code = 0%Z)) eqn:Hok.
    + apply bool_decide_eq_true in Hok as [-> ->].
      destruct Htail as (-> & ->). by repeat split.
    + apply bool_decide_eq_false in Hok.
      destruct Htail as ((x & ->) & ->).
      split; [split; [done|intros H; by destruct Hok]|].
      split; [done|]. intros _. split; [by exists x|done].
  - by destruct Htail as (-> & ->).
Qed.

End Validate.

(** The secret store of the sample world. *)
Definition sample_secret (name ns : string) (w : World Sample.env)
    : (AuthInfo + string) * World Sample.env :=
  (inl {| auUser := "admin"; auPassword := "secret"; auScope := "0" |}, w).

(** A client in session validates its login against an array that
    rejects the password: the validation fails, and the session the
    client had is gone; nothing was registered or notified. *)
Example failed_validation_clears_session :
  let s := in_session [(Sample.login_url "u1", DoBody "wrong-password")] in
  let r := ValidateLogin Sample.params Sample.env sample_secret s in
  Token (cli s) = "T1"
  ∧ r.1 = Done (Some ("validate login u1/deviceManager/rest failed, "
                      +:+ "error code: 1077949061, error msg: "))
  ∧ Token (cli r.2) = "" ∧ DeviceId (cli r.2) = ""
  ∧ Urls (cli r.2) = ["u2"; "u1"]
  ∧ offline_marks (new_events s r.2) = []
  ∧ created (new_events s r.2) = [].
Proof. vm_compute. repeat split; reflexivity. Qed.

(** An array that accepts the login with an empty payload: the
    validation succeeds and leaves the client without token. *)
Example validation_accepts_empty_payload :
  let s := in_session [(Sample.login_url "u1", DoBody "ok")] in
  let r := ValidateLogin Sample.params Sample.env sample_secret s in
  r.1 = Done None ∧ Token (cli r.2) = "" ∧ DeviceId (cli r.2) = "".
Proof. vm_compute. repeat split; reflexivity. Qed.

(** ** The oceanstor client: the site guard as a whole *)

Section SiteGuard.
Variable P : Params.
Variable E : Env.
Variable GetCurrentLif : OceanstorClient → string.

Lemma passes_site_guard_dec (c : OceanstorClient) (url : string) :
  passes_site_guard c url
  ∨ (url ≠ "/xx/sessions" ∧ url ≠ "/sessions" ∧ CurrentLifWwn c ≠ ""
     ∧ (systemInfoRefreshing c = true
        ∨ (systemInfoRefreshing c = false
           ∧ CurrentLifWwn c ≠ CurrentSiteWwn c))).
Proof.
  unfold passes_site_guard.
  destruct (decide (url = "/xx/sessions")); [by auto|].
  destruct (decide (url = "/sessions")); [by auto|].
  destruct (decide (CurrentLifWwn c = "")); [by auto|].
  destruct (systemInfoRefreshing c) eqn:Hf; [by auto 10|].
  destruct (decide (CurrentLifWwn c = CurrentSiteWwn c)); by auto 10.
Qed.

(** X13.  The guard of [safeDoCall] decides whether the request goes
    out.  The request is sent, once, exactly when the path is login or
    logout, or the client has no logical port recorded, or no refresh
    is under way and the recorded port is on the client's own site.
    Otherwise nothing is sent and nothing changes, and the error is the
    "please wait" one during a refresh, else the one naming the
    logical port that is not on its own site.  Login and logout are
    never held back by the guard. *)
Theorem site_guard_decides_sending (s : St E OceanstorClient)
    (method url : string) (req : Request) (h : HTTP) :
  Client (rest (cli s)) = Some h →
  let r := safeDoCall P E GetCurrentLif method url req s in
  (passes_site_guard (cli s) url ↔ requests (new_events s r.2) = [req])
  ∧ (¬ passes_site_guard (cli s) url →
     r.2 = s
     ∧ r.1 = Done (Response_zero,
                   Some (if systemInfoRefreshing (cli s)
                         then "querying lif and system information... Please wait"
                         else "current logical port [" +:+ GetCurrentLif (cli s)
                              +:+ "] is not running on own site")))
  ∧ (url = "/xx/sessions" ∨ url = "/sessions" →
     requests (new_events s r.2) = [req]).
Proof.
  intros Hh r. subst r.
  assert (Hsend : passes_site_guard (cli s) url →
                  requests (new_events s
                    (safeDoCall P E GetCurrentLif method url req s).2)
                  = [req]).
  { intros Hpass.
    destruct (safeDoCall_sends P E GetCurrentLif method url req s h Hpass Hh)
      as (r & w & ->). cbn.
    by erewrite new_events_app by reflexivity. }
  assert (Hrefuse : ¬ passes_site_guard (cli s) url →
            safeDoCall P E GetCurrentLif method url req s
            = (Done (Response_zero,
                     Some (if systemInfoRefreshing (cli s)
                           then "querying lif and system information... Please wait"
                           else "current logical port ["
                                +:+ GetCurrentLif (cli s)
                                +:+ "] is not running on own site")), s)).
  { intros Hno.
    destruct (passes_site_guard_dec (cli s) url)
      as [Hpass|(H1 & H2 & Hlif & Hcase)]; [done|].
    unfold safeDoCall. run.
    rewrite !bool_decide_eq_true_2 by done. cbn.
    destruct Hcase as [-> | [-> Hsite]]; [done|].
    by rewrite bool_decide_eq_true_2 by done. }
  split; [split; [exact Hsend|]|split].
  - intros Hreq.
    destruct (passes_site_guard_dec (cli s) url) as [Hpass|Hno]; [done|].
    assert (Hn : ¬ passes_site_guard (cli s) url).
    { unfold passes_site_guard.
      destruct Hno as (H1 & H2 & Hlif & [Hf | [Hf Hsite]]);
        intros [?|[?|[?|[? ?]]]]; congruence. }
    rewrite (Hrefuse Hn) in Hreq. cbn in Hreq.
    unfold new_events in Hreq. by rewrite drop_all in Hreq.
  - intros Hno. by rewrite (Hrefuse Hno).
  - intros Hu. apply Hsend. unfold passes_site_guard. tauto.
Qed.

End SiteGuard.

(** The recorded port is on another site: the request for [/lun] is
    refused, the logout still goes out. *)
Lemma site_guard_decides_sending_witness :
  (safeDoCall Sample.params Sample.env oc_lif "GET" "/lun"
     {| Method := "GET"; URL := "u1/deviceManager/rest/SN1/lun";
        Body := None; Hdr := ∅ |}
     (oc_state "wwn1" "wwn2" 0 lun_answers)).1
  = Done (Response_zero,
          Some "current logical port [lif1] is not running on own site")
  ∧ requests
      (new_events (oc_state "wwn1" "wwn2" 0 lun_answers)
         (safeDoCall Sample.params Sample.env oc_lif "DELETE" "/sessions"
            {| Method := "DELETE"; URL := "u1/deviceManager/rest/SN1/sessions";
               Body := None; Hdr := ∅ |}
            (oc_state "wwn1" "wwn2" 0 lun_answers)).2)
    = [{| Method := "DELETE"; URL := "u1/deviceManager/rest/SN1/sessions";
          Body := None; Hdr := ∅ |}].
Proof.
  split.
  - destruct (site_guard_decides_sending Sample.params Sample.env oc_lif
                (oc_state "wwn1" "wwn2" 0 lun_answers) "GET" "/lun"
                {| Method := "GET"; URL := "u1/deviceManager/rest/SN1/lun";
                   Body := None; Hdr := ∅ |} 1 eq_refl)
      as (_ & Hno & _).
    apply Hno. unfold passes_site_guard.
    intros [?|[?|[?|[_ ?]]]]; discriminate.
  - destruct (site_guard_decides_sending Sample.params Sample.env oc_lif
                (oc_state "wwn1" "wwn2" 0 lun_answers) "DELETE" "/sessions"
                {| Method := "DELETE";
                   URL := "u1/deviceManager/rest/SN1/sessions";
                   Body := None; Hdr := ∅ |} 1 eq_refl)
      as (_ & _ & Hs).
    apply Hs. by right.
Defined.

(** ** DuplicateClient *)

(** The struct [OceanstorClient] as the source declares it: embedded
    pointers only.  The fields the methods use ([Client], [Urls], ...)
    are promoted through the embedded [*RestClient]; the record
    [OceanstorClient] above is the object that pointer refers to.  The
    other embedded clients hold the same rest client behind an
    interface and are left out. *)
Record OceanstorClientStruct : Type := mkOceanstorClientStruct {
  RestClient_ptr : loc
}.

(** The rest clients of the process, by address. *)
Abbreviation Heap := (gmap loc OceanstorClient).

Definition set_rest (f : RestClient → RestClient) (o : OceanstorClient)
    : OceanstorClient :=
  {| rest := f (rest o);
     CurrentLifWwn := CurrentLifWwn o;
     CurrentSiteWwn := CurrentSiteWwn o |}.

(** The builtin [copy(dst, src)]: the first [min(len(dst), len(src))]
    elements of [dst] become those of [src]. *)
Definition copy_strings (dst src : list string) : list string :=
  take (length dst) src ++ drop (length src) dst.

(** [DuplicateClient].  [dup := *cli] copies the struct, and with it
    the pointer; [dup.Urls], [cli.Urls] and [dup.Client] all go through
    that pointer.  The statements are taken in order: the new slice is
    stored in [dup.Urls] before [copy] reads [cli.Urls].  The result is
    the new struct (a nil receiver panics: [None]). *)
Definition DuplicateClient (cli : OceanstorClientStruct) (σ : Heap)
    : option (OceanstorClientStruct * Heap) :=
  (* dup := *cli *)
  let dup := {| RestClient_ptr := RestClient_ptr cli |} in
  (* dup.Urls = make([]string, len(cli.Urls)) *)
  o ← σ !! RestClient_ptr cli;
  let fresh := replicate (length (Urls (rest o))) "" in
  let σ := alter (set_rest (set_Urls fresh)) (RestClient_ptr dup) σ in
  (* copy(dup.Urls, cli.Urls) *)
  d ← σ !! RestClient_ptr dup;
  c ← σ !! RestClient_ptr cli;
  let σ := alter (set_rest (set_Urls (copy_strings (Urls (rest d))
                                        (Urls (rest c)))))
             (RestClient_ptr dup) σ in
  (* dup.Client = nil *)
  let σ := alter (set_rest (set_Client None)) (RestClient_ptr dup) σ in
  Some (dup, σ).

Lemma copy_strings_self (l : list string) : copy_strings l l = l.
Proof.
  unfold copy_strings. by rewrite firstn_all, drop_all, app_nil_r.
Qed.

(** The rest client as [DuplicateClient] leaves it. *)
Definition duplicated (o : OceanstorClient) : OceanstorClient :=
  set_rest (set_Client None)
    (set_rest (set_Urls (replicate (length (Urls (rest o))) "")) o).

Section Duplicate.
Variable P : Params.
Variable E : Env.
Variable oc_GetRequest :
  OceanstorClient → string → string → option (gmap string any) →
  Request + string.
Variable GetCurrentLif : OceanstorClient → string.

(** X14.  [DuplicateClient] copies the outer struct only.  The
    duplicate refers to the rest client of the original, so what the
    function writes "to the duplicate" is written to the rest client
    both share: its transport is nil afterwards, and its address list
    is the new slice, which [copy] then reads as its own source, so
    every address is the empty string.  Token, device id and the rest
    are untouched, and no other rest client is.  A [SafeBaseCall]
    through the original or the duplicate then fails with "client not
    init" without sending anything. *)
Theorem duplicateclient_shares_rest_client (oc : OceanstorClientStruct)
    (σ : Heap) (o : OceanstorClient) :
  σ !! RestClient_ptr oc = Some o →
  ∃ dup σ',
    DuplicateClient oc σ = Some (dup, σ')
    ∧ RestClient_ptr dup = RestClient_ptr oc
    ∧ σ' !! RestClient_ptr oc = Some (duplicated o)
    ∧ Client (rest (duplicated o)) = None
    ∧ Urls (rest (duplicated o)) = replicate (length (Urls (rest o))) ""
    ∧ Token (rest (duplicated o)) = Token (rest o)
    ∧ DeviceId (rest (duplicated o)) = DeviceId (rest o)
    ∧ RequestSemaphore (rest (duplicated o)) = RequestSemaphore (rest o)
    ∧ (∀ l, l ≠ RestClient_ptr oc → σ' !! l = σ !! l)
    ∧ ∀ p method url data,
        let s := {| cli := duplicated o; proc := p |} in
        SafeBaseCall P E oc_GetRequest GetCurrentLif method url data s
        = (Done (Response_zero,
                 Some ("failed to send request method: " +:+ method
                       +:+ ", url: " +:+ url
                       +:+ ", cause by client not init")), s).
Proof.
  intros Ho. unfold DuplicateClient. cbn. rewrite Ho. cbn.
  rewrite lookup_alter_eq, Ho. cbn. rewrite firstn_all, drop_all, app_nil_r.
  eexists _, _. split; [reflexivity|]. split; [done|].
  split; [|split; [done|]; split; [done|]; split; [done|]; split; [done|];
            split; [done|]; split].
  - rewrite !lookup_alter_eq, Ho. cbn. by destruct o as [[]].
  - intros l Hl. by rewrite !lookup_alter_ne.
  - intros p method url data. unfold SafeBaseCall. by run.
Qed.

End Duplicate.

Lemma duplicateclient_shares_rest_client_witness :
  ∃ dup σ',
    DuplicateClient {| RestClient_ptr := 7 |}
      {[ 7 := cli (oc_state "wwn1" "wwn1" 0 lun_answers) ]}
    = Some (dup, σ')
    ∧ Urls (rest (cli (oc_state "wwn1" "wwn1" 0 lun_answers))) = ["u1"; "u2"]
    ∧ σ' !! 7 = Some (duplicated (cli (oc_state "wwn1" "wwn1" 0 lun_answers)))
    ∧ Urls (rest (duplicated (cli (oc_state "wwn1" "wwn1" 0 lun_answers))))
      = [""; ""].
Proof.
  destruct (duplicateclient_shares_rest_client Sample.params Sample.env
              oc_request oc_lif {| RestClient_ptr := 7 |}
              {[ 7 := cli (oc_state "wwn1" "wwn1" 0 lun_answers) ]}
              (cli (oc_state "wwn1" "wwn1" 0 lun_answers))
              (lookup_singleton_eq _ _))
    as (dup & σ' & Hd & _ & Hl & _ & Hu & _).
  exists dup, σ'. split; [exact Hd|]. split; [reflexivity|].
  split; [exact Hl|]. exact Hu.
Defined.

(** ** getObjByvStoreName *)

Section VStoreObjects.
Variable P : Params.

(** The vstore an object of a reply belongs to: its [vstoreName] when
    that is a string, else the default vstore. *)
Definition vstore_of (obj : gmap string any) : string :=
  match obj !! "vstoreName" with
  | Some (Str v) => v
  | _ => DefaultVStore P
  end.

(** [getObjByvStoreName], for the vstore name [vStoreName] that
    [cli.GetvStoreName()] gives.  Entries that are not objects are
    skipped; the result [None] is the nil map.  (Decoded replies hold
    no nil map, which the loop would skip as well.) *)
Fixpoint getObjByvStoreName (vStoreName : string) (objList : list any)
    : option (gmap string any) :=
  match objList with
  | [] => None
  | data :: objList =>
      match data with
      | Map obj =>
          if bool_decide (vstore_of obj = vStoreName) then Some obj
          else getObjByvStoreName vStoreName objList
      | _ => getObjByvStoreName vStoreName objList
      end
  end.

(** X15.  [getObjByvStoreName] returns the first object of the list
    that belongs to the client's vstore, where an object without a
    string [vstoreName] counts as belonging to the default vstore; it
    returns nil exactly when the list has no such object.  Entries
    that are not objects are passed over. *)
Theorem getobjbyvstorename_first_match (vStoreName : string)
    (objList : list any) :
  (∀ obj, getObjByvStoreName vStoreName objList = Some obj ↔
     ∃ i, objList !! i = Some (Map obj)
          ∧ vstore_of obj = vStoreName
          ∧ ∀ j o, j < i → objList !! j = Some (Map o) →
                   vstore_of o ≠ vStoreName)
  ∧ (getObjByvStoreName vStoreName objList = None ↔
     ∀ o, Map o ∈ objList → vstore_of o ≠ vStoreName).
Proof.
  induction objList as [|data l [IH1 IH2]].
  - split.
    + intros obj. split; [done|]. by intros (i & Hi & _).
    + split; [|done]. intros _ o Hin. by apply elem_of_nil in Hin.
  - assert (Hskip : (∀ o, data ≠ Map o ∨ ∃ o, data = Map o
                                              ∧ vstore_of o ≠ vStoreName) →
              (∀ obj, getObjByvStoreName vStoreName l = Some obj ↔
                 ∃ i, (data :: l) !! i = Some (Map obj)
                      ∧ vstore_of obj = vStoreName
                      ∧ ∀ j o, j < i → (data :: l) !! j = Some (Map o) →
                               vstore_of o ≠ vStoreName)
              ∧ (getObjByvStoreName vStoreName l = None ↔
                 ∀ o, Map o ∈ data :: l → vstore_of o ≠ vStoreName)).
    { intros Hd.
      assert (Hhead : ∀ o, data = Map o → vstore_of o ≠ vStoreName).
      { intros o ->. destruct (Hd o) as [?|(o' & [= <-] & ?)]; done. }
      split.
      - intros obj. rewrite IH1. split.
        + intros (i & Hi & Hv & Hfirst). exists (S i).
          repeat split; try done.
          intros [|j] o Hj Hl; cbn in Hl.
          * injection Hl as ->. by apply Hhead.
          * apply (Hfirst j); [lia|done].
        + intros ([|i] & Hi & Hv & Hfirst); cbn in Hi.
          * injection Hi as ->. by destruct (Hhead obj eq_refl).
          * exists i. repeat split; try done.
            intros j o Hj Hl. apply (Hfirst (S j)); [lia|done].
      - rewrite IH2. split.
        + intros Hall o Hin. apply elem_of_cons in Hin as [Heq|Hin].
          * by apply Hhead.
          * by apply Hall.
        + intros Hall o Hin. apply Hall. by apply elem_of_cons; right. }
    destruct data as [| | | |obj0|]; cbn;
      try (apply Hskip; intros o; by left).
    destruct (bool_decide (vstore_of obj0 = vStoreName)) eqn:Hm.
    + apply bool_decide_eq_true in Hm. split.
      * intros obj. split.
        -- intros [= <-]. exists 0. repeat split; try done. lia.
        -- intros ([|i] & Hi & Hv & Hfirst); cbn in Hi.
           ++ by injection Hi as ->.
           ++ by destruct (Hfirst 0 obj0 ltac:(lia) eq_refl).
      * split; [done|]. intros Hall.
        by destruct (Hall obj0 ltac:(by left)).
    + apply bool_decide_eq_false in Hm.
      apply Hskip. intros o. right. by exists obj0.
Qed.

End VStoreObjects.

(** Objects without a name count for the default vstore. *)
Example unnamed_object_is_default_vstore :
  getObjByvStoreName Sample.params "System_vStore"
    [Str "x"; Map {[ "vstoreName" := Str "tenant" ]};
     Map {[ "ID" := Str "1" ]}; Map {[ "vstoreName" := Str "System_vStore" ]}]
  = Some {[ "ID" := Str "1" ]}.
Proof. vm_compute. reflexivity. Qed.

(** * The NFS connector (package nfs)

    The helpers of the connector work on the host: they stat and make
    directories, run [blkid] and [mkfs], mount and unmount.  The host
    is a parameter; every call to it is recorded with what it
    returned, so that a run can be read afterwards. *)
Module Nfs.

(** [csi.VolumeCapability_AccessMode_Mode] *)
Inductive AccessMode : Type :=
  | UNKNOWN
  | SINGLE_NODE_WRITER
  | SINGLE_NODE_READER_ONLY
  | MULTI_NODE_READER_ONLY
  | MULTI_NODE_SINGLE_WRITER
  | MULTI_NODE_MULTI_WRITER
  | SINGLE_NODE_SINGLE_WRITER
  | SINGLE_NODE_MULTI_WRITER.

#[global] Instance AccessMode_eq_dec : EqDecision AccessMode.
Proof. solve_decision. Defined.

(** What a connection property can hold, as far as the connector tells
    values apart: a string, an access mode, anything else. *)
Inductive prop : Type :=
  | PStr (s : string)
  | PMode (m : AccessMode)
  | POther.

(** [connUtils.MountParam] *)
Record MountParam : Type := mkMountParam {
  DashO : string;
  DashT : string
}.

Record connectorInfo : Type := mkConnectorInfo {
  srcType : string;
  sourcePath : string;
  targetPath : string;
  fsType : string;
  mntFlags : MountParam;
  accessMode : AccessMode
}.

(** The error of [utils.ExecShellCmd]: an [*exec.ExitError] with its
    exit code, or another error. *)
Inductive exec_error : Type :=
  | ExitError (code : Z) (text : string)
  | OtherError (text : string).

Definition exec_text (e : exec_error) : string :=
  match e with ExitError _ t | OtherError t => t end.

(** What [os.Stat] tells: the path is there, it is not
    ([os.IsNotExist]), or another error. *)
Inductive stat_result : Type :=
  | StatOk
  | StatNotExist
  | StatErr (text : string).

(** [err != nil && os.IsNotExist(err)] on the result of [os.Stat] *)
Definition is_not_exist (st : stat_result) : bool :=
  match st with StatNotExist => true | _ => false end.

(** The host. *)
Record Sys : Type := mkSys {
  Host : Type;
  os_Stat : string → Host → stat_result * Host;
  os_MkdirAll : string → Z → Host → error * Host;
  os_RemoveAll : string → Host → error * Host;
  PathExist : string → Host → (bool * error) * Host;
  ExecShellCmd : string → list string → Host
                 → (string * option exec_error) * Host;
  IsDeviceFormatted : string → Host → (bool * error) * Host;
  IsInFormatting : string → string → Host → (bool * error) * Host;
  GetDeviceSize : string → Host → (Z * error) * Host;
  ReadDevice : string → Host → error * Host;
  ResizeMountPath : string → Host → error * Host;
  MountToDir : string → string → MountParam → bool → Host → error * Host;
  Unmount : string → Host → error * Host
}.

(** A call to the host, with what it returned. *)
Inductive Ev : Type :=
  | EvStat (path : string) (r : stat_result)
  | EvMkdirAll (path : string) (perm : Z) (err : error)
  | EvRemoveAll (path : string) (err : error)
  | EvPathExist (path : string) (r : bool * error)
  | EvExec (format : string) (args : list string)
      (r : string * option exec_error)
  | EvIsDeviceFormatted (path : string) (r : bool * error)
  | EvIsInFormatting (path fs : string) (r : bool * error)
  | EvGetDeviceSize (path : string) (r : Z * error)
  | EvReadDevice (path : string) (err : error)
  | EvResizeMountPath (path : string) (err : error)
  | EvMountToDir (source target : string) (flags : MountParam)
      (checkSourcePath : bool) (err : error)
  | EvUnmount (path : string) (err : error)
  | EvSleep (seconds : Z).

(** Functions of the connector: they thread the host and the record of
    the calls. *)
Definition N (V : Sys) (A : Type) : Type :=
  Host V * list Ev → A * (Host V * list Ev).

#[global] Instance N_ret {V} : MRet (N V) := fun A a s => (a, s).
#[global] Instance N_bind {V} : MBind (N V) :=
  fun A B k m s => let '(a, s') := m s in k a s'.

Definition call {V A} (f : Host V → A * Host V) (ev : A → Ev) : N V A :=
  fun s => let '(a, w) := f s.1 in (a, (w, s.2 ++ [ev a])).

Definition sleep {V} (seconds : Z) : N V unit :=
  fun s => (tt, (s.1, s.2 ++ [EvSleep seconds])).

(** [strings.Split(s, sep)] for a separator of one byte. *)
Fixpoint split_on (sep : ascii) (s : string) : list string :=
  match s with
  | EmptyString => [EmptyString]
  | String c s' =>
      if bool_decide (c = sep) then EmptyString :: split_on sep s'
      else match split_on sep s' with
           | piece :: pieces => String c piece :: pieces
           | [] => [String c EmptyString]
           end
  end.

(** [strings.Contains(s, substr)] *)
Definition contains (s substr : string) : bool :=
  match String.index 0 substr s with Some _ => true | None => false end.

(** [%v] of an error. *)
Definition show_error (e : error) : string :=
  match e with Some t => t | None => "<nil>" end.

Definition fsInfoSegment : nat := 2.
Definition targetMountPathPermission : Z := 488. (* 0750 *)
Definition unformattedFsCode : Z := 2.

(** The loop of [getFSType] over the lines of the output of [blkid]. *)
Fixpoint find_fs_type (lines : list string) : option string :=
  match lines with
  | [] => None
  | out :: lines =>
      let fsInfo := split_on "=" out in
      if bool_decide (length fsInfo = fsInfoSegment)
         && bool_decide (fsInfo !! 0 = Some "ID_FS_TYPE")
      then fsInfo !! 1
      else find_fs_type lines
  end.

Section Connector.
Variable V : Sys.

(** Constants of the repository that are not in the sources. *)
Variable ProtocolDpc ProtocolDtfs : string.
Variable formatWaitInternal : Z.
Variable halfTiSizeBytes oneTiSizeBytes tenTiSizeBytes : Z.
Variable hundredTiSizeBytes halfPiSizeBytes : Z.

(** [strings.TrimSpace] of the standard library. *)
Variable TrimSpace : string → string.

(** [v.(string)]: the string and whether the assertion holds. *)
Definition as_string (v : option prop) : string * bool :=
  match v with Some (PStr s) => (s, true) | _ => (EmptyString, false) end.

Definition as_mode (v : option prop) : AccessMode * bool :=
  match v with Some (PMode m) => (m, true) | _ => (UNKNOWN, false) end.

Definition parseNFSInfo (connectionProperties : gmap string prop)
    : connectorInfo + string :=
  let '(srcType, typeExist) := as_string (connectionProperties !! "srcType") in
  if negb typeExist || bool_decide (srcType = "")
  then inr "there are no srcType in the connection info"
  else
    let '(sourcePath, srcPathExist) :=
      as_string (connectionProperties !! "sourcePath") in
    if negb srcPathExist || bool_decide (sourcePath = "")
    then inr "there are no source path in the connection info"
    else
      let '(targetPath, tgtPathExist) :=
        as_string (connectionProperties !! "targetPath") in
      if negb tgtPathExist || bool_decide (targetPath = "")
      then inr "there are no target path in the connection info"
      else
        let '(fsType, _) := as_string (connectionProperties !! "fsType") in
        let fsType := if bool_decide (fsType = "") then "ext4" else fsType in
        let '(accessMode, _) :=
          as_mode (connectionProperties !! "accessMode") in
        let '(mntDashO, _) :=
          as_string (connectionProperties !! "mountFlags") in
        let '(protocol, _) := as_string (connectionProperties !! "protocol") in
        let mntDashT := "" in
        let mntDashT :=
          if bool_decide (protocol = ProtocolDpc) then ProtocolDpc
          else mntDashT in
        let mntDashT :=
          if bool_decide (protocol = ProtocolDtfs) then ProtocolDtfs
          else mntDashT in
        inl {| srcType := srcType; sourcePath := sourcePath;
               targetPath := targetPath; fsType := fsType;
               accessMode := accessMode;
               mntFlags := {| DashO := TrimSpace mntDashO;
                              DashT := mntDashT |} |}.

Definition preMount (sourcePath targetPath : string)
    (checkSourcePath : bool) : N V error :=
  missing ← (if checkSourcePath then
               st ← call (os_Stat V sourcePath) (EvStat sourcePath);
               mret (is_not_exist st)
             else mret false);
  if (missing : bool) then mret (Some "source path does not exist")
  else
    st ← call (os_Stat V targetPath) (EvStat targetPath);
    if is_not_exist st then
      err ← call (os_MkdirAll V targetPath targetMountPathPermission)
               (EvMkdirAll targetPath targetMountPathPermission);
      match err with
      | Some _ => mret (Some "can not create a target path")
      | None => mret None
      end
    else mret None.

Definition mountFS (sourcePath targetPath : string) (flags : MountParam)
    : N V error :=
  call (MountToDir V sourcePath targetPath flags false)
    (EvMountToDir sourcePath targetPath flags false).

Definition getFSType (sourcePath : string) : N V (string * error) :=
  '(exists_, err) ← call (PathExist V sourcePath) (EvPathExist sourcePath);
  if negb exists_ then
    mret ("", Some ("find the device " +:+ sourcePath
                    +:+ " failed before get filesystem info, error: "
                    +:+ show_error err))
  else
    '(output, err) ← call (ExecShellCmd V "blkid -o udev %s" [sourcePath])
                       (EvExec "blkid -o udev %s" [sourcePath]);
    match err with
    | Some e =>
        match e with
        | ExitError code _ =>
            if bool_decide (code = unformattedFsCode) then
              '(formatted, ferr) ← call (IsDeviceFormatted V sourcePath)
                                     (EvIsDeviceFormatted sourcePath);
              match ferr with
              | Some fe =>
                  mret ("", Some ("check device " +:+ sourcePath
                                  +:+ " formatted failed, error: " +:+ fe))
              | None =>
                  if (formatted : bool) then
                    mret ("", Some ("1. Maybe the device " +:+ sourcePath
                                    +:+ " is formatted; 2. Maybe the device is a "
                                    +:+ "raw block volume, please check. error: "
                                    +:+ show_error ferr))
                  else mret ("", None)
              end
            else mret ("", Some (exec_text e))
        | OtherError _ => mret ("", Some (exec_text e))
        end
    | None =>
        match find_fs_type (split_on "010" output) with
        | Some fs => mret (fs, None)
        | None => mret ("", Some "get fsType failed")
        end
    end.

(** The command [formatDisk] builds, or the error for a size type it
    does not know. *)
Definition mkfs_command (sourcePath fsType diskSizeType : string)
    : string + string :=
  if bool_decide (fsType = "xfs")
  then inl ("mkfs -t " +:+ fsType +:+ " -f " +:+ sourcePath)
  else if bool_decide (diskSizeType = "default")
  then inl ("mkfs -t " +:+ fsType +:+ " -F " +:+ sourcePath)
  else if bool_decide (diskSizeType = "big")
  then inl ("mkfs -t " +:+ fsType +:+ " -T big -F " +:+ sourcePath)
  else if bool_decide (diskSizeType = "huge")
  then inl ("mkfs -t " +:+ fsType +:+ " -T huge -F " +:+ sourcePath)
  else if bool_decide (diskSizeType = "large")
  then inl ("mkfs -t " +:+ fsType +:+ " -T largefile -F " +:+ sourcePath)
  else if bool_decide (diskSizeType = "veryLarge")
  then inl ("mkfs -t " +:+ fsType +:+ " -T largefile4 -F " +:+ sourcePath)
  else inr ("diskSizeType:" +:+ diskSizeType +:+ " not found").

Definition formatDisk (sourcePath fsType diskSizeType : string)
    : N V error :=
  match mkfs_command sourcePath fsType diskSizeType with
  | inr e => mret (Some e)
  | inl cmd =>
      '(output, err) ← call (ExecShellCmd V cmd []) (EvExec cmd []);
      match err with
      | Some e =>
          if contains output "in use by the system" then
            sleep formatWaitInternal;;
            mret (Some "the disk is in formatting, please wait")
          else mret (Some (exec_text e))
      | None => mret None
      end
  end.

(** The size class of [getDiskSizeType] for a size. *)
Definition size_type (size : Z) : string * error :=
  if (size <=? halfTiSizeBytes)%Z then ("default", None)
  else if (halfTiSizeBytes <? size)%Z && (size <=? oneTiSizeBytes)%Z
  then ("big", None)
  else if (oneTiSizeBytes <? size)%Z && (size <=? tenTiSizeBytes)%Z
  then ("huge", None)
  else if (tenTiSizeBytes <? size)%Z && (size <=? hundredTiSizeBytes)%Z
  then ("large", None)
  else if (hundredTiSizeBytes <? size)%Z && (size <=? halfPiSizeBytes)%Z
  then ("veryLarge", None)
  else ("", Some "the disk size does not support").

Definition getDiskSizeType (sourcePath : string) : N V (string * error) :=
  '(size, err) ← call (GetDeviceSize V sourcePath)
                   (EvGetDeviceSize sourcePath);
  match err with
  | Some e => mret ("", Some e)
  | None => mret (size_type size)
  end.

Definition mountDisk (conn : connectorInfo) : N V error :=
  '(existFsType, err) ← getFSType (sourcePath conn);
  match err with
  | Some e => mret (Some e)
  | None =>
      if bool_decide (existFsType = "") then
        '(inFormatting, err) ←
          call (IsInFormatting V (sourcePath conn) (fsType conn))
            (EvIsInFormatting (sourcePath conn) (fsType conn));
        match err with
        | Some e => mret (Some e)
        | None =>
            if (inFormatting : bool) then
              sleep formatWaitInternal;;
              mret (Some "the disk is in formatting, please wait")
            else
              '(diskSizeType, err) ← getDiskSizeType (sourcePath conn);
              match err with
              | Some e => mret (Some e)
              | None =>
                  err ← formatDisk (sourcePath conn) (fsType conn)
                          diskSizeType;
                  match err with
                  | Some e => mret (Some e)
                  | None =>
                      call (MountToDir V (sourcePath conn) (targetPath conn)
                              (mntFlags conn) true)
                        (EvMountToDir (sourcePath conn) (targetPath conn)
                           (mntFlags conn) true)
                  end
              end
        end
      else
        err ← call (MountToDir V (sourcePath conn) (targetPath conn)
                      (mntFlags conn) true)
                (EvMountToDir (sourcePath conn) (targetPath conn)
                   (mntFlags conn) true);
        match err with
        | Some e => mret (Some e)
        | None =>
            if bool_decide (accessMode conn = MULTI_NODE_MULTI_WRITER)
            then mret None
            else if bool_decide (accessMode conn = MULTI_NODE_READER_ONLY)
            then mret None
            else
              call (ResizeMountPath V (targetPath conn))
                (EvResizeMountPath (targetPath conn))
        end
  end.

Definition tryConnectVolume (connMap : gmap string prop)
    : N V (string * error) :=
  match parseNFSInfo connMap with
  | inr e => mret ("", Some e)
  | inl conn =>
      if bool_decide (srcType conn = "block") then
        err ← call (ReadDevice V (sourcePath conn))
                (EvReadDevice (sourcePath conn));
        match err with
        | Some e => mret ("", Some e)
        | None =>
            err ← mountDisk conn;
            match err with
            | Some e => mret ("", Some e)
            | None => mret ("", None)
            end
        end
      else if bool_decide (srcType conn = "fs") then
        err ← mountFS (sourcePath conn) (targetPath conn) (mntFlags conn);
        match err with
        | Some e => mret ("", Some e)
        | None => mret ("", None)
        end
      else mret ("", Some "not support source type")
  end.

Definition removeTargetPath (targetPath : string) : N V error :=
  st ← call (os_Stat V targetPath) (EvStat targetPath);
  match st with
  | StatNotExist => mret None
  | StatErr e =>
      mret (Some ("get target path " +:+ targetPath +:+ " state error "
                  +:+ e))
  | StatOk =>
      err ← call (os_RemoveAll V targetPath) (EvRemoveAll targetPath);
      match err with
      | Some e =>
          mret (Some ("remove target path " +:+ targetPath +:+ " error "
                      +:+ e))
      | None => mret None
      end
  end.

Definition tryDisConnectVolume (targetPath : string) : N V error :=
  err ← call (Unmount V targetPath) (EvUnmount targetPath);
  match err with
  | Some e => mret (Some e)
  | None => removeTargetPath targetPath
  end.

End Connector.

End Nfs.

(** ** Properties of the connector *)
Module NfsFacts.
Import Nfs.

Create HintDb nfs discriminated.
#[local] Hint Unfold mbind N_bind mret N_ret call sleep : nfs.

Ltac nrun := repeat (progress (autounfold with nfs in *; cbn in *)).

(** *** Splitting *)

(** The byte [c] occurs in [s]. *)
Fixpoint occurs (c : ascii) (s : string) : Prop :=
  match s with
  | EmptyString => False
  | String c' s' => c' = c ∨ occurs c s'
  end.

Lemma split_on_nonempty sep s : split_on sep s ≠ [].
Proof.
  destruct s as [|c s]; cbn; [done|].
  destruct (bool_decide (c = sep)); [done|].
  by destruct (split_on sep s).
Qed.

(** A string splits in one piece exactly when the separator does not
    occur in it, and in two pieces [k], [v] exactly when it is [k], the
    separator, [v] with no separator in [k] and [v]. *)
Lemma split_on_one sep s x :
  split_on sep s = [x] ↔ s = x ∧ ¬ occurs sep s.
Proof.
  revert x. induction s as [|c s IH]; intros x; cbn.
  - split; [intros [= <-]; tauto|]. by intros [<- _].
  - destruct (bool_decide (c = sep)) eqn:Hc.
    + apply bool_decide_eq_true in Hc. split.
      * intros [= _ H]. by destruct (split_on_nonempty sep s).
      * intros [_ Hno]. destruct Hno. by left.
    + apply bool_decide_eq_false in Hc.
      destruct (split_on sep s) as [|p ps] eqn:Hs;
        [by destruct (split_on_nonempty sep s)|].
      split.
      * intros [= <- ->]. destruct (proj1 (IH p) eq_refl) as [-> Hno].
        split; [done|]. tauto.
      * intros [<- Hno].
        assert (H1 : p :: ps = [s]) by (apply IH; tauto).
        by injection H1 as -> ->.
Qed.

Lemma split_on_two sep s k v :
  split_on sep s = [k; v] ↔
  s = k +:+ String sep v ∧ ¬ occurs sep k ∧ ¬ occurs sep v.
Proof.
  revert k. induction s as [|c s IH]; intros k; cbn.
  - split; [done|]. intros [H _]. by destruct k.
  - destruct (bool_decide (c = sep)) eqn:Hc.
    + apply bool_decide_eq_true in Hc. subst c. split.
      * intros [= <- H]. apply split_on_one in H as [-> Hno].
        cbn. tauto.
      * intros (Hs & Hk & Hv). destruct k as [|c' k]; cbn in Hs.
        -- injection Hs as ->. f_equal. apply split_on_one. tauto.
        -- injection Hs as <- _. destruct Hk. by left.
    + apply bool_decide_eq_false in Hc.
      destruct (split_on sep s) as [|p ps] eqn:Hs;
        [by destruct (split_on_nonempty sep s)|].
      split.
      * intros [= <- ->]. destruct (proj1 (IH p) eq_refl) as (-> & Hk & Hv).
        cbn. tauto.
      * intros (Heq & Hk & Hv). destruct k as [|c' k]; cbn in Heq.
        -- injection Heq as -> _. done.
        -- injection Heq as <- ->. cbn in Hk.
           assert (H2 : p :: ps = [k; v]).
           { apply IH. tauto. }
           by injection H2 as -> ->.
Qed.

(** X16.  Reading the type of the file system from the output of
    [blkid -o udev].  The loop of [getFSType] returns the value of the
    first line that reads [ID_FS_TYPE=value] with no further [=] in the
    value, and nothing when there is no such line: a line with a
    second [=], or with another key, is passed over.  The value may be
    empty. *)
Theorem find_fs_type_first_line (lines : list string) :
  (∀ fs, find_fs_type lines = Some fs ↔
     ∃ i, lines !! i = Some ("ID_FS_TYPE=" +:+ fs) ∧ ¬ occurs "=" fs
          ∧ ∀ j fs', j < i → ¬ occurs "=" fs' →
                     lines !! j ≠ Some ("ID_FS_TYPE=" +:+ fs'))
  ∧ (find_fs_type lines = None ↔
     ∀ fs, ¬ occurs "=" fs → "ID_FS_TYPE=" +:+ fs ∉ lines).
Proof.
  assert (Hline : ∀ out fs,
            (split_on "=" out = ["ID_FS_TYPE"; fs]) ↔
            (out = "ID_FS_TYPE=" +:+ fs ∧ ¬ occurs "=" fs)).
  { intros out fs. rewrite split_on_two. cbn. intuition congruence. }
  assert (Hhit : ∀ out,
            (∃ fs, split_on "=" out = ["ID_FS_TYPE"; fs])
            ∨ (bool_decide (length (split_on "=" out) = fsInfoSegment)
               && bool_decide (split_on "=" out !! 0 = Some "ID_FS_TYPE")
               = false
               ∧ ∀ fs, split_on "=" out ≠ ["ID_FS_TYPE"; fs])).
  { intros out. destruct (split_on "=" out) as [|k [|v [|x l]]];
      try (right; by split).
    cbn. destruct (decide (k = "ID_FS_TYPE")) as [->|Hk].
    - left. by exists v.
    - right. rewrite (bool_decide_eq_false_2 (Some k = _)) by congruence.
      split; [done|]. congruence. }
  induction lines as [|out lines [IH1 IH2]].
  - split.
    + intros fs. split; [done|]. by intros (i & Hi & _).
    + split; [|done]. intros _ fs _ Hin. by apply elem_of_nil in Hin.
  - cbn [find_fs_type]. destruct (Hhit out) as [(fs0 & Hs)|(Hb & Hno)].
    + rewrite Hs. cbn. apply Hline in Hs as [-> Hfs0]. split.
      * intros fs. split.
        -- intros [= <-]. exists 0. repeat split; try done. lia.
        -- intros ([|i] & Hi & Hfs & Hfirst); cbn in Hi.
           ++ cbn in Hi. by simplify_eq.
           ++ by destruct (Hfirst 0 fs0 ltac:(lia) Hfs0).
      * split; [done|]. intros Hall.
        destruct (Hall fs0 Hfs0). by left.
    + rewrite Hb.
      assert (Hout : ∀ fs, ¬ occurs "=" fs → out ≠ "ID_FS_TYPE=" +:+ fs).
      { intros fs Hfs Heq. apply (Hno fs). by apply Hline. }
      split.
      * intros fs. rewrite IH1. split.
        -- intros (i & Hi & Hfs & Hfirst). exists (S i).
           repeat split; try done.
           intros [|j] fs' Hj Hfs'; cbn.
           ++ intros [= Heq]. by apply (Hout fs').
           ++ apply Hfirst; [lia|done].
        -- intros ([|i] & Hi & Hfs & Hfirst); cbn in Hi.
           ++ injection Hi as Hi. by destruct (Hout fs Hfs).
           ++ exists i. repeat split; try done.
              intros j fs' Hj Hfs'. apply (Hfirst (S j)); [lia|done].
      * rewrite IH2. split.
        -- intros Hall fs Hfs Hin. apply elem_of_cons in Hin as [Heq|Hin].
           ++ by apply (Hout fs).
           ++ by apply (Hall fs).
        -- intros Hall fs Hfs Hin. apply (Hall fs Hfs).
           by apply elem_of_cons; right.
Qed.

(** *** The functions on the host *)

Section ConnectorFacts.
Variable V : Sys.
Variable ProtocolDpc ProtocolDtfs : string.
Variable formatWaitInternal : Z.
Variable halfTiSizeBytes oneTiSizeBytes tenTiSizeBytes : Z.
Variable hundredTiSizeBytes halfPiSizeBytes : Z.
Variable TrimSpace : string → string.

Abbreviation size_type' :=
  (size_type halfTiSizeBytes oneTiSizeBytes tenTiSizeBytes
     hundredTiSizeBytes halfPiSizeBytes).
Abbreviation mountDisk' :=
  (mountDisk V formatWaitInternal halfTiSizeBytes oneTiSizeBytes
     tenTiSizeBytes hundredTiSizeBytes halfPiSizeBytes).
Abbreviation tryConnectVolume' :=
  (tryConnectVolume V ProtocolDpc ProtocolDtfs formatWaitInternal
     halfTiSizeBytes oneTiSizeBytes tenTiSizeBytes hundredTiSizeBytes
     halfPiSizeBytes TrimSpace).
Abbreviation parseNFSInfo' :=
  (parseNFSInfo ProtocolDpc ProtocolDtfs TrimSpace).

(** The property [v] holds a string that is not empty. *)
Definition filled (v : option prop) : Prop :=
  ∃ s, v = Some (PStr s) ∧ s ≠ "".

Lemma as_string_filled v :
  (negb (as_string v).2 || bool_decide ((as_string v).1 = "") = false
   ∧ v = Some (PStr (as_string v).1) ∧ (as_string v).1 ≠ "")
  ∨ (negb (as_string v).2 || bool_decide ((as_string v).1 = "") = true
     ∧ ¬ filled v).
Proof.
  destruct v as [[s| |]|]; cbn;
    try (right; split; [done|]; by intros (? & ? & ?)).
  destruct (decide (s = "")) as [->|Hs].
  - right. split; [done|]. intros (? & [= <-] & ?). done.
  - left. by rewrite bool_decide_eq_false_2.
Qed.

(** X17.  [parseNFSInfo] wants three properties to be strings that are
    not empty: [srcType], [sourcePath], [targetPath].  When they are,
    it succeeds and carries them over; the file system type is the
    given one, or [ext4] when it is missing, not a string, or empty, so
    it is never empty; the mount type is the protocol when that is one
    of the two special ones, else empty.  When one is missing, not a
    string, or empty, the error names the first such in that order. *)
Theorem parsenfsinfo_required_fields (cp : gmap string prop) :
  (∀ conn, parseNFSInfo' cp = inl conn →
     cp !! "srcType" = Some (PStr (srcType conn)) ∧ srcType conn ≠ ""
     ∧ cp !! "sourcePath" = Some (PStr (sourcePath conn))
     ∧ sourcePath conn ≠ ""
     ∧ cp !! "targetPath" = Some (PStr (targetPath conn))
     ∧ targetPath conn ≠ ""
     ∧ fsType conn ≠ ""
     ∧ (cp !! "fsType" = Some (PStr (fsType conn)) ∨ fsType conn = "ext4")
     ∧ (DashT (mntFlags conn) = ""
        ∨ (cp !! "protocol" = Some (PStr (DashT (mntFlags conn)))
           ∧ (DashT (mntFlags conn) = ProtocolDpc
              ∨ DashT (mntFlags conn) = ProtocolDtfs))))
  ∧ (∀ e, parseNFSInfo' cp = inr e →
     (¬ filled (cp !! "srcType")
      ∧ e = "there are no srcType in the connection info")
     ∨ (filled (cp !! "srcType") ∧ ¬ filled (cp !! "sourcePath")
        ∧ e = "there are no source path in the connection info")
     ∨ (filled (cp !! "srcType") ∧ filled (cp !! "sourcePath")
        ∧ ¬ filled (cp !! "targetPath")
        ∧ e = "there are no target path in the connection info"))
  ∧ (filled (cp !! "srcType") → filled (cp !! "sourcePath") →
     filled (cp !! "targetPath") → ∃ conn, parseNFSInfo' cp = inl conn).
Proof.
  unfold parseNFSInfo.
  destruct (as_string_filled (cp !! "srcType")) as [(H1 & E1 & N1)|(H1 & F1)];
    destruct (as_string (cp !! "srcType")) as [v1 ok1]; cbn in *; rewrite H1.
  2: { split; [done|]. split; [intros e [= <-]; by left|]. tauto. }
  destruct (as_string_filled (cp !! "sourcePath"))
    as [(H2 & E2 & N2)|(H2 & F2)];
    destruct (as_string (cp !! "sourcePath")) as [v2 ok2]; cbn in *;
    rewrite H2.
  2: { split; [done|]. split; [|tauto].
       intros e [= <-]. right; left. split; [by exists v1|done]. }
  destruct (as_string_filled (cp !! "targetPath"))
    as [(H3 & E3 & N3)|(H3 & F3)];
    destruct (as_string (cp !! "targetPath")) as [v3 ok3]; cbn in *;
    rewrite H3.
  2: { split; [done|]. split; [|tauto].
       intros e [= <-]. right; right.
       split; [by exists v1|]. split; [by exists v2|done]. }
  destruct (as_string (cp !! "fsType")) as [v4 ok4] eqn:H4.
  destruct (as_mode (cp !! "accessMode")) as [v5 ok5].
  destruct (as_string (cp !! "mountFlags")) as [v6 ok6].
  destruct (as_string (cp !! "protocol")) as [v7 ok7] eqn:H7.
  split; [|split; [done|by eauto]].
  intros conn [= <-]. cbn.
  repeat (split; [done|]).
  assert (Hp : v7 ≠ "" → cp !! "protocol" = Some (PStr v7)).
  { destruct (cp !! "protocol") as [[| |]|]; cbn in H7; by simplify_eq. }
  split; [|split].
  - destruct (decide (v4 = "")) as [->|Hv]; [done|].
    by rewrite bool_decide_eq_false_2.
  - destruct (decide (v4 = "")) as [->|Hv]; [by right|].
    rewrite bool_decide_eq_false_2 by done. left.
    destruct (cp !! "fsType") as [[| |]|]; cbn in H4; by simplify_eq.
  - destruct (bool_decide (v7 = ProtocolDtfs)) eqn:Hb2.
    + apply bool_decide_eq_true in Hb2. subst v7.
      destruct (decide (ProtocolDtfs = "")) as [Hz|Hz]; [by left|].
      right. split; [by apply Hp|by right].
    + destruct (bool_decide (v7 = ProtocolDpc)) eqn:Hb1; [|by left].
      apply bool_decide_eq_true in Hb1. subst v7.
      destruct (decide (ProtocolDpc = "")) as [Hz|Hz]; [by left|].
      right. split; [by apply Hp|by left].
Qed.

(** X18.  Size classes and the format command fit together.  Every
    class that [getDiskSizeType] can return is one [formatDisk] knows,
    so the size type of a device that was measured never makes
    [formatDisk] fail with "not found"; for [xfs] the class is not
    looked at at all.  When the command cannot be built, [formatDisk]
    returns the error without calling the host; when it can, that one
    command is all it runs.  It waits, once, exactly when the command
    failed with an output that says the disk is in use, and then
    reports that the disk is in formatting; another failure is
    returned as it is, and nil exactly when the command succeeded. *)
Theorem formatdisk_accepts_size_classes :
  (∀ size ty, size_type' size = (ty, None) →
     ∀ src fs, ∃ cmd, mkfs_command src fs ty = inl cmd)
  ∧ (∀ src ty, mkfs_command src "xfs" ty = inl ("mkfs -t xfs -f " +:+ src))
  ∧ (∀ src fs ty e s, mkfs_command src fs ty = inr e →
       formatDisk V formatWaitInternal src fs ty s = (Some e, s))
  ∧ (∀ src fs ty cmd s, mkfs_command src fs ty = inl cmd →
       let r := (ExecShellCmd V cmd [] s.1).1 in
       let busy := contains r.1 "in use by the system" in
       let f := formatDisk V formatWaitInternal src fs ty s in
       f.2.2
       = s.2 ++ EvExec cmd [] r
                :: match r.2 with
                   | Some _ => if busy then [EvSleep formatWaitInternal]
                               else []
                   | None => []
                   end
       ∧ f.1
         = match r.2 with
           | Some e =>
               Some (if busy then "the disk is in formatting, please wait"
                     else exec_text e)
           | None => None
           end
       ∧ f.2.1 = (ExecShellCmd V cmd [] s.1).2).
Proof.
  split; [|split; [|split]].
  - intros size ty Hty src fs. unfold size_type in Hty.
    unfold mkfs_command.
    destruct (bool_decide (fs = "xfs")); [by eexists|].
    repeat (match type of Hty with
            | (if ?b then _ else _) = _ => destruct b
            end; [injection Hty as <-; by eexists|]).
    discriminate Hty.
  - done.
  - intros src fs ty e s H. unfold formatDisk. by rewrite H.
  - intros src fs ty cmd s H r busy f. subst r busy f.
    unfold formatDisk. rewrite H. nrun.
    destruct (ExecShellCmd V cmd [] s.1) as [[out [e|]] w]; cbn; [|done].
    destruct (contains out "in use by the system"); cbn; [|done].
    by rewrite <- app_assoc.
Qed.

(** X19.  With the five bounds in increasing order, the size classes
    cover every size up to the largest bound without gap: a size gets
    a class exactly when it is at most [halfPiSizeBytes], and the
    class is the one of the first bound it does not exceed. *)
Theorem disk_size_classes (size : Z) :
  (halfTiSizeBytes ≤ oneTiSizeBytes)%Z →
  (oneTiSizeBytes ≤ tenTiSizeBytes)%Z →
  (tenTiSizeBytes ≤ hundredTiSizeBytes)%Z →
  (hundredTiSizeBytes ≤ halfPiSizeBytes)%Z →
  let class :=
    size_type halfTiSizeBytes oneTiSizeBytes tenTiSizeBytes
      hundredTiSizeBytes halfPiSizeBytes size in
  (class.2 = None ↔ (size ≤ halfPiSizeBytes)%Z)
  ∧ ((size ≤ halfTiSizeBytes)%Z → class = ("default", None))
  ∧ ((halfTiSizeBytes < size ≤ oneTiSizeBytes)%Z → class = ("big", None))
  ∧ ((oneTiSizeBytes < size ≤ tenTiSizeBytes)%Z → class = ("huge", None))
  ∧ ((tenTiSizeBytes < size ≤ hundredTiSizeBytes)%Z →
     class = ("large", None))
  ∧ ((hundredTiSizeBytes < size ≤ halfPiSizeBytes)%Z →
     class = ("veryLarge", None))
  ∧ ((halfPiSizeBytes < size)%Z →
     class = ("", Some "the disk size does not support")).
Proof.
  intros H1 H2 H3 H4 class. subst class. unfold size_type.
  repeat (match goal with
          | |- context [(?a <=? ?b)%Z] => destruct (Z.leb_spec a b)
          | |- context [(?a <? ?b)%Z] => destruct (Z.ltb_spec a b)
          end; try (exfalso; lia); cbn).
  all: repeat split; intros; try done; lia.
Qed.

(** *** Mounting a block device *)

Definition blkid (src : string) (r : string * option exec_error) : Ev :=
  EvExec "blkid -o udev %s" [src] r.

(** What the host said that makes [getFSType] report no file system
    without an error: [blkid] left with the exit code 2 and the check
    for a format found none; or [blkid] succeeded and its first
    [ID_FS_TYPE] line has an empty value. *)
Definition unformatted_evidence (src : string) (t : list Ev) : Prop :=
  (∃ e out text,
     t = [EvPathExist src (true, e);
          blkid src (out, Some (ExitError unformattedFsCode text));
          EvIsDeviceFormatted src (false, None)])
  ∨ (∃ e out,
       t = [EvPathExist src (true, e); blkid src (out, None)]
       ∧ find_fs_type (split_on "010" out) = Some "").

(** A command without arguments in [t]: the way [formatDisk] runs
    [mkfs] ([blkid] is run with the device as argument). *)
Definition runs_command (t : list Ev) : Prop :=
  ∃ cmd r, EvExec cmd [] r ∈ t.

Ltac not_in H :=
  repeat (apply elem_of_cons in H as [H|H]; [discriminate H|]);
  by apply elem_of_nil in H.

Lemma getFSType_course src s :
  ∃ t, (getFSType V src s).2.2 = s.2 ++ t
       ∧ ¬ runs_command t
       ∧ ((getFSType V src s).1 = ("", None) → unformatted_evidence src t)
       ∧ (∀ fs, (getFSType V src s).1 = (fs, None) → fs ≠ "" →
            ∃ e out, t = [EvPathExist src (true, e); blkid src (out, None)]
                     ∧ find_fs_type (split_on "010" out) = Some fs).
Proof.
  unfold getFSType, unformatted_evidence, runs_command, blkid. nrun.
  destruct (PathExist V src s.1) as [[[] e] w]; cbn.
  2: { eexists. split; [reflexivity|]. split; [|by split].
       intros (cmd & r & Hin). not_in Hin. }
  destruct (ExecShellCmd V "blkid -o udev %s" [src] w)
    as [[out [[code text|text]|]] w1]; cbn.
  - destruct (bool_decide (code = unformattedFsCode)) eqn:Hcode; cbn.
    + apply bool_decide_eq_true in Hcode. subst code.
      destruct (IsDeviceFormatted V src w1) as [[formatted [fe|]] w2]; cbn.
      * eexists. rewrite <- !app_assoc. split; [reflexivity|].
        split; [|by split]. intros (cmd & r & Hin). not_in Hin.
      * destruct formatted; cbn.
        -- eexists. rewrite <- !app_assoc. split; [reflexivity|].
           split; [|by split]. intros (cmd & r & Hin). not_in Hin.
        -- eexists. rewrite <- !app_assoc. split; [reflexivity|].
           split; [intros (cmd & r & Hin); not_in Hin|].
           split; [|by intros fs [= <-]].
           intros _. left. by eexists _, _, _.
    + eexists. rewrite <- !app_assoc. split; [reflexivity|].
      split; [|by split]. intros (cmd & r & Hin). not_in Hin.
  - eexists. rewrite <- !app_assoc. split; [reflexivity|].
    split; [|by split]. intros (cmd & r & Hin). not_in Hin.
  - destruct (find_fs_type (split_on "010" out)) as [fs|] eqn:Hfs; cbn.
    + eexists. rewrite <- !app_assoc. split; [reflexivity|].
      split; [intros (cmd & r & Hin); not_in Hin|].
      split.
      * intros [= ->]. right. by eexists _, _.
      * intros fs' [= ->] _. by eexists _, _.
    + eexists. rewrite <- !app_assoc. split; [reflexivity|].
      split; [|by split]. intros (cmd & r & Hin). not_in Hin.
Qed.

(** X20.  [mountDisk] runs [mkfs] only on a device for which the host
    gave evidence that it has no file system.  In every run in which a
    format command is issued, the calls before it are exactly: the
    device exists; [blkid] ended with exit code 2 and the format check
    said "not formatted" (or [blkid] succeeded with an empty type);
    no format is under way; the size was read; and the command is the
    one for the requested file system type and the size class of that
    size.  After it comes at most the wait or the mount.  In all other
    runs (device missing, [blkid] failing otherwise, a file system
    found, a format under way, size not readable or not supported) no
    format command is issued. *)
Theorem mountdisk_formats_only_unformatted (conn : connectorInfo)
    (s : Host V * list Ev) :
  ∃ t, (mountDisk' conn s).2.2 = s.2 ++ t
       ∧ (runs_command t →
          ∃ pre size cmd r post,
            unformatted_evidence (sourcePath conn) pre
            ∧ (size_type' size).2 = None
            ∧ mkfs_command (sourcePath conn) (fsType conn)
                (size_type' size).1 = inl cmd
            ∧ t = pre
                  ++ [EvIsInFormatting (sourcePath conn) (fsType conn)
                        (false, None);
                      EvGetDeviceSize (sourcePath conn) (size, None);
                      EvExec cmd [] r]
                  ++ post
            ∧ (post = [] ∨ post = [EvSleep formatWaitInternal]
               ∨ ∃ e, post = [EvMountToDir (sourcePath conn)
                                (targetPath conn) (mntFlags conn) true e]
                      ∧ r.2 = None)).
Proof.
  unfold mountDisk.
  destruct (getFSType_course (sourcePath conn) s)
    as (t1 & Ht1 & Hno1 & Hev & Hfs).
  unfold mbind at 1, N_bind at 1.
  destruct (getFSType V (sourcePath conn) s) as [[fs [e|]] [w1 tr1]];
    cbn in Ht1; subst tr1.
  { exists t1. split; [done|]. intros Hrun. by destruct Hno1. }
  destruct (bool_decide (fs = "")) eqn:Hfs0.
  2: { (* a file system is there *)
    nrun.
    destruct (MountToDir V _ _ _ true w1) as [[e|] w2]; cbn.
    - eexists. rewrite <- app_assoc. split; [reflexivity|].
      intros (cmd & r & Hin). apply elem_of_app in Hin as [Hin|Hin].
      + destruct Hno1. by exists cmd, r.
      + not_in Hin.
    - destruct (bool_decide (accessMode conn = MULTI_NODE_MULTI_WRITER));
        [|destruct (bool_decide (accessMode conn = MULTI_NODE_READER_ONLY));
          [|nrun; destruct (ResizeMountPath V (targetPath conn) w2)
                    as [re w3]]];
        cbn; eexists; rewrite <- ?app_assoc;
        (split; [reflexivity|]);
        intros (cmd & r & Hin); apply elem_of_app in Hin as [Hin|Hin];
        try (destruct Hno1; by exists cmd, r); not_in Hin. }
  apply bool_decide_eq_true in Hfs0. subst fs.
  specialize (Hev eq_refl). clear Hfs.
  nrun.
  destruct (IsInFormatting V (sourcePath conn) (fsType conn) w1)
    as [[inFormatting [e|]] w2]; cbn.
  { eexists. rewrite <- app_assoc. split; [reflexivity|].
    intros (cmd & r & Hin). apply elem_of_app in Hin as [Hin|Hin].
    - destruct Hno1. by exists cmd, r.
    - not_in Hin. }
  destruct inFormatting; cbn.
  { eexists. rewrite <- !app_assoc. split; [reflexivity|].
    intros (cmd & r & Hin). apply elem_of_app in Hin as [Hin|Hin].
    - destruct Hno1. by exists cmd, r.
    - not_in Hin. }
  unfold getDiskSizeType. nrun.
  destruct (GetDeviceSize V (sourcePath conn) w2) as [[size [e|]] w3]; cbn.
  { eexists. rewrite <- !app_assoc. split; [reflexivity|].
    intros (cmd & r & Hin). apply elem_of_app in Hin as [Hin|Hin].
    - destruct Hno1. by exists cmd, r.
    - not_in Hin. }
  destruct (size_type' size) as [ty [e|]] eqn:Hty; cbn.
  { eexists. rewrite <- !app_assoc. split; [reflexivity|].
    intros (cmd & r & Hin). apply elem_of_app in Hin as [Hin|Hin].
    - destruct Hno1. by exists cmd, r.
    - not_in Hin. }
  unfold formatDisk.
  destruct (mkfs_command (sourcePath conn) (fsType conn) ty)
    as [cmd|e] eqn:Hcmd; nrun.
  2: { eexists. rewrite <- !app_assoc. split; [reflexivity|].
       intros (cmd & r & Hin). apply elem_of_app in Hin as [Hin|Hin].
       - destruct Hno1. by exists cmd, r.
       - not_in Hin. }
  destruct (ExecShellCmd V cmd [] w3) as [[out [e|]] w4]; cbn;
    [destruct (contains out "in use by the system"); cbn
    |destruct (MountToDir V _ _ _ true w4) as [me w5]; cbn].
  all: eexists; rewrite <- !app_assoc; (split; [reflexivity|]).
  all: intros _; exists t1, size, cmd; eexists _, _.
  all: rewrite Hty; cbn.
  all: split; [exact Hev|]; split; [done|]; split; [exact Hcmd|].
  all: split; [reflexivity|]; eauto.
Qed.

(** X21.  A device on which [blkid] finds a file system is mounted as
    it is: no format command is issued; the device is mounted on the
    target, and then, unless the access mode is ReadWriteMany or
    ReadOnlyMany or the mount failed, the file system is resized, and
    nothing else is done. *)
Theorem mountdisk_keeps_existing_filesystem (conn : connectorInfo)
    (s : Host V * list Ev) (fs : string) :
  (getFSType V (sourcePath conn) s).1 = (fs, None) → fs ≠ "" →
  ∃ e out merr tail,
    (mountDisk' conn s).2.2
    = s.2 ++ [EvPathExist (sourcePath conn) (true, e);
              blkid (sourcePath conn) (out, None);
              EvMountToDir (sourcePath conn) (targetPath conn)
                (mntFlags conn) true merr] ++ tail
    ∧ find_fs_type (split_on "010" out) = Some fs
    ∧ (tail = [] ∨ ∃ rerr, tail = [EvResizeMountPath (targetPath conn) rerr]
                           ∧ (mountDisk' conn s).1 = rerr)
    ∧ (tail ≠ [] ↔
       merr = None
       ∧ accessMode conn ≠ MULTI_NODE_MULTI_WRITER
       ∧ accessMode conn ≠ MULTI_NODE_READER_ONLY)
    ∧ (tail = [] → (mountDisk' conn s).1 = merr).
Proof.
  intros Hr Hne.
  destruct (getFSType_course (sourcePath conn) s)
    as (t1 & Ht1 & _ & _ & Hfs).
  destruct (Hfs fs Hr Hne) as (e & out & -> & Hfind). clear Hfs.
  destruct (mountDisk' conn s) as [r' [w' tr']] eqn:Hm. cbn.
  unfold mountDisk in Hm. unfold mbind at 1, N_bind at 1 in Hm.
  destruct (getFSType V (sourcePath conn) s) as [r [w1 tr1]];
    cbn in Ht1, Hr; subst tr1 r.
  rewrite bool_decide_eq_false_2 in Hm by done. nrun.
  exists e, out.
  destruct (MountToDir V _ _ _ true w1) as [[me|] w2]; cbn in Hm.
  - injection Hm as <- <- <-.
    exists (Some me), []. rewrite <- app_assoc. cbn.
    repeat split; try done; auto. by intros (? & _).
  - destruct (bool_decide (accessMode conn = MULTI_NODE_MULTI_WRITER))
      eqn:H1; [|destruct (bool_decide (accessMode conn
                                        = MULTI_NODE_READER_ONLY)) eqn:H2];
      cbn in Hm.
    + apply bool_decide_eq_true in H1. injection Hm as <- <- <-.
      exists None, []. rewrite <- app_assoc. cbn.
      repeat split; try done; auto. by intros (_ & ? & _).
    + apply bool_decide_eq_true in H2. injection Hm as <- <- <-.
      exists None, []. rewrite <- app_assoc. cbn.
      repeat split; try done; auto. by intros (_ & _ & ?).
    + apply bool_decide_eq_false in H1, H2. nrun.
      destruct (ResizeMountPath V (targetPath conn) w2) as [re w3].
      cbn in Hm. injection Hm as <- <- <-.
      exists None, [EvResizeMountPath (targetPath conn) re].
      rewrite <- !app_assoc. cbn.
      repeat split; try done; eauto.
Qed.

(** *** Connecting and disconnecting *)

(** X22.  [tryConnectVolume] does nothing on the host unless the
    connection info is complete and the source type is [block] or
    [fs]: otherwise it returns the error of [parseNFSInfo], or "not
    support source type", without a single call.  For [fs] it makes
    one call, the mount, without check of the source path, and returns
    its error; for [block] the first call reads the device, and
    nothing follows when that fails. *)
Theorem tryconnectvolume_source_types (connMap : gmap string prop)
    (s : Host V * list Ev) :
  let r := tryConnectVolume' connMap s in
  r.1.1 = ""
  ∧ (∀ e, parseNFSInfo' connMap = inr e → r = (("", Some e), s))
  ∧ (∀ conn, parseNFSInfo' connMap = inl conn →
       (srcType conn ≠ "block" → srcType conn ≠ "fs" →
        r = (("", Some "not support source type"), s))
       ∧ (srcType conn = "fs" →
          ∃ e, r.2.2 = s.2 ++ [EvMountToDir (sourcePath conn)
                                 (targetPath conn) (mntFlags conn) false e]
               ∧ r.1.2 = e)
       ∧ (srcType conn = "block" →
          let read := ReadDevice V (sourcePath conn) s.1 in
          let s1 := (read.2,
                     s.2 ++ [EvReadDevice (sourcePath conn) read.1]) in
          (read.1 ≠ None → r = (("", read.1), s1))
          ∧ (read.1 = None →
             r = (("", (mountDisk' conn s1).1), (mountDisk' conn s1).2)))).
Proof.
  intros r. subst r. unfold tryConnectVolume.
  destruct (parseNFSInfo' connMap) as [conn|e] eqn:Hp.
  2: { cbn. split; [done|]. split; [by intros ? [= <-]|done]. }
  split.
  { destruct (bool_decide (srcType conn = "block")); nrun.
    - destruct (ReadDevice V (sourcePath conn) s.1) as [[e|] w]; cbn;
        [done|].
      by destruct (mountDisk' conn _) as [[e|] s1].
    - destruct (bool_decide (srcType conn = "fs")); nrun; [|done].
      unfold mountFS. nrun.
      by destruct (MountToDir V _ _ _ false s.1) as [[e|] w]. }
  split; [done|]. intros conn' [= <-].
  split; [|split].
  - intros H1 H2. by rewrite !bool_decide_eq_false_2 by done.
  - intros Hfs. rewrite bool_decide_eq_false_2 by (by rewrite Hfs).
    rewrite bool_decide_eq_true_2 by done. unfold mountFS. nrun.
    destruct (MountToDir V _ _ _ false s.1) as [[e|] w]; cbn;
      by eexists.
  - intros Hb. rewrite bool_decide_eq_true_2 by done. nrun.
    destruct (ReadDevice V (sourcePath conn) s.1) as [[e|] w]; cbn.
    + split; [done|]. intros [=].
    + split; [done|]. intros _.
      by destruct (mountDisk' conn _) as [[e|] s1].
Qed.

(** X23.  [tryDisConnectVolume] removes the target path only after the
    unmount succeeded and [os.Stat] found the path: when the unmount
    fails nothing else is done and its error is returned; a path that
    is not there is success without a removal; another error of
    [os.Stat] stops without a removal. *)
Theorem trydisconnectvolume_removes_after_unmount (targetPath : string)
    (s : Host V * list Ev) :
  let r := tryDisConnectVolume V targetPath s in
  ∃ t, r.2.2 = s.2 ++ t
       ∧ ((∃ e, t = [EvUnmount targetPath (Some e)] ∧ r.1 = Some e)
          ∨ (t = [EvUnmount targetPath None; EvStat targetPath StatNotExist]
             ∧ r.1 = None)
          ∨ (∃ e, t = [EvUnmount targetPath None;
                       EvStat targetPath (StatErr e)]
                  ∧ r.1 ≠ None)
          ∨ (∃ e, t = [EvUnmount targetPath None; EvStat targetPath StatOk;
                       EvRemoveAll targetPath e]
                  ∧ (r.1 = None ↔ e = None)))
       ∧ (∀ e, EvRemoveAll targetPath e ∈ t →
               EvUnmount targetPath None ∈ t ∧ EvStat targetPath StatOk ∈ t).
Proof.
  intros r. subst r. unfold tryDisConnectVolume, removeTargetPath. nrun.
  destruct (Unmount V targetPath s.1) as [[e|] w]; cbn.
  { eexists. split; [reflexivity|]. split; [left; by eexists|].
    intros e' Hin. not_in Hin. }
  destruct (os_Stat V targetPath w) as [[| |e] w1]; cbn.
  - destruct (os_RemoveAll V targetPath w1) as [[e|] w2]; cbn;
      (eexists; rewrite <- !app_assoc; split; [reflexivity|]; split;
       [do 3 right; eexists; by split
       |intros e' _; split; set_solver]).
  - eexists. rewrite <- !app_assoc. split; [reflexivity|].
    split; [right; left; by split|]. intros e' Hin. not_in Hin.
  - eexists. rewrite <- !app_assoc. split; [reflexivity|].
    split; [right; right; left; by eexists|]. intros e' Hin. not_in Hin.
Qed.

(** X24.  [preMount] makes the target directory only when [os.Stat]
    says it is not there and, if the source is to be checked, the
    source is: a missing source stops it before the target is looked
    at.  An error of [os.Stat] other than "not there" counts as
    "there", for the source and for the target. *)
Theorem premount_creates_target_only_when_missing
    (sourcePath targetPath : string) (checkSourcePath : bool)
    (s : Host V * list Ev) :
  let r := preMount V sourcePath targetPath checkSourcePath s in
  ∃ pre st tail,
    r.2.2 = s.2 ++ pre ++ tail
    ∧ (if checkSourcePath then pre = [EvStat sourcePath st]
       else pre = [] ∧ st = StatOk)
    ∧ (st = StatNotExist →
       tail = [] ∧ r.1 = Some "source path does not exist")
    ∧ (st ≠ StatNotExist →
       ∃ st', (tail = [EvStat targetPath st'] ∧ st' ≠ StatNotExist
               ∧ r.1 = None)
              ∨ (st' = StatNotExist
                 ∧ ∃ e, tail = [EvStat targetPath st';
                                EvMkdirAll targetPath
                                  targetMountPathPermission e]
                        ∧ r.1 = match e with
                                | Some _ => Some "can not create a target path"
                                | None => None
                                end)).
Proof.
  intros r. subst r.
  destruct (preMount V sourcePath targetPath checkSourcePath s)
    as [r [w' tr']] eqn:Hm. cbn.
  unfold preMount in Hm.
  destruct checkSourcePath; nrun.
  - destruct (os_Stat V sourcePath s.1) as [st w]. nrun.
    exists [EvStat sourcePath st], st.
    destruct st as [| |e]; nrun.
    2: { injection Hm as <- <- <-. exists []. cbn. by repeat split. }
    all: destruct (os_Stat V targetPath w) as [[| |e'] w1]; nrun;
      [| destruct (os_MkdirAll V targetPath targetMountPathPermission w1)
           as [me w2]; nrun |].
    all: try (destruct me; nrun).
    all: injection Hm as <- <- <-; rewrite <- ?app_assoc; cbn.
    all: eexists; (split; [reflexivity|]); (split; [done|]);
      (split; [done|]); intros _.
    all: first [ by (eexists; left)
               | (exists StatNotExist; right; split; [done|]; by eexists) ].
  - exists [], StatOk.
    destruct (os_Stat V targetPath s.1) as [[| |e'] w1]; nrun;
      [| destruct (os_MkdirAll V targetPath targetMountPathPermission w1)
           as [me w2]; nrun |].
    all: try (destruct me; nrun).
    all: injection Hm as <- <- <-; rewrite <- ?app_assoc; cbn.
    all: eexists; (split; [reflexivity|]); (split; [done|]);
      (split; [done|]); intros _.
    all: first [ by (eexists; left)
               | (exists StatNotExist; right; split; [done|]; by eexists) ].
Qed.

End ConnectorFacts.

(** *** A sample host *)

(** A host on which every path exists, [blkid] prints [output] and
    ends with [err], and everything else succeeds; a device has
    [size] bytes. *)
Definition sample_host (output : string) (err : option exec_error)
    (size : Z) : Sys :=
  {| Host := unit;
     os_Stat := fun _ w => (StatOk, w);
     os_MkdirAll := fun _ _ w => (None, w);
     os_RemoveAll := fun _ w => (None, w);
     PathExist := fun _ w => ((true, None), w);
     ExecShellCmd := fun format args w =>
       if bool_decide (format = "blkid -o udev %s")
       then ((output, err), w) else (("", None), w);
     IsDeviceFormatted := fun _ w => ((false, None), w);
     IsInFormatting := fun _ _ w => ((false, None), w);
     GetDeviceSize := fun _ w => ((size, None), w);
     ReadDevice := fun _ w => (None, w);
     ResizeMountPath := fun _ w => (None, w);
     MountToDir := fun _ _ _ _ w => (None, w);
     Unmount := fun _ w => (None, w) |}.

Definition newline : string := String "010" EmptyString.

(** What [blkid -o udev] prints for an ext4 file system. *)
Definition blkid_ext4 : string :=
  "ID_FS_UUID=0a1b" +:+ newline +:+ "ID_FS_TYPE=ext4" +:+ newline.

Definition sample_conn (mode : AccessMode) : connectorInfo :=
  {| srcType := "block"; sourcePath := "/dev/sdb"; targetPath := "/mnt/pv";
     fsType := "ext4"; mntFlags := {| DashO := ""; DashT := "" |};
     accessMode := mode |}.

(** Sizes in bytes: 512 GiB, 1 TiB, 10 TiB, 100 TiB, 512 TiB. *)
Definition sample_mountDisk (V : Sys) :=
  mountDisk V 10 (2 ^ 39) (2 ^ 40) (10 * 2 ^ 40) (100 * 2 ^ 40) (2 ^ 49).

Lemma disk_size_classes_witness :
  size_type (2 ^ 39) (2 ^ 40) (10 * 2 ^ 40) (100 * 2 ^ 40) (2 ^ 49)
    (3 * 2 ^ 40)
  = ("huge", None).
Proof.
  pose proof (disk_size_classes (2 ^ 39) (2 ^ 40) (10 * 2 ^ 40)
                (100 * 2 ^ 40) (2 ^ 49) (3 * 2 ^ 40)) as H.
  cbv zeta in H. apply H; lia.
Defined.

Lemma mountdisk_keeps_existing_filesystem_witness :
  ∃ e out merr tail,
    (sample_mountDisk (sample_host blkid_ext4 None 0)
       (sample_conn SINGLE_NODE_WRITER) (tt, [])).2.2
    = [] ++ [EvPathExist "/dev/sdb" (true, e);
             blkid "/dev/sdb" (out, None);
             EvMountToDir "/dev/sdb" "/mnt/pv" {| DashO := ""; DashT := "" |}
               true merr] ++ tail
    ∧ find_fs_type (split_on "010" out) = Some "ext4"
    ∧ tail ≠ [].
Proof.
  destruct (mountdisk_keeps_existing_filesystem
              (sample_host blkid_ext4 None 0) 10 (2 ^ 39) (2 ^ 40)
              (10 * 2 ^ 40) (100 * 2 ^ 40) (2 ^ 49)
              (sample_conn SINGLE_NODE_WRITER) (tt, []) "ext4"
              eq_refl ltac:(discriminate))
    as (e & out & merr & tail & Ht & Hfind & _).
  exists e, out, merr, tail. split; [exact Ht|]. split; [exact Hfind|].
  intros ->. vm_compute in Ht. by simplify_eq.
Defined.

(** A new device of 3 TiB: [blkid] ends with code 2 and the device is
    not formatted, so it is formatted as a huge ext4 and mounted. *)
Example new_device_is_formatted :
  (sample_mountDisk (sample_host "" (Some (ExitError 2 "exit status 2"))
                       (3 * 2 ^ 40))
     (sample_conn SINGLE_NODE_WRITER) (tt, [])).2.2
  = [EvPathExist "/dev/sdb" (true, None);
     blkid "/dev/sdb" ("", Some (ExitError 2 "exit status 2"));
     EvIsDeviceFormatted "/dev/sdb" (false, None);
     EvIsInFormatting "/dev/sdb" "ext4" (false, None);
     EvGetDeviceSize "/dev/sdb" (3 * 2 ^ 40, None)%Z;
     EvExec "mkfs -t ext4 -T huge -F /dev/sdb" [] ("", None);
     EvMountToDir "/dev/sdb" "/mnt/pv" {| DashO := ""; DashT := "" |}
       true None].
Proof. vm_compute. reflexivity. Qed.

(** An ext4 device shared ReadWriteMany is mounted and not resized. *)
Example shared_device_not_resized :
  (sample_mountDisk (sample_host blkid_ext4 None 0)
     (sample_conn MULTI_NODE_MULTI_WRITER) (tt, [])).2.2
  = [EvPathExist "/dev/sdb" (true, None);
     blkid "/dev/sdb" (blkid_ext4, None);
     EvMountToDir "/dev/sdb" "/mnt/pv" {| DashO := ""; DashT := "" |}
       true None].
Proof. vm_compute. reflexivity. Qed.

Example contains_in_use :
  contains "mkfs: /dev/sdb is apparently in use by the system; stop"
    "in use by the system" = true
  ∧ contains "mkfs: no such device" "in use by the system" = false.
Proof. vm_compute. by split. Qed.

Example split_lines :
  split_on "010" blkid_ext4 = ["ID_FS_UUID=0a1b"; "ID_FS_TYPE=ext4"; ""]
  ∧ split_on "=" "ID_FS_TYPE=ext4" = ["ID_FS_TYPE"; "ext4"]
  ∧ split_on "=" "" = [""]
  ∧ find_fs_type (split_on "010" blkid_ext4) = Some "ext4"
  ∧ find_fs_type ["ID_FS_TYPE=a=b"; "TYPE=xfs"] = None.
Proof. vm_compute. repeat split; reflexivity. Qed.

End NfsFacts.
